(** * jsonrpc-go: a shallow embedding of the RPC dispatch engine

    The development follows the Go sources of the package [jsonrpc]:
    - [reflect] : the part of Go's run-time type descriptors the package
      inspects ([Kind], [PkgPath], [Elem], type identity);
    - [jsonType], [jsonErrorDetails] : the type-safety reporter;
    - [RPCError] and its constructors, [translateError], [MarshalJSON];
    - [resolveMethod], [newParams] : the method registry;
    - [parseRequests], [invokeMethod], [ServeHTTP] : the request engine.

    Go values that the engine only passes along (handler results, decoded
    parameters) are kept abstract enough to carry their dynamic type; the
    JSON library, decoder and encoder, is a capability ([Codec]) the
    engine is parametrised by; handlers and middleware act on an abstract
    [World]. *)

From Stdlib Require Import ZArith Ascii String List Bool Lia.
From Stdlib Require Import SpecFloat.
From stdpp Require Import base option gmap strings list fin_maps pretty.

Set Warnings "-register-all".

Local Open Scope list_scope.
Local Open Scope string_scope.

(** ** Run-time types ([package reflect]) *)

Module reflect.

(** [reflect.Kind], in the order of the Go declaration. *)
Inductive Kind : Set :=
| Invalid | Bool
| Int | Int8 | Int16 | Int32 | Int64
| Uint | Uint8 | Uint16 | Uint32 | Uint64 | Uintptr
| Float32 | Float64 | Complex64 | Complex128
| Array | Chan | Func | Interface | Map | Ptr | Slice | String | Struct
| UnsafePointer.

Definition Kind_eq_dec (a b : Kind) : {a = b} + {a <> b}.
Proof. decide equality. Defined.

Definition Kind_eqb (a b : Kind) : bool :=
  if Kind_eq_dec a b then true else false.

(** A [reflect.Type], by the observations the package makes of it:
    [t.Kind()], [t.PkgPath()] (empty for predeclared and for unnamed
    composite types), its name, and [t.Elem()] for pointers and
    containers.  Type identity ([t == u]) is structural equality of
    descriptors. *)
Inductive Type_ : Set :=
  mkType { Kind_ : Kind; PkgPath : string; Name : string; Elem : option Type_ }.

Fixpoint Type_eqb (a b : Type_) : bool :=
  match a, b with
  | mkType k p n e, mkType k' p' n' e' =>
      Kind_eqb k k' && String.eqb p p' && String.eqb n n' &&
      match e, e' with
      | Some x, Some y => Type_eqb x y
      | None, None => true
      | _, _ => false
      end
  end.

(** Induction on descriptors, through the element type. *)
Fixpoint Type_ind' (P : Type_ -> Prop)
  (H : forall k p n e,
      match e with Some x => P x | None => True end -> P (mkType k p n e))
  (t : Type_) : P t :=
  match t with
  | mkType k p n e =>
      H k p n e
        (match e return match e with Some x => P x | None => True end with
         | Some x => Type_ind' P H x
         | None => I
         end)
  end.

(** Constructors of descriptors. *)
Definition predeclared (k : Kind) (name : string) : Type_ :=
  mkType k "" name None.
Definition defined (pkg name : string) (underlying : Type_) : Type_ :=
  mkType (Kind_ underlying) pkg name (Elem underlying).
Definition PtrTo (t : Type_) : Type_ :=
  mkType Ptr "" ("*" ++ Name t) (Some t).
Definition SliceOf (t : Type_) : Type_ :=
  mkType Slice "" ("[]" ++ Name t) (Some t).
Definition ArrayOf (n : nat) (t : Type_) : Type_ :=
  mkType Array "" ("[" ++ pretty n ++ "]" ++ Name t) (Some t).
Definition MapOf (k t : Type_) : Type_ :=
  mkType Map "" ("map[" ++ Name k ++ "]" ++ Name t) (Some t).
Definition StructOf (fields : string) : Type_ :=
  mkType Struct "" ("struct {" ++ fields ++ "}") None.
Definition InterfaceOf (methods : string) : Type_ :=
  mkType Interface "" ("interface {" ++ methods ++ "}") None.

(** Number of pointer levels at the head of a type. *)
Fixpoint ptrDepth (t : Type_) : nat :=
  match t with
  | mkType Ptr _ _ (Some e) => S (ptrDepth e)
  | _ => 0
  end.

End reflect.

Abbreviation rtype := reflect.Type_.

Definition tBool : rtype := reflect.predeclared reflect.Bool "bool".
Definition tInt : rtype := reflect.predeclared reflect.Int "int".
Definition tInt64 : rtype := reflect.predeclared reflect.Int64 "int64".
Definition tFloat64 : rtype := reflect.predeclared reflect.Float64 "float64".
Definition tString : rtype := reflect.predeclared reflect.String "string".

(** [typeContextContext], [typeEmptyInterface], [typeError] of method.go. *)
Definition typeContextContext : rtype :=
  reflect.defined "context" "Context"
    (reflect.InterfaceOf " Deadline(); Done(); Err(); Value() ").
Definition typeEmptyInterface : rtype := reflect.InterfaceOf "".
Definition typeError : rtype :=
  reflect.mkType reflect.Interface "" "error" None.

(** [typeTimeTime], [typeTimeDuration] of the reporter. *)
Definition typeTimeTime : rtype :=
  reflect.defined "time" "Time" (reflect.StructOf " wall; ext; loc ").
Definition typeTimeDuration : rtype :=
  reflect.defined "time" "Duration" tInt64.

(** ** The type-safety reporter *)

(** [for t.Kind() == reflect.Ptr { t = t.Elem() }] *)
Fixpoint indirect (t : rtype) : rtype :=
  match t with
  | reflect.mkType reflect.Ptr _ _ (Some e) => indirect e
  | _ => t
  end.

(** [jsonType] maps a Go type to the name of its JSON counterpart. *)
Definition jsonType (t : rtype) : string :=
  let t := indirect t in
  let primitive :=
    if String.eqb (reflect.PkgPath t) "" then
      match reflect.Kind_ t with
      | reflect.Bool => Some "boolean"
      | reflect.Int | reflect.Int8 | reflect.Int16 | reflect.Int32
      | reflect.Int64 | reflect.Uint | reflect.Uint8 | reflect.Uint16
      | reflect.Uint32 | reflect.Uint64 => Some "integer"
      | reflect.Float32 | reflect.Float64
      | reflect.Complex64 | reflect.Complex128 => Some "number"
      | reflect.String => Some "string"
      | _ => None
      end
    else None in
  match primitive with
  | Some s => s
  | None =>
      if reflect.Type_eqb t typeTimeTime then "time"
      else if reflect.Type_eqb t typeTimeDuration then "duration"
      else
        match reflect.Kind_ t with
        | reflect.Struct | reflect.Map => "object"
        | reflect.Array | reflect.Slice => "array"
        | _ => ""
        end
  end.

(** ** Strings ([package strings], [fmt]) *)

(** [strings.Replace(s, old, new, -1)] for a one-byte [old]. *)
Fixpoint replaceAll (old : ascii) (new s : string) : string :=
  match s with
  | EmptyString => EmptyString
  | String c r =>
      if Ascii.eqb c old then new ++ replaceAll old new r
      else String c (replaceAll old new r)
  end.

(** [strings.Split(s, sep)] for a one-byte [sep]: the pieces between the
    separators, so one more piece than there are separators. *)
Fixpoint split (sep : ascii) (s : string) : list string :=
  match s with
  | EmptyString => [EmptyString]
  | String c r =>
      match split sep r with
      | [] => [String c EmptyString]
      | piece :: pieces =>
          if Ascii.eqb c sep then EmptyString :: piece :: pieces
          else String c piece :: pieces
      end
  end.

Definition tab : ascii := "009"%char.
Definition newline : ascii := "010"%char.
Definition dquote : ascii := "034"%char.
Definition backslash : ascii := "092"%char.

(** The [%q] verb on the field names met here: the text between double
    quotes, with quote and backslash escaped and newline and tab spelled
    out.  (Go also escapes the other control and non-printable bytes.) *)
Fixpoint quoteBody (s : string) : string :=
  match s with
  | EmptyString => EmptyString
  | String c r =>
      (if Ascii.eqb c dquote then String backslash (String dquote EmptyString)
       else if Ascii.eqb c backslash then String backslash (String backslash EmptyString)
       else if Ascii.eqb c newline then String backslash "n"
       else if Ascii.eqb c tab then String backslash "t"
       else String c EmptyString) ++ quoteBody r
  end.

Definition quote (s : string) : string :=
  String dquote (quoteBody s ++ String dquote EmptyString).

(** The [%d] verb on an [int64]. *)
Definition formatInt (n : Z) : string := pretty n.

(** ** Dynamic values *)

Abbreviation float64 := spec_float.

(** What [encoding/json] stores in an [interface{}]: nil for [null],
    [bool], [float64], [string], [[]interface{}], [map[string]interface{}].
    This is the dynamic value of a request's [ID]. *)
Inductive jsonValue : Type :=
| Nil
| OfBool (b : bool)
| OfFloat64 (f : float64)
| OfString (s : string)
| OfSlice (l : list jsonValue)
| OfMap (m : list (string * jsonValue)).

(** A Go map hashes an interface key by its dynamic type; slices and maps
    have no hash, and using one as a key panics at run time. *)
Definition hashable (v : jsonValue) : bool :=
  match v with
  | OfSlice _ | OfMap _ => false
  | _ => true
  end.

(** [==] on two hashable interface values: same dynamic type and equal
    contents ([float64] by IEEE comparison). *)
Definition ifaceEq (a b : jsonValue) : bool :=
  match a, b with
  | Nil, Nil => true
  | OfBool x, OfBool y => Bool.eqb x y
  | OfFloat64 x, OfFloat64 y => SFeqb x y
  | OfString x, OfString y => String.eqb x y
  | _, _ => false
  end.

(** Typed Go values as the engine handles them: it allocates zero values,
    follows pointers and passes the rest along.
    - [Zero t]: the zero value of [t] (the nil pointer, the nil interface);
    - [Lit t repr]: some other value of type [t], named by its text;
    - [Pointer t target]: a non-nil pointer of type [t] to a variable
      currently holding [target];
    - [Boxed t dyn]: a variable of interface type [t] holding [dyn]. *)
Inductive value : Type :=
| Zero (t : rtype)
| Lit (t : rtype) (repr : string)
| Pointer (t : rtype) (target : value)
| Boxed (t : rtype) (dyn : value).

(** [reflect.Value.Type]. *)
Definition typeOf (v : value) : rtype :=
  match v with
  | Zero t | Lit t _ | Pointer t _ | Boxed t _ => t
  end.

(** An [interface{}]: nil or a dynamic value. *)
Abbreviation iface := (option value).

(** [reflect.Value.Interface]: the contents of a variable as an
    [interface{}]; an interface variable yields what it holds. *)
Definition Interface (v : value) : iface :=
  match v with
  | Boxed _ dyn => Some dyn
  | Zero t =>
      if reflect.Kind_eqb (reflect.Kind_ t) reflect.Interface then None
      else Some v
  | _ => Some v
  end.

(** ** Errors *)

(** [RPCError] of errors.go, over the type of wrapped errors. *)
Record RPCError_ (E : Type) : Type := mkRPCError {
  Name : string;
  Message : string;
  data : iface;
  dumpErrors : bool;
  wrapped : option E
}.
Arguments mkRPCError {E}.
Arguments Name {E}.
Arguments Message {E}.
Arguments data {E}.
Arguments dumpErrors {E}.
Arguments wrapped {E}.

(** Non-nil values of interface type [error], by dynamic type:
    [*RPCError], [*json.SyntaxError], [*json.UnmarshalTypeError], and any
    other error, given by its [Error()] text and its [%+v] rendering.
    An [error] that holds a [*RPCError] is not nil even when the pointer
    is: [ErrNilRPC] is that interface value.  The errors of the decoder
    are never nil pointers. *)
Inductive goerror : Type :=
| ErrRPC (e : RPCError_ goerror)
| ErrNilRPC
| ErrSyntax (msg : string) (Offset : Z)
| ErrUnmarshalType (Value : string) (Type_ : rtype) (Offset : Z)
    (Field : string) (text : string)
| ErrOther (text verbose : string).

Abbreviation RPCError := (RPCError_ goerror).

(** The interface type [error]: nil or a non-nil error. *)
Abbreviation error := (option goerror).

(** A [*RPCError] stored in an [error]: the conversion every [return] of
    an [*RPCError] from a function of result type [error] makes. *)
Definition asError (p : option RPCError) : goerror :=
  match p with
  | Some e => ErrRPC e
  | None => ErrNilRPC
  end.

(** [Error]: an error rendered directly to the client.  The format
    arguments are applied by the caller ([MethodNotFound] is the one
    constructor the engine calls with an argument). *)
Definition Error (name message : string) : RPCError :=
  mkRPCError name message None false None.

(** [RPCError.Data], [RPCError.Wrap]. *)
Definition Data (e : RPCError) (d : iface) : RPCError :=
  mkRPCError (Name e) (Message e) d (dumpErrors e) (wrapped e).
Definition Wrap (e : RPCError) (err : error) : RPCError :=
  mkRPCError (Name e) (Message e) (data e) (dumpErrors e) err.

Definition InternalError (err : error) : RPCError :=
  Wrap (Error "internal_error" "internal error") err.
Definition InvalidParams (msg : string) : RPCError := Error "invalid_params" msg.
Definition InvalidRequest (msg : string) : RPCError := Error "invalid_request" msg.
Definition MethodNotFound (method : string) : RPCError :=
  Error "method_not_found" ("method not found: " ++ method).
Definition NotFound (msg : string) : RPCError := Error "not_found" msg.
Definition Unauthorized (msg : string) : RPCError := Error "unauthorized" msg.

(** [jsonErrorDetails]: a message about a decoding error that is safe to
    return to the caller. *)
Definition jsonErrorDetails (err : goerror) : string :=
  match err with
  | ErrSyntax msg Offset => "offset " ++ formatInt Offset ++ ": " ++ msg
  | ErrUnmarshalType Value Type_ Offset Field _ =>
      let fieldText := if String.eqb Field "" then "" else " to " ++ quote Field in
      let t := jsonType Type_ in
      let typeText := if String.eqb t "" then "" else " as " ++ t in
      "offset " ++ formatInt Offset ++ ": cannot unmarshal " ++ Value
        ++ fieldText ++ typeText
  | _ => ""
  end.

Definition ParseError (err : goerror) (msg : string) : RPCError :=
  let details := jsonErrorDetails err in
  let msg := if String.eqb details "" then msg else msg ++ ": " ++ details in
  Wrap (Error "parse_error" msg) (Some err).

(** [RPCError.Error] and the [Error()] text of any error; [None] when
    the call panics, which it does on a nil [*RPCError] ([e.Name] is read
    through the nil pointer), also when that is met down the chain of
    wrapped errors. *)
Fixpoint errorText (err : goerror) : option string :=
  match err with
  | ErrRPC e =>
      let s := "jsonrpc: " ++ replaceAll "_"%char " " (Name e) in
      let s := if String.eqb (Message e) "" then s else s ++ ": " ++ Message e in
      match wrapped e with
      | Some w =>
          match errorText w with
          | Some text => Some (s ++ ": " ++ text)
          | None => None
          end
      | None => Some s
      end
  | ErrNilRPC => None
  | ErrSyntax msg _ => Some msg
  | ErrUnmarshalType _ _ _ _ text => Some text
  | ErrOther text _ => Some text
  end.

(** What [fmt] prints for an operand whose [Error] method panics, the
    operand not being a nil pointer. *)
Definition panicInError : string :=
  "%!v(PANIC=Error method: runtime error: "
    ++ "invalid memory address or nil pointer dereference)".

(** [fmt.Sprintf("%+v", err)]: an error without a formatter of its own
    prints its [Error()] text; [fmt] recovers a panic of the method, and
    prints a nil pointer as [<nil>]. *)
Definition formatPlusV (err : goerror) : string :=
  match err with
  | ErrOther _ verbose => verbose
  | ErrNilRPC => "<nil>"
  | _ =>
      match errorText err with
      | Some text => text
      | None => panicInError
      end
  end.

(** The struct [MarshalJSON] hands to the encoder; [omitempty] leaves out
    a nil [Data] and an empty [Details]. *)
Record errorJSON : Type := mkErrorJSON {
  jName : string;
  jMessage : string;
  jData : iface;
  jDetails : option (list string)
}.

Definition omitemptySlice {A} (l : list A) : option (list A) :=
  match l with [] => None | _ => Some l end.

Definition MarshalJSON (e : RPCError) : errorJSON :=
  let Details :=
    match dumpErrors e, wrapped e with
    | true, Some w =>
        let s := formatPlusV w in
        let s := replaceAll tab "  " s in
        split newline s
    | _, _ => []
    end in
  mkErrorJSON (Name e) (Message e) (data e) (omitemptySlice Details).

(** [translateError] coerces an error to the [*RPCError] sent to the
    client.  The [case *RPCError] of the type switch returns the pointer
    the interface holds, nil ([None]) when that pointer is nil. *)
Definition translateError (err : error) : option RPCError :=
  match err with
  | None => None
  | Some (ErrRPC e) => Some e
  | Some ErrNilRPC => None
  | Some _ => Some (InternalError err)
  end.

(** ** Panics *)

(** The value given to [panic], as [recover] returns it: the nil
    interface (with the Go version of go.mod, 1.12, [panic(nil)] makes
    [recover] return nil), an error, or any other value, given by its
    [%v] rendering. *)
Inductive panicValue : Type :=
| PanicNil
| PanicError (e : goerror)
| PanicOther (text : string).

(** A computation that returns or panics. *)
Inductive exec (A : Type) : Type :=
| Done (a : A)
| Panicked (v : panicValue).
Arguments Done {A}.
Arguments Panicked {A}.

Definition runtimeError (text : string) : panicValue :=
  PanicError (ErrOther ("runtime error: " ++ text) ("runtime error: " ++ text)).

Definition nilDereference : panicValue :=
  runtimeError "invalid memory address or nil pointer dereference".

Definition unhashableKey (v : jsonValue) : panicValue :=
  runtimeError ("hash of unhashable type " ++
    match v with
    | OfSlice _ => "[]interface {}"
    | OfMap _ => "map[string]interface {}"
    | _ => ""
    end).

(** ** Requests and responses *)

Module request.
Record t : Type := mk {
  Method : string;   (* Method Name *)
  Params : string;   (* Method Parameters, a json.RawMessage *)
  ID : jsonValue     (* Request ID, useful for batches *)
}.
End request.

Module response.
Record t : Type := mk {
  Result : iface;
  Error : option RPCError;
  ID : jsonValue
}.
End response.

Module http.
(** An inbound [http.Request], by what [ioutil.ReadAll(r.Body)] returns. *)
Record Request : Type := mkRequest {
  Body : string;
  BodyErr : error
}.
End http.

(** What [sendJSON] is given to encode: one response or the array. *)
Inductive payload : Type :=
| Object (r : response.t)
| Array (rs : list response.t).

(** What [sendJSON] writes when the encoder accepts the value: the status
    and the value encoded. *)
Record HTTPResponse : Type := mkHTTPResponse {
  StatusCode : Z;
  Payload : payload
}.

(** The JSON object a [response] is encoded as: [result] and [error] are
    [omitempty] (a nil interface, a nil pointer are left out), [id] is
    always written; the error is encoded by its [MarshalJSON]. *)
Record responseJSON : Type := mkResponseJSON {
  jResult : iface;
  jError : option errorJSON;
  jID : jsonValue
}.

Definition encodeResponse (r : response.t) : responseJSON :=
  mkResponseJSON (response.Result r)
    (option_map MarshalJSON (response.Error r)) (response.ID r).

(** The per-call [context.Context], by the two values the package stores
    in it under [contextKeyMethod] and [contextKeyRequest]. *)
Record context : Type := mkContext {
  valueMethod : option string;
  valueRequest : option http.Request
}.

Definition WithMethod (ctx : context) (m : string) : context :=
  mkContext (Some m) (valueRequest ctx).
Definition WithRequest (ctx : context) (r : http.Request) : context :=
  mkContext (valueMethod ctx) (Some r).
Definition Background : context := mkContext None None.


(** ** [encoding/json], as a capability *)

(** [json.Unmarshal] at the three targets the package decodes into:
    a [request], a [[]*request] (a [null] element decodes to a nil
    pointer), and the variable behind the pointer [newParams] returns
    ([decodeInto data v] is the new contents of a variable holding [v]);
    and the encoder on a value that comes from a handler, a result or the
    data of an error: [marshalError v] is [None] when the value is
    encoded, and the text of the encoder's error when it is not (a
    channel, a function, a complex number, a NaN, a [MarshalJSON] of the
    value's own that fails). *)
Class Codec : Type := mkCodec {
  decodeRequest : string -> goerror + request.t;
  decodeRequests : string -> goerror + list (option request.t);
  decodeInto : string -> value -> goerror + value;
  marshalError : value -> option string
}.

(** Decoding writes through the pointer: the variable keeps its type. *)
Definition CodecTyped (c : Codec) : Prop :=
  forall data v v', decodeInto data v = inr v' -> typeOf v' = typeOf v.

(** [json.Unmarshal(data, v)] for a [v] made by [reflect.New]. *)
Definition Unmarshal `{Codec} (data : string) (v : value) : goerror + value :=
  match v with
  | Pointer pt target =>
      match decodeInto data target with
      | inl err => inl err
      | inr target' => inr (Pointer pt target')
      end
  | _ =>
      let text := "json: Unmarshal(non-pointer " ++ reflect.Name (typeOf v) ++ ")" in
      inl (ErrOther text text)
  end.

(** ** [sendJSON]

    The encoder walks a [response] in the order of its fields.  [Result]
    is left out when it is the nil interface and handed to the encoder
    otherwise; [Error] is left out when it is the nil pointer, and
    otherwise encoded by its [MarshalJSON], which encodes [data] unless
    it is nil and whose failure the encoder reports as a
    [*json.MarshalerError]; [ID] holds what the decoder stored there,
    which the encoder always accepts, as it accepts names, messages and
    details, which are strings. *)
Definition marshalerError (text : string) : string :=
  "json: error calling MarshalJSON for type *jsonrpc.RPCError: " ++ text.

Definition errorFieldError `{Codec} (e : option RPCError) : option string :=
  match e with
  | Some e =>
      match data e with
      | Some d => option_map marshalerError (marshalError d)
      | None => None
      end
  | None => None
  end.

Definition responseError `{Codec} (r : response.t) : option string :=
  match response.Result r with
  | Some v =>
      match marshalError v with
      | Some text => Some text
      | None => errorFieldError (response.Error r)
      end
  | None => errorFieldError (response.Error r)
  end.

(** The error of [enc.Encode(v)], if any: that of the first response the
    encoder fails on. *)
Fixpoint responsesError `{Codec} (rs : list response.t) : option string :=
  match rs with
  | [] => None
  | r :: rest =>
      match responseError r with
      | Some text => Some text
      | None => responsesError rest
      end
  end.

Definition encodeError `{Codec} (v : payload) : option string :=
  match v with
  | Object r => responseError r
  | Array rs => responsesError rs
  end.

(** [sendJSON] encodes [v] as JSON and writes it to the response body.
    Panics if an encoding error occurs: nothing of the body has been
    written then, and the panic leaves [ServeHTTP].  The connection is
    taken to accept what is written to it. *)
Definition sendJSON `{Codec} (status : Z) (v : payload) : exec HTTPResponse :=
  match encodeError v with
  | Some text => Panicked (PanicError (ErrOther text text))
  | None => Done (mkHTTPResponse status v)
  end.

(** ** Reflection on values *)

(** [reflect.New(t)]: a pointer to a new zero value of [t]. *)
Definition reflect_New (t : rtype) : value := Pointer (reflect.PtrTo t) (Zero t).

(** Assignability of a value of type [src] to a [dst] variable or
    parameter: identical types, or an interface destination (exact for
    [interface{}]).  Two distinct pointer types of which one is an
    element type of the other are never assignable. *)
Definition assignableTo (src dst : rtype) : bool :=
  reflect.Type_eqb src dst
  || reflect.Kind_eqb (reflect.Kind_ dst) reflect.Interface.

(** [ptr.Elem().Set(x)] *)
Definition SetElem (ptr x : value) : exec value :=
  match ptr with
  | Pointer pt target =>
      if assignableTo (typeOf x) (typeOf target) then Done (Pointer pt x)
      else Panicked (PanicOther ("reflect.Set: value of type "
             ++ reflect.Name (typeOf x) ++ " is not assignable to type "
             ++ reflect.Name (typeOf target)))
  | _ => Panicked (PanicOther "reflect: call of reflect.Value.Elem on zero Value")
  end.

(** [reflect.ValueOf(ptr).Elem().Interface()] *)
Definition ElemInterface (ptr : value) : exec iface :=
  match ptr with
  | Pointer _ target => Done (Interface target)
  | _ => Panicked (PanicOther "reflect: call of reflect.Value.Elem on zero Value")
  end.

(** ** [bytes.TrimSpace]

    The white space trimmed is that of [unicode.IsSpace], read in the
    UTF-8 text rune by rune: the six ASCII bytes tab, newline, vertical
    tab, form feed, carriage return and space; U+0085 and U+00A0, of two
    bytes; U+1680, U+2000 to U+200A, U+2028, U+2029, U+202F, U+205F and
    U+3000, of three bytes.  A byte sequence that is not the encoding of
    a rune decodes to [utf8.RuneError], which is not white space. *)

(** The white space of one byte, [asciiSpace] of the package. *)
Definition isSpace (c : ascii) : bool :=
  let n := nat_of_ascii c in
  Nat.eqb n 9 || Nat.eqb n 10 || Nat.eqb n 11 || Nat.eqb n 12
  || Nat.eqb n 13 || Nat.eqb n 32.

Definition isByte (n : nat) (c : ascii) : bool := Nat.eqb (nat_of_ascii c) n.

(** C2 85 and C2 A0. *)
Definition isSpace2 (c d : ascii) : bool :=
  isByte 194 c && (isByte 133 d || isByte 160 d).

(** E1 9A 80; E2 80 80 to E2 80 8A, E2 80 A8, E2 80 A9, E2 80 AF;
    E2 81 9F; E3 80 80. *)
Definition isSpace3 (c d e : ascii) : bool :=
  (isByte 225 c && isByte 154 d && isByte 128 e)
  || (isByte 226 c && isByte 128 d
      && ((Nat.leb 128 (nat_of_ascii e) && Nat.leb (nat_of_ascii e) 138)
          || isByte 168 e || isByte 169 e || isByte 175 e))
  || (isByte 226 c && isByte 129 d && isByte 159 e)
  || (isByte 227 c && isByte 128 d && isByte 128 e).

(** The text after the white-space runes it starts with, [two] and
    [three] telling the runes of two and of three bytes. *)
Fixpoint trimRunes (two : ascii -> ascii -> bool)
  (three : ascii -> ascii -> ascii -> bool) (s : string) : string :=
  match s with
  | EmptyString => EmptyString
  | String c r =>
      if isSpace c then trimRunes two three r
      else
        match r with
        | EmptyString => s
        | String d r2 =>
            if two c d then trimRunes two three r2
            else
              match r2 with
              | EmptyString => s
              | String e r3 =>
                  if three c d e then trimRunes two three r3 else s
              end
        end
  end.

Fixpoint reverseOnto (s acc : string) : string :=
  match s with
  | EmptyString => acc
  | String c r => reverseOnto r (String c acc)
  end.

Definition reverse (s : string) : string := reverseOnto s EmptyString.

(** [bytes.TrimLeftFunc(s, unicode.IsSpace)]. *)
Definition trimLeft (s : string) : string := trimRunes isSpace2 isSpace3 s.

(** [bytes.TrimRightFunc(s, unicode.IsSpace)]: the runes are read from
    the end, which is from the start of the reversed text with the bytes
    of a rune in reverse order. *)
Definition trimRight (s : string) : string :=
  reverse (trimRunes (fun d c => isSpace2 c d) (fun e d c => isSpace3 c d e)
             (reverse s)).

Definition TrimSpace (s : string) : string := trimRight (trimLeft s).

(** ** The engine *)

Section Engine.

(** The state handlers and middleware read and write. *)
Context {World : Type}.
Context `{codec : Codec}.

(** A call that may change the world, and returns or panics. *)
Definition M (A : Type) : Type := World -> World * exec A.

(** [Next] continues the execution of a request; [Middleware] wraps an
    RPC method to add behaviour. *)
Definition Next : Type := context -> iface -> M (iface * error).
Definition Middleware : Type := Next -> Next.

(** A [*Group], as the object graph [resolveMethod] walks: the group's own
    middleware and its parent. *)
Inductive Group : Type :=
  mkGroup { parent : option Group; middleware : list Middleware }.

(** Induction on groups, through the parent. *)
Fixpoint Group_ind' (P : Group -> Prop)
  (Hroot : forall mws, P (mkGroup None mws))
  (Hchild : forall p mws, P p -> P (mkGroup (Some p) mws))
  (g : Group) : P g :=
  match g with
  | mkGroup None mws => Hroot mws
  | mkGroup (Some p) mws => Hchild p mws (Group_ind' P Hroot Hchild p)
  end.

(** A [MethodFunc] is any value ([interface{}]): a value that is not a
    function (of type [t]); a function with its input and output types;
    a variadic function, with the types of its inputs before the variadic
    one, the element type of the variadic one and its output types; a nil
    function value, with the input and output types of its type; or the
    nil interface.  [impl] takes the context and the arguments after it;
    those of a variadic function are the elements of its final slice. *)
Inductive MethodFunc : Type :=
| NotFunc (t : rtype)
| Func (In Out : list rtype) (impl : context -> list value -> M (iface * error))
| VariadicFunc (fixed : list rtype) (elem : rtype) (Out : list rtype)
    (impl : context -> list value -> M (iface * error))
| NilFunc (In Out : list rtype)
| NilValue.

(** [t.In(i)] and [t.Out(i)] of the type of a function: the final input
    of a variadic function is the slice of its element type. *)
Definition inputs (f : MethodFunc) : list rtype :=
  match f with
  | NotFunc _ | NilValue => []
  | Func In _ _ | NilFunc In _ => In
  | VariadicFunc fixed elem _ _ => (fixed ++ [reflect.SliceOf elem])%list
  end.

Definition outputs (f : MethodFunc) : list rtype :=
  match f with
  | NotFunc _ | NilValue => []
  | Func _ Out _ | VariadicFunc _ _ Out _ | NilFunc _ Out => Out
  end.

Record method : Type := mkMethod {
  methodName : string;
  fn : MethodFunc;
  paramsType : option rtype;
  call : Next
}.

Record Handler : Type := mkHandler {
  DumpErrors : bool;
  methods : gmap string method;
  root : Group
}.

(** [New] returns a new initialized handler. *)
Definition New : Handler := mkHandler false ∅ (mkGroup None []).

(** [g.Group()]: a new subgroup of [g]. *)
Definition Group_ (g : Group) : Group := mkGroup (Some g) [].

(** [g.Use(middleware...)], for a group of handler [h]. *)
Definition Use (h : Handler) (g : Group) (mws : list Middleware) : exec Group :=
  if negb (Nat.eqb (size (methods h)) 0) then
    Panicked (PanicOther "jsonrpc: middleware must be registered before methods")
  else Done (mkGroup (parent g) (middleware g ++ mws)%list).

(** The arguments of a call that are not zero Values, if all are. *)
Fixpoint nonZero (args : list iface) : option (list value) :=
  match args with
  | [] => Some []
  | None :: _ => None
  | Some v :: rest => option_map (cons v) (nonZero rest)
  end.

(** The first argument that is not assignable to the input it is given
    for, as the text of the panic. *)
Fixpoint mismatch (vs : list value) (In : list rtype) : option string :=
  match vs, In with
  | v :: vs, t :: In =>
      if assignableTo (typeOf v) t then mismatch vs In
      else Some ("reflect: Call using " ++ reflect.Name (typeOf v)
                   ++ " as type " ++ reflect.Name t)
  | _, _ => None
  end.

(** The same for the arguments that go into the variadic slice. *)
Fixpoint mismatchElem (vs : list value) (elem : rtype) : option string :=
  match vs with
  | [] => None
  | v :: vs =>
      if assignableTo (typeOf v) elem then mismatchElem vs elem
      else Some ("reflect: cannot use " ++ reflect.Name (typeOf v)
                   ++ " as type " ++ reflect.Name elem ++ " in Call")
  end.

(** [fn.Call(args)] for a function whose first input takes the context,
    [args] being the arguments after the context: a nil function is
    refused first; then the number of arguments, then zero Values, then
    the types are checked.  A variadic function takes any number of
    arguments after its fixed ones, and [Call] makes the slice of them
    itself, each one checked against the element type. *)
Definition Call (f : MethodFunc) (ctx : context) (args : list iface)
  : M (iface * error) :=
  fun w =>
    match f with
    | NotFunc _ =>
        (w, Panicked (PanicOther "reflect: call of reflect.Value.Call on non-func Value"))
    | NilValue =>
        (w, Panicked (PanicError
                        (ErrOther "reflect: call of reflect.Value.Call on zero Value"
                           "reflect: call of reflect.Value.Call on zero Value")))
    | NilFunc _ _ =>
        (w, Panicked (PanicOther "reflect.Value.Call: call of nil function"))
    | Func In Out impl =>
        if Nat.ltb (S (length args)) (length In) then
          (w, Panicked (PanicOther "reflect: Call with too few input arguments"))
        else if Nat.ltb (length In) (S (length args)) then
          (w, Panicked (PanicOther "reflect: Call with too many input arguments"))
        else
          match nonZero args with
          | None => (w, Panicked (PanicOther "reflect: Call using zero Value argument"))
          | Some vs =>
              match mismatch vs (drop 1 In) with
              | Some text => (w, Panicked (PanicOther text))
              | None => impl ctx vs w
              end
          end
    | VariadicFunc fixed elem Out impl =>
        if Nat.ltb (S (length args)) (length fixed) then
          (w, Panicked (PanicOther "reflect: Call with too few input arguments"))
        else
          match nonZero args with
          | None => (w, Panicked (PanicOther "reflect: Call using zero Value argument"))
          | Some vs =>
              let n := Nat.pred (length fixed) in
              match mismatch (take n vs) (drop 1 fixed) with
              | Some text => (w, Panicked (PanicOther text))
              | None =>
                  match mismatchElem (drop n vs) elem with
                  | Some text => (w, Panicked (PanicOther text))
                  | None => impl ctx vs w
                  end
              end
          end
    end.

(** The signature test of [resolveMethod]. *)
Definition validSignature (In Out : list rtype) : bool :=
  (Nat.eqb (length In) 1 || Nat.eqb (length In) 2)
  && match In !! 0%nat with
     | Some t => reflect.Type_eqb t typeContextContext | None => false end
  && Nat.eqb (length Out) 2
  && match Out !! 0%nat with
     | Some t => reflect.Type_eqb t typeEmptyInterface | None => false end
  && match Out !! 1%nat with
     | Some t => reflect.Type_eqb t typeError | None => false end.

(** The closure first stored in [m.call]. *)
Definition rawCall (f : MethodFunc) (pt : option rtype) : Next :=
  fun ctx params =>
    let args := match pt with Some _ => [params] | None => [] end in
    Call f ctx args.

(** [for i := len(g.middleware) - 1; i >= 0; i-- { m.call = g.middleware[i](m.call) }] *)
Definition applyOwn (mws : list Middleware) (c : Next) : Next :=
  fold_left (fun c mw => mw c) (rev mws) c.

(** The outer loop of [resolveMethod]: the group, then its ancestors. *)
Fixpoint applyMiddleware (g : Group) (c : Next) : Next :=
  match g with
  | mkGroup par mws =>
      let c := applyOwn mws c in
      match par with
      | None => c
      | Some p => applyMiddleware p c
      end
  end.

Definition resolveMethod (g : Group) (name : string) (f : MethodFunc)
  : exec method :=
  match f with
  | NotFunc t => Panicked (PanicOther (reflect.Name t ++ " is not a function"))
  | NilValue =>
      (* [val.Type()] panics with a [*reflect.ValueError]. *)
      Panicked (PanicError
                  (ErrOther "reflect: call of reflect.Value.Type on zero Value"
                     "reflect: call of reflect.Value.Type on zero Value"))
  | _ =>
      let In := inputs f in
      let Out := outputs f in
      if validSignature In Out then
        let pt := if Nat.eqb (length In) 2 then In !! 1%nat else None in
        Done (mkMethod name f pt (applyMiddleware g (rawCall f pt)))
      else
        Panicked (PanicOther ("invalid signature: "
          ++ "want func(ctx context.Context, params T) (interface{}, error) or "
          ++ "func(ctx context.Context) (interface{}, error)"))
  end.

(** [g.Register(methods)], for a group of handler [h]; the methods are
    taken in the order the map is ranged over. *)
Fixpoint Register (h : Handler) (g : Group) (ms : list (string * MethodFunc))
  : exec Handler :=
  match ms with
  | [] => Done h
  | (name, m) :: rest =>
      match methods h !! name with
      | Some _ =>
          Panicked (PanicOther ("jsonrpc: method already registered: " ++ name))
      | None =>
          match resolveMethod g name m with
          | Panicked v => Panicked v
          | Done resolved =>
              Register (mkHandler (DumpErrors h) (<[name := resolved]> (methods h))
                          (root h)) g rest
          end
      end
  end.

(** The loop of [newParams]: while [t] is a pointer type, store its zero
    value in the new variable and go to the element type. *)
Fixpoint newParamsLoop (result : value) (t : rtype) : exec value :=
  match t with
  | reflect.mkType reflect.Ptr _ _ (Some e) =>
      match SetElem result (Zero t) with
      | Done result => newParamsLoop result e
      | Panicked v => Panicked v
      end
  | _ => Done result
  end.

(** [newParams] allocates a new instance of the params expected by this
    RPC method, and returns the pointer to it. *)
Definition newParams (m : method) : exec value :=
  match paramsType m with
  | None => Panicked (PanicOther "reflect: New(nil)")
  | Some t => newParamsLoop (reflect_New t) t
  end.

(** The [case float64, string] of the type switch on [req.ID]. *)
Definition isNumberOrString (id : jsonValue) : bool :=
  match id with
  | OfFloat64 _ | OfString _ => true
  | _ => false
  end.

(** The end of [invokeMethod], after [method.call] has returned. *)
Definition afterCall (r : iface * error) : iface * error :=
  match r with
  | (result, Some err) => (None, Some (asError (translateError (Some err))))
  | (result, None) => (result, None)
  end.

(** The body of [invokeMethod], before its deferred function runs. *)
Definition invokeMethodBody (h : Handler) (ctx : context) (req : request.t)
  : M (iface * error) :=
  fun w =>
    (* Inject method into context. *)
    let ctx := WithMethod ctx (request.Method req) in
    (* Validate ID. *)
    if negb (isNumberOrString (request.ID req)) then
      (w, Done (None, Some (ErrRPC (InvalidRequest "id must be number or string"))))
    else
      (* Find method. *)
      match methods h !! request.Method req with
      | None => (w, Done (None, Some (ErrRPC (MethodNotFound (request.Method req)))))
      | Some method =>
          (* Instantiate params, if needed: the params, or the error the
             function returns with. *)
          let params : exec (RPCError + iface) :=
            match paramsType method with
            | None => Done (inr None)
            | Some _ =>
                match newParams method with
                | Panicked v => Panicked v
                | Done params =>
                    match Unmarshal (request.Params req) params with
                    | inl err => Done (inl (ParseError err "cannot parse params"))
                    | inr params =>
                        (* Dereference the pointer from above. *)
                        match ElemInterface params with
                        | Panicked v => Panicked v
                        | Done params => Done (inr params)
                        end
                    end
                end
            end in
          match params with
          | Panicked v => (w, Panicked v)
          | Done (inl err) => (w, Done (None, Some (ErrRPC err)))
          | Done (inr params) =>
              match call method ctx params w with
              | (w', Done r) => (w', Done (afterCall r))
              | (w', Panicked v) => (w', Panicked v)
              end
          end
      end.

(** The deferred function of [invokeMethod]: a recovered value that is
    not nil becomes an internal error; when [recover] returns nil the
    named results keep the values they have, which at every point the
    body can panic are still nil. *)
Definition recovered (r : panicValue) : iface * error :=
  match r with
  | PanicNil => (None, None)
  | PanicError rErr => (None, Some (ErrRPC (InternalError (Some rErr))))
  | PanicOther text => (None, Some (ErrRPC (InternalError (Some (ErrOther text text)))))
  end.

Definition invokeMethod (h : Handler) (ctx : context) (req : request.t)
  (w : World) : World * (iface * error) :=
  match invokeMethodBody h ctx req w with
  | (w', Done r) => (w', r)
  | (w', Panicked v) => (w', recovered v)
  end.

(** The loop asserting that ids are unique; [uniq] holds the keys of the
    map.  Reading [req.ID] through a nil pointer and hashing a key without
    a hash panic. *)
Fixpoint assertUnique (uniq : list jsonValue) (result : list (option request.t))
  : exec (option RPCError) :=
  match result with
  | [] => Done None
  | None :: _ => Panicked nilDereference
  | Some req :: rest =>
      let id := request.ID req in
      if negb (hashable id) then Panicked (unhashableKey id)
      else if existsb (ifaceEq id) uniq then
        Done (Some (InvalidRequest "ids must be unique"))
      else assertUnique (id :: uniq) rest
  end.

(** [len(body) > 0 && body[0] == '{'] *)
Definition startsObject (body : string) : bool :=
  match body with
  | String c _ => Ascii.eqb c "{"
  | EmptyString => false
  end.

(** [parseRequests]: the requests of the body, or the error. *)
Definition parseRequests (r : http.Request) : exec (goerror + list request.t) :=
  match http.BodyErr r with
  | Some err => Done (inl (ErrRPC (Wrap (InvalidRequest "could not read body") (Some err))))
  | None =>
      let body := TrimSpace (http.Body r) in
      let parsed :=
        if startsObject body then
          match decodeRequest body with
          | inl err => inl (ErrRPC (ParseError err "cannot parse request"))
          | inr req => inr [Some req]
          end
        else
          match decodeRequests body with
          | inl err => inl (ErrRPC (ParseError err "cannot parse request"))
          | inr result => inr result
          end in
      match parsed with
      | inl err => Done (inl err)
      | inr result =>
          if Nat.eqb (length result) 0 then
            Done (inl (ErrRPC (InvalidRequest "empty batch")))
          else
            match assertUnique [] result with
            | Panicked v => Panicked v
            | Done (Some err) => Done (inl (ErrRPC err))
            | Done None => Done (inr (omap id result))
            end
      end
  end.

(** One turn of the loop of [ServeHTTP]. *)
Definition respond (h : Handler) (ctx : context) (req : request.t) (w : World)
  : World * response.t :=
  let '(w', (result, err)) := invokeMethod h ctx req w in
  (w', response.mk result (translateError err) (request.ID req)).

Fixpoint respondAll (h : Handler) (ctx : context) (requests : list request.t)
  (w : World) : World * list response.t :=
  match requests with
  | [] => (w, [])
  | req :: rest =>
      let '(w1, resp) := respond h ctx req w in
      let '(w2, resps) := respondAll h ctx rest w1 in
      (w2, resp :: resps)
  end.

(** [r.Error.dumpErrors = true] when [r.Error != nil].  The store goes
    through the pointer; within one exchange, which is what [ServeHTTP]
    describes, the responses are all that observes it. *)
Definition setDumpErrors (r : response.t) : response.t :=
  match response.Error r with
  | Some e =>
      response.mk (response.Result r)
        (Some (mkRPCError (Name e) (Message e) (data e) true (wrapped e)))
        (response.ID r)
  | None => r
  end.

(** [ServeHTTP] implements the [http.Handler] interface. *)
Definition ServeHTTP (h : Handler) (r : http.Request) (w : World)
  : World * exec HTTPResponse :=
  let ctx := WithRequest Background r in
  match parseRequests r with
  | Panicked v => (w, Panicked v)
  | Done (inl err) =>
      (w, sendJSON 400 (Object (response.mk None (translateError (Some err)) Nil)))
  | Done (inr requests) =>
      let '(w', responses) := respondAll h ctx requests w in
      let responses :=
        if DumpErrors h then map setDumpErrors responses else responses in
      if Nat.eqb (length requests) 1 then
        match responses with
        | first :: _ => (w', sendJSON 200 (Object first))
        | [] => (w', Panicked (runtimeError "index out of range [0] with length 0"))
        end
      else (w', sendJSON 200 (Array responses))
  end.

End Engine.

(** ** The reporter's table, as the specification words it

    The classes of shapes of the mapping, on kinds. *)
Definition isBooleanKind (k : reflect.Kind) : bool :=
  match k with reflect.Bool => true | _ => false end.
Definition isIntegerKind (k : reflect.Kind) : bool :=
  match k with
  | reflect.Int | reflect.Int8 | reflect.Int16 | reflect.Int32 | reflect.Int64
  | reflect.Uint | reflect.Uint8 | reflect.Uint16 | reflect.Uint32
  | reflect.Uint64 => true
  | _ => false
  end.
Definition isNumberKind (k : reflect.Kind) : bool :=
  match k with
  | reflect.Float32 | reflect.Float64 | reflect.Complex64
  | reflect.Complex128 => true
  | _ => false
  end.
Definition isStringKind (k : reflect.Kind) : bool :=
  match k with reflect.String => true | _ => false end.
Definition isObjectKind (k : reflect.Kind) : bool :=
  match k with reflect.Struct | reflect.Map => true | _ => false end.
Definition isArrayKind (k : reflect.Kind) : bool :=
  match k with reflect.Array | reflect.Slice => true | _ => false end.

(** A predeclared primitive: a boolean, integer, floating-point, complex
    or string type that is not a defined (named) type of some package. *)
Definition isPrimitive (t : rtype) : bool :=
  String.eqb (reflect.PkgPath t) ""
  && (isBooleanKind (reflect.Kind_ t) || isIntegerKind (reflect.Kind_ t)
      || isNumberKind (reflect.Kind_ t) || isStringKind (reflect.Kind_ t)).

(** [reportedName t s]: the table gives the name [s] (empty: no type
    clause) to the shape [t], indirections already stripped. *)
Inductive reportedName (t : rtype) : string -> Prop :=
| reported_boolean :
    reflect.PkgPath t = "" -> isBooleanKind (reflect.Kind_ t) = true ->
    reportedName t "boolean"
| reported_integer :
    reflect.PkgPath t = "" -> isIntegerKind (reflect.Kind_ t) = true ->
    reportedName t "integer"
| reported_number :
    reflect.PkgPath t = "" -> isNumberKind (reflect.Kind_ t) = true ->
    reportedName t "number"
| reported_string :
    reflect.PkgPath t = "" -> isStringKind (reflect.Kind_ t) = true ->
    reportedName t "string"
| reported_time :
    t = typeTimeTime -> reportedName t "time"
| reported_duration :
    t = typeTimeDuration -> reportedName t "duration"
| reported_object :
    t <> typeTimeTime -> isObjectKind (reflect.Kind_ t) = true ->
    reportedName t "object"
| reported_array :
    isArrayKind (reflect.Kind_ t) = true -> reportedName t "array"
| reported_nothing :
    isPrimitive t = false -> t <> typeTimeTime -> t <> typeTimeDuration ->
    isObjectKind (reflect.Kind_ t) = false ->
    isArrayKind (reflect.Kind_ t) = false ->
    reportedName t "".

(** The defined types of the package's test: [type Enum int], and a
    defined type over a fixed-width integer. *)
Definition typeEnum : rtype := reflect.defined "jsonrpc" "Enum" tInt.
Definition typeCount : rtype := reflect.defined "main" "Count" tInt64.
Definition typePerson : rtype :=
  reflect.defined "jsonrpc" "Person" (reflect.StructOf "").

(** ** Vocabulary of the properties *)

Section Vocabulary.
Context {World : Type}.
Context `{codec : Codec}.

(** A call of a pipeline [c] from [invokeMethod]: what the function
    returns once the call has returned or its panic has been recovered. *)
Definition callRecovered (c : @Next World) (ctx : context) (p : iface)
  (w : World) : World * (iface * error) :=
  match c ctx p w with
  | (w', Done r) => (w', afterCall r)
  | (w', Panicked v) => (w', recovered v)
  end.

(** [dispatched h req m p]: the request passes the checks of
    [invokeMethod] and the pipeline of [m] is called with [p]. *)
Inductive dispatched (h : @Handler World) (req : request.t)
  : @method World -> iface -> Prop :=
| dispatched_context_only m :
    isNumberOrString (request.ID req) = true ->
    methods h !! request.Method req = Some m ->
    paramsType m = None ->
    dispatched h req m None
| dispatched_params m t ptr ptr' p :
    isNumberOrString (request.ID req) = true ->
    methods h !! request.Method req = Some m ->
    paramsType m = Some t ->
    newParams m = Done ptr ->
    Unmarshal (request.Params req) ptr = inr ptr' ->
    ElemInterface ptr' = Done p ->
    dispatched h req m p.

(** The layers around a method of group [g], outermost first: those of
    the root, then of each group down to [g], each group's in the order
    they were added. *)
Fixpoint effectiveChain (g : @Group World) : list (@Middleware World) :=
  match g with
  | mkGroup par mws =>
      match par with
      | None => mws
      | Some p => (effectiveChain p ++ mws)%list
      end
  end.

(** [wrap [l1; ...; ln] c] is [l1 (... (ln c))]. *)
Definition wrap (layers : list (@Middleware World)) (c : Next) : Next :=
  fold_right (fun mw next => mw next) c layers.

(** The error a recovered panic value is wrapped as. *)
Definition panicCause (v : panicValue) : error :=
  match v with
  | PanicNil => None
  | PanicError rErr => Some rErr
  | PanicOther text => Some (ErrOther text text)
  end.

End Vocabulary.

Section EnvelopeVocabulary.
Context {World : Type}.
Context `{codec : Codec}.

(** The responses as [ServeHTTP] leaves them after its loop on
    [DumpErrors]. *)
Definition dumped (h : @Handler World) (r : response.t) : response.t :=
  if DumpErrors h then setDumpErrors r else r.


(** The encoder accepts a response: its result, and the data of its
    error, when it has them. *)
Definition accepted (r : response.t) : Prop :=
  (forall v, response.Result r = Some v -> marshalError v = None)
  /\ (forall e d, response.Error r = Some e -> data e = Some d ->
        marshalError d = None).

(** The internal error that wraps a cause, field by field. *)
Definition internalError (cause : goerror) : RPCError :=
  mkRPCError "internal_error" "internal error" None false (Some cause).

(** The response to a record of id [id] whose pipeline was called, by
    what the call did: it returned a result and no error; it returned an
    error that holds an [*RPCError], nil or not; it returned another
    error; it panicked with nil, with an error, with another value
    (rendered by [%v]). *)
Definition responseTo (id : jsonValue) (o : exec (iface * error)) : response.t :=
  match o with
  | Done (result, None) => response.mk result None id
  | Done (_, Some (ErrRPC e)) => response.mk None (Some e) id
  | Done (_, Some ErrNilRPC) => response.mk None None id
  | Done (_, Some err) => response.mk None (Some (internalError err)) id
  | Panicked PanicNil => response.mk None None id
  | Panicked (PanicError cause) => response.mk None (Some (internalError cause)) id
  | Panicked (PanicOther text) =>
      response.mk None (Some (internalError (ErrOther text text))) id
  end.

(** A field of the encoded response is populated when it is written. *)
Definition resultPopulated (r : response.t) : Prop :=
  is_Some (jResult (encodeResponse r)).
Definition errorPopulated (r : response.t) : Prop :=
  is_Some (jError (encodeResponse r)).

End EnvelopeVocabulary.

(** ** A server to run the engine on

    The methods of the package's tests, over a world that is the log of
    what handlers and middleware have done. *)

Module Examples.

Definition Log : Type := list string.

(** The float64 values 1 and 2. *)
Definition one : float64 := S754_finite false 4503599627370496 (-52).
Definition two : float64 := S754_finite false 4503599627370496 (-51).

(** A JSON string literal. *)
Definition q (s : string) : string :=
  String dquote (s ++ String dquote EmptyString).

(** [{"id": <id>, "method": "<method>"}] with optional params. *)
Definition object (id method : string) : string :=
  "{" ++ q "id" ++ ": " ++ id ++ ", " ++ q "method" ++ ": " ++ q method ++ "}".
Definition objectWith (id method params : string) : string :=
  "{" ++ q "id" ++ ": " ++ id ++ ", " ++ q "method" ++ ": " ++ q method
    ++ ", " ++ q "params" ++ ": " ++ params ++ "}".

Definition bodyNow : string := object "1" "Now".
Definition bodyNoop : string := object "1" "Noop".
Definition bodyPanicNil : string := object "1" "PanicNil".
Definition bodyPanic : string := object "1" "Panic".
Definition bodyBoolID : string := object "true" "Now".
Definition bodyMissingID : string := "{" ++ q "method" ++ ": " ++ q "Now" ++ "}".
Definition bodyNowParams : string := objectWith "1" "Now" "[1, 2, 3]".
Definition bodyGetUser2 : string :=
  objectWith "1" "GetUser2" ("{" ++ q "name" ++ ": " ++ q "Alice" ++ "}").
Definition bodyUpperNumber : string := objectWith "1" "Upper" "1".
Definition bodyInvalid : string := object "1" "Invalid".
Definition bodyDo : string := object "1" "Do".
Definition bodyEcho : string := objectWith "1" "Echo" (q "hello").
Definition bodyEchoNull : string := objectWith "1" "Echo" "null".
Definition bodyTruncated : string := "{" ++ q "id" ++ ": 1".
Definition bodyBatch : string :=
  "[" ++ objectWith (q "a") "Upper" (q "string1") ++ ", "
      ++ objectWith (q "b") "Upper" (q "string2") ++ "]".
Definition bodyArrayIDs : string :=
  "[" ++ object "[1]" "Now" ++ ", " ++ object "[1]" "Now" ++ "]".
Definition bodyDupe : string :=
  "[" ++ object "1" "Now" ++ ", " ++ object "1" "Now" ++ "]".
Definition bodyStream : string := object "1" "Stream".
Definition bodyTypedNil : string := object "1" "TypedNil".
Definition bodyCollect : string := objectWith "1" "Collect" "[1, 2]".
Definition bodySum : string := objectWith "1" "Sum" "[1, 2]".

Definition post (body : string) : http.Request := http.mkRequest body None.

(** The types of the parameters. *)
Definition typeGetUserParams : rtype :=
  reflect.defined "jsonrpc_test" "getUserParams" (reflect.StructOf " Name string ").

(** What the decoder answers on the bodies above; any other text is
    reported as cut short. *)
Definition syntaxError (body : string) : goerror :=
  ErrSyntax "unexpected end of JSON input" (Z.of_nat (String.length body)).

Definition requestTable : list (string * request.t) :=
  [ (bodyNow, request.mk "Now" "" (OfFloat64 one));
    (bodyNoop, request.mk "Noop" "" (OfFloat64 one));
    (bodyPanicNil, request.mk "PanicNil" "" (OfFloat64 one));
    (bodyPanic, request.mk "Panic" "" (OfFloat64 one));
    (bodyBoolID, request.mk "Now" "" (OfBool true));
    (bodyMissingID, request.mk "Now" "" Nil);
    (bodyNowParams, request.mk "Now" "[1, 2, 3]" (OfFloat64 one));
    (bodyUpperNumber, request.mk "Upper" "1" (OfFloat64 one));
    (bodyInvalid, request.mk "Invalid" "" (OfFloat64 one));
    (bodyDo, request.mk "Do" "" (OfFloat64 one));
    (bodyEcho, request.mk "Echo" (q "hello") (OfFloat64 one));
    (bodyEchoNull, request.mk "Echo" "null" (OfFloat64 one));
    (bodyStream, request.mk "Stream" "" (OfFloat64 one));
    (bodyTypedNil, request.mk "TypedNil" "" (OfFloat64 one));
    (bodyCollect, request.mk "Collect" "[1, 2]" (OfFloat64 one));
    (bodySum, request.mk "Sum" "[1, 2]" (OfFloat64 one));
    (bodyGetUser2,
     request.mk "GetUser2" ("{" ++ q "name" ++ ": " ++ q "Alice" ++ "}") (OfFloat64 one)) ].

Definition batchTable : list (string * list (option request.t)) :=
  [ (bodyBatch,
     [ Some (request.mk "Upper" (q "string1") (OfString "a"));
       Some (request.mk "Upper" (q "string2") (OfString "b")) ]);
    (bodyArrayIDs,
     [ Some (request.mk "Now" "" (OfSlice [OfFloat64 one]));
       Some (request.mk "Now" "" (OfSlice [OfFloat64 one])) ]);
    (bodyDupe,
     [ Some (request.mk "Now" "" (OfFloat64 one));
       Some (request.mk "Now" "" (OfFloat64 one)) ]);
    ("[]", []) ].

Fixpoint lookupBody {A} (table : list (string * A)) (body : string) : option A :=
  match table with
  | [] => None
  | (b, a) :: rest => if String.eqb b body then Some a else lookupBody rest body
  end.

(** Decoding into a variable: [null] stores the zero value; any other
    text stores a value of the variable's type named by the text, behind a
    new pointer when the variable is a pointer, inside the interface when
    it is an interface. *)
Definition decodeValue (data : string) (v : value) : goerror + value :=
  let t := typeOf v in
  if String.eqb data "" then inl (syntaxError data)
  else if String.eqb data "null" then inr (Zero t)
  else if reflect.Kind_eqb (reflect.Kind_ t) reflect.String
          && negb (String.prefix (String dquote EmptyString) data) then
    inl (ErrUnmarshalType "number" t 1 ""
           ("json: cannot unmarshal number into Go value of type "
              ++ reflect.Name t))
  else
    match t with
    | reflect.mkType reflect.Ptr _ _ (Some e) => inr (Pointer t (Lit e data))
    | reflect.mkType reflect.Interface _ _ _ => inr (Boxed t (Lit tString data))
    | _ => inr (Lit t data)
    end.

(** What the encoder refuses: channels, functions and complex numbers,
    whatever their value, also behind a pointer and in an interface. *)
Definition unsupportedKind (k : reflect.Kind) : bool :=
  match k with
  | reflect.Chan | reflect.Func | reflect.Complex64 | reflect.Complex128
  | reflect.UnsafePointer => true
  | _ => false
  end.

Fixpoint marshalValue (v : value) : option string :=
  match v with
  | Pointer _ target => marshalValue target
  | Boxed _ dyn => marshalValue dyn
  | Zero t | Lit t _ =>
      if unsupportedKind (reflect.Kind_ t)
      then Some ("json: unsupported type: " ++ reflect.Name t)
      else None
  end.

#[export] Instance codec : Codec := {|
  decodeRequest body :=
    match lookupBody requestTable body with
    | Some req => inr req
    | None => inl (syntaxError body)
    end;
  decodeRequests body :=
    match lookupBody batchTable body with
    | Some reqs => inr reqs
    | None => inl (syntaxError body)
    end;
  decodeInto := decodeValue;
  marshalError := marshalValue
|}.

(** The handlers. *)
Definition handlerType (params : list rtype) : list rtype * list rtype :=
  ((typeContextContext :: params)%list, [typeEmptyInterface; typeError]).

Definition func (params : list rtype)
  (impl : context -> list value -> @M Log (iface * error)) : @MethodFunc Log :=
  Func (typeContextContext :: params)%list [typeEmptyInterface; typeError] impl.

Definition now : @MethodFunc Log :=
  func [] (fun ctx args w =>
    (w, Done (Some (Lit typeTimeTime "2000-01-01T01:00:00Z"), None))).

Definition noop : @MethodFunc Log :=
  func [] (fun ctx args w => (w, Done (None, None))).

Definition panicNil : @MethodFunc Log :=
  func [] (fun ctx args w => (w, Panicked PanicNil)).

Definition panicText : @MethodFunc Log :=
  func [] (fun ctx args w => (w, Panicked (PanicOther "panic error"))).

Definition returnError : @MethodFunc Log :=
  func [] (fun ctx args w =>
    (w, Done (None, Some (ErrRPC (NotFound "customer not found"))))).

Definition failing : @MethodFunc Log :=
  func [] (fun ctx args w =>
    (w, Done (None, Some (ErrOther "an internal error occurred"
                            "an internal error occurred")))).

(** [Echo] returns its parameter, and logs that it was called. *)
Definition echo : @MethodFunc Log :=
  func [typeEmptyInterface] (fun ctx args w =>
    (app w ["Echo called"],
     Done (match args with
           | [val] => Some val
           | _ => None
           end, None))).

Definition upper : @MethodFunc Log :=
  func [tString] (fun ctx args w =>
    (w, Done (match args with
              | [Lit _ s] => Some (Lit tString ("upper " ++ s))
              | _ => None
              end, None))).

Definition getUser2 : @MethodFunc Log :=
  func [reflect.PtrTo typeGetUserParams] (fun ctx args w =>
    match args with
    | [Pointer _ (Lit _ s)] => (w, Done (Some (Lit tString s), None))
    | _ => (w, Panicked nilDereference)
    end).

(** A middleware that logs the call before, and the return after, the
    rest of the pipeline. *)
Definition tracer (name : string) : @Middleware Log :=
  fun next ctx params w =>
    let '(w', r) := next ctx params (app w [name ++ ":call"]) in
    (app w' [name ++ ":return"], r).

Definition logged (name : string) : @MethodFunc Log :=
  func [] (fun ctx args w => ((w ++ [name])%list, Done (None, None))).

(** The server of the tests. *)
Definition methodsOfTests : list (string * @MethodFunc Log) :=
  [ ("Now", now); ("Noop", noop); ("PanicNil", panicNil); ("Panic", panicText);
    ("ReturnError", returnError); ("Do", failing); ("Upper", upper);
    ("GetUser2", getUser2); ("Echo", echo) ].

Definition serverWith (dump : bool) : @Handler Log :=
  match Register (mkHandler dump ∅ (mkGroup None [])) (mkGroup None [])
          methodsOfTests with
  | Done h => h
  | Panicked _ => mkHandler dump ∅ (mkGroup None [])
  end.

Definition server : @Handler Log := serverWith false.

(** A root group with layers A then B, a subgroup of it with C then D. *)
Definition rootAB : @Group Log := mkGroup None [tracer "A"; tracer "B"].
Definition childCD : @Group Log := mkGroup (Some rootAB) [tracer "C"; tracer "D"].

End Examples.

Module Runs.
Import Examples.

(** The requests the decoder reads in the example bodies. *)
Definition reqUpperA : request.t :=
  request.mk "Upper" (q "string1") (OfString "a").
Definition reqUpperB : request.t :=
  request.mk "Upper" (q "string2") (OfString "b").
Definition reqNow : request.t := request.mk "Now" "" (OfFloat64 one).
Definition reqNowParams : request.t := request.mk "Now" "[1, 2, 3]" (OfFloat64 one).
Definition reqMissingID : request.t := request.mk "Now" "" Nil.
Definition reqGetUser2 : request.t :=
  request.mk "GetUser2" ("{" ++ q "name" ++ ": " ++ q "Alice" ++ "}") (OfFloat64 one).

(** The methods [Register] stores for two of the handlers, and the value
    the decoder stores for the params of [reqGetUser2]. *)
Definition mNow : @method Log :=
  mkMethod "Now" now None (applyMiddleware (mkGroup None []) (rawCall now None)).
Definition mGetUser2 : @method Log :=
  mkMethod "GetUser2" getUser2 (Some (reflect.PtrTo typeGetUserParams))
    (applyMiddleware (mkGroup None [])
       (rawCall getUser2 (Some (reflect.PtrTo typeGetUserParams)))).
Definition vAlice : value :=
  Pointer (reflect.PtrTo typeGetUserParams)
    (Lit typeGetUserParams (request.Params reqGetUser2)).

(** What the handler [now] returns. *)
Definition nowOutcome : exec (iface * error) :=
  Done (Some (Lit typeTimeTime "2000-01-01T01:00:00Z"), None).

(** The log of one call of the method [logged "handler"] registered on a
    group. *)
Definition traceOf (g : @Group Log) : Log :=
  match resolveMethod g "M" (logged "handler") with
  | Done m => fst (call m Background None [])
  | Panicked _ => []
  end.

(** The method registered under a name. *)
Definition registered (h : @Handler Log) (name : string) : exec (@method Log) :=
  match methods h !! name with
  | Some m => Done m
  | None => Panicked (PanicOther ("no method " ++ name))
  end.

End Runs.

(** ** The rest of the package

    *** The error constructors with arguments *)

(** An argument of the variadic constructors: an [ErrorOption], or any
    other value. *)
Inductive arg : Type :=
| ArgOption (opt : RPCError -> RPCError)
| ArgValue (v : iface).

(** The options [Wrap(wrapped)] and [Data(data)]. *)
Definition WrapOption (wrapped : error) : arg :=
  ArgOption (fun err => mkRPCError (Name err) (Message err) (data err)
                          (dumpErrors err) wrapped).
Definition DataOption (d : iface) : arg :=
  ArgOption (fun err => mkRPCError (Name err) (Message err) d
                          (dumpErrors err) (wrapped err)).

Section Constructors.

(** [fmt.Sprintf], the formatter the constructors call. *)
Variable Sprintf : string -> list arg -> string.

(** [Error(name, message, args...)]. *)
Definition ErrorArgs (name message : string) (args : list arg) : RPCError :=
  let message :=
    if Nat.ltb 0 (length args) then Sprintf message args else message in
  mkRPCError name message None false None.

(** The loop of [Error2], [n] turns from index [n - 1] down to 0: an
    option is applied and the arguments are cut at its index. *)
Fixpoint Error2Loop (n : nat) (args : list arg) (result : RPCError)
  : list arg * RPCError :=
  match n with
  | O => (args, result)
  | S i =>
      match args !! i with
      | Some (ArgOption opt) => Error2Loop i (take i args) (opt result)
      | _ => Error2Loop i args result
      end
  end.

(** [Error2(name, message, args...)]. *)
Definition Error2 (name message : string) (args : list arg) : RPCError :=
  let result := mkRPCError name message None false None in
  let '(args, result) := Error2Loop (length args) args result in
  if Nat.ltb 0 (length args) then
    mkRPCError (Name result) (Sprintf message args) (data result)
      (dumpErrors result) (wrapped result)
  else result.

End Constructors.

(** The options among the arguments, and the values before the first
    option. *)
Fixpoint optionsOf (args : list arg) : list (RPCError -> RPCError) :=
  match args with
  | [] => []
  | ArgOption opt :: rest => opt :: optionsOf rest
  | ArgValue _ :: rest => optionsOf rest
  end.

Fixpoint valuesBefore (args : list arg) : list arg :=
  match args with
  | ArgValue v :: rest => ArgValue v :: valuesBefore rest
  | _ => []
  end.

(** *** Strings *)

(** [strings.Join(pieces, sep)]. *)
Fixpoint join (sep : string) (pieces : list string) : string :=
  match pieces with
  | [] => EmptyString
  | [piece] => piece
  | piece :: rest => piece ++ sep ++ join sep rest
  end.

(** [strings.IndexByte(s, c) >= 0]. *)
Fixpoint hasByte (c : ascii) (s : string) : bool :=
  match s with
  | EmptyString => false
  | String x r => Ascii.eqb x c || hasByte c r
  end.

(** A text of ASCII white space only. *)
Fixpoint allSpace (s : string) : bool :=
  match s with
  | EmptyString => true
  | String c r => isSpace c && allSpace r
  end.

(** *** Groups as the objects they are

    A [*Group] is a pointer: a subgroup made before its parent is given
    middleware sees that middleware.  The groups of a handler are kept in
    a heap, a group being its address; address 0 is the root. *)

Section Heap.
Context {World : Type}.

Record groupObject : Type := mkGroupObject {
  objParent : option nat;
  objMiddleware : list (@Middleware World)
}.

Record Server : Type := mkServer {
  srvDumpErrors : bool;
  srvMethods : gmap string (@method World);
  srvGroups : list groupObject
}.

(** [New()]: no method, and the root group. *)
Definition NewServer : Server :=
  mkServer false ∅ [mkGroupObject None []].

(** [g.Group()]: the heap with the new group, and its address. *)
Definition GroupOn (s : Server) (g : nat) : Server * nat :=
  (mkServer (srvDumpErrors s) (srvMethods s)
     (srvGroups s ++ [mkGroupObject (Some g) []])%list,
   length (srvGroups s)).

(** [g.Use(middleware...)]. *)
Definition UseOn (s : Server) (g : nat) (mws : list Middleware) : exec Server :=
  if negb (Nat.eqb (size (srvMethods s)) 0) then
    Panicked (PanicOther "jsonrpc: middleware must be registered before methods")
  else
    Done (mkServer (srvDumpErrors s) (srvMethods s)
            (alter (fun o => mkGroupObject (objParent o)
                               (objMiddleware o ++ mws)%list)
               g (srvGroups s))).

(** The group at an address with its ancestors, as [resolveMethod] walks
    them; [fuel] bounds the walk. *)
Fixpoint groupAt (fuel : nat) (groups : list groupObject) (g : nat) : Group :=
  match fuel with
  | O => mkGroup None []
  | S fuel =>
      match groups !! g with
      | None => mkGroup None []
      | Some o =>
          mkGroup
            (match objParent o with
             | Some p => Some (groupAt fuel groups p)
             | None => None
             end)
            (objMiddleware o)
      end
  end.

Definition groupOf (s : Server) (g : nat) : Group :=
  groupAt (length (srvGroups s)) (srvGroups s) g.

(** The handler [ServeHTTP] runs on. *)
Definition handlerOf (s : Server) : Handler :=
  mkHandler (srvDumpErrors s) (srvMethods s) (groupOf s 0).

(** [g.Register(methods)]. *)
Definition RegisterOn (s : Server) (g : nat) (ms : list (string * MethodFunc))
  : exec Server :=
  match Register (handlerOf s) (groupOf s g) ms with
  | Done h => Done (mkServer (DumpErrors h) (methods h) (srvGroups s))
  | Panicked v => Panicked v
  end.

(** The heap is well formed when every parent was made before its
    children. *)
Definition wellFormed (groups : list groupObject) : Prop :=
  forall g o p, groups !! g = Some o -> objParent o = Some p -> (p < g)%nat.

End Heap.

(** *** Vocabulary *)

(** The ids of the records are pairwise different for [==]. *)
Definition distinctIDs (requests : list request.t) : Prop :=
  forall i j a b,
    (i < j)%nat -> requests !! i = Some a -> requests !! j = Some b ->
    ifaceEq (request.ID b) (request.ID a) = false.

(** The errors of the JSON decoder [jsonErrorDetails] describes. *)
Definition isDescribed (err : goerror) : bool :=
  match err with
  | ErrSyntax _ _ | ErrUnmarshalType _ _ _ _ _ => true
  | _ => false
  end.

(** The errors whose dynamic type is [*RPCError]: the pointer is nil or
    not. *)
Definition holdsRPCError (err : goerror) : bool :=
  match err with
  | ErrRPC _ | ErrNilRPC => true
  | _ => false
  end.

(** The error with a message replaced. *)
Definition withMessage (e : RPCError) (message : string) : RPCError :=
  mkRPCError (Name e) message (data e) (dumpErrors e) (wrapped e).

(** A line of details: no tab and no newline in it. *)
Definition cleanLine (line : string) : Prop :=
  hasByte tab line = false /\ hasByte newline line = false.

(** *** More runs of the example server *)

Module MoreRuns.
Import Examples Runs.

(** The methods [Register] stores for more of the handlers. *)
Definition registeredAs (name : string) (f : @MethodFunc Log) (pt : option rtype)
  : @method Log :=
  mkMethod name f pt (applyMiddleware (mkGroup None []) (rawCall f pt)).

Definition mReturnError : @method Log := registeredAs "ReturnError" returnError None.
Definition mDo : @method Log := registeredAs "Do" failing None.
Definition mPanic : @method Log := registeredAs "Panic" panicText None.
Definition mUpper : @method Log := registeredAs "Upper" upper (Some tString).

Definition reqReturnError : request.t := request.mk "ReturnError" "" (OfFloat64 one).
Definition reqDo : request.t := request.mk "Do" "" (OfFloat64 one).
Definition reqPanic : request.t := request.mk "Panic" "" (OfString "p").
Definition reqNowA : request.t := request.mk "Now" "" (OfString "a").
Definition reqNowB : request.t := request.mk "Now" "" (OfString "b").
Definition reqInvalid : request.t := request.mk "Invalid" "" (OfFloat64 one).
Definition reqUpperNumber : request.t := request.mk "Upper" "1" (OfFloat64 one).

(** A batch with a [null] after a record, and a decoder that reads it. *)
Definition bodyNullElement : string := "[" ++ object "1" "Now" ++ ", null]".

Definition codecWithNull : Codec := {|
  decodeRequest := @decodeRequest codec;
  decodeRequests body :=
    if String.eqb body bodyNullElement then inr [Some reqNow; None]
    else @decodeRequests codec body;
  decodeInto := decodeValue;
  marshalError := marshalValue
|}.

(** A handler whose parameter is a pointer to a pointer, and a server
    that holds it. *)
Definition typeDeep : rtype := reflect.PtrTo (reflect.PtrTo typeGetUserParams).

Definition getUser3 : @MethodFunc Log :=
  func [typeDeep] (fun ctx args w => (app w ["GetUser3 called"], Done (None, None))).

Definition mGetUser3 : @method Log := registeredAs "GetUser3" getUser3 (Some typeDeep).

Definition deepServer : @Handler Log :=
  mkHandler false {[ "GetUser3" := mGetUser3 ]} (mkGroup None []).

Definition reqGetUser3 : request.t := request.mk "GetUser3" "{}" (OfFloat64 one).

(** A handler that returns a channel, which the encoder refuses; one
    that returns a nil [*RPCError] as its error; and two variadic ones,
    over [interface{}] and over [int]. *)
Definition typeChanInt : rtype :=
  reflect.mkType reflect.Chan "" "chan int" (Some tInt).

Definition stream : @MethodFunc Log :=
  func [] (fun ctx args w =>
    (app w ["Stream called"], Done (Some (Lit typeChanInt "0xc000012345"), None))).

Definition typedNil : @MethodFunc Log :=
  func [] (fun ctx args w => (app w ["TypedNil called"], Done (None, Some ErrNilRPC))).

Definition variadic (elem : rtype) (name : string) : @MethodFunc Log :=
  VariadicFunc [typeContextContext] elem [typeEmptyInterface; typeError]
    (fun ctx args w =>
       (app w [name ++ " called"],
        Done (Some (Lit tInt (pretty (length args))), None))).

Definition collect : @MethodFunc Log := variadic typeEmptyInterface "Collect".
Definition sum : @MethodFunc Log := variadic tInt "Sum".

Definition mStream : @method Log := registeredAs "Stream" stream None.
Definition mTypedNil : @method Log := registeredAs "TypedNil" typedNil None.
Definition mCollect : @method Log :=
  registeredAs "Collect" collect (Some (reflect.SliceOf typeEmptyInterface)).
Definition mSum : @method Log := registeredAs "Sum" sum (Some (reflect.SliceOf tInt)).

Definition moreServer : @Handler Log :=
  mkHandler false
    {[ "Stream" := mStream; "TypedNil" := mTypedNil;
       "Collect" := mCollect; "Sum" := mSum ]}
    (mkGroup None []).

Definition reqTypedNil : request.t := request.mk "TypedNil" "" (OfFloat64 one).
Definition reqCollect : request.t := request.mk "Collect" "[1, 2]" (OfFloat64 one).
Definition reqSum : request.t := request.mk "Sum" "[1, 2]" (OfFloat64 one).

(** A formatter: the format followed by the texts of the values. *)
Definition showArg (a : arg) : string :=
  match a with
  | ArgValue (Some (Lit _ text)) => " " ++ text
  | _ => " ?"
  end.

Definition sprintf (format : string) (args : list arg) : string :=
  format ++ String.concat "" (map showArg args).

(** An error marked for dumping that wraps a cause of two lines, the
    second one indented by a tab. *)
Definition dumpedError : RPCError :=
  mkRPCError "internal_error" "internal error" None true
    (Some (ErrOther "boom"
             ("boom" ++ String newline (String tab "main.go:10")))).

(** A heap: the root with layer A; then a subgroup is made, then the
    root is given layer B. *)
Definition heapRoot : @Server Log :=
  mkServer false ∅ [mkGroupObject None [tracer "A"]].
Definition heapChild : @Server Log :=
  mkServer false ∅ [mkGroupObject None [tracer "A"]; mkGroupObject (Some 0%nat) []].
Definition heapUsed : @Server Log :=
  mkServer false ∅
    [mkGroupObject None [tracer "A"; tracer "B"]; mkGroupObject (Some 0%nat) []].

(** The heap after a method was registered on the root. *)
Definition heapRegistered : @Server Log :=
  match RegisterOn heapRoot 0 [("Now", now)] with
  | Done s => s
  | Panicked _ => heapRoot
  end.

(** The handler before any method is registered. *)
Definition emptyHandler : @Handler Log := mkHandler false ∅ (mkGroup None []).

End MoreRuns.

(** * Properties *)

(** ** Type descriptors *)

Lemma Kind_eqb_eq (a b : reflect.Kind) : reflect.Kind_eqb a b = true <-> a = b.
Proof.
  unfold reflect.Kind_eqb. destruct (reflect.Kind_eq_dec a b); split; congruence.
Qed.

Lemma Type_eqb_refl (a : rtype) : reflect.Type_eqb a a = true.
Proof.
  induction a as [k p n e IH] using reflect.Type_ind'.
  simpl. rewrite (proj2 (Kind_eqb_eq k k) eq_refl), !String.eqb_refl. simpl.
  destruct e as [x|]; [apply IH | reflexivity].
Qed.

Lemma Type_eqb_eq (a b : rtype) : reflect.Type_eqb a b = true <-> a = b.
Proof.
  split; [| intros ->; apply Type_eqb_refl].
  revert b. induction a as [k p n e IH] using reflect.Type_ind'.
  intros [k' p' n' e']. simpl. rewrite !andb_true_iff.
  intros [[[Hk Hp] Hn] He].
  apply Kind_eqb_eq in Hk. apply String.eqb_eq in Hp, Hn. subst.
  destruct e as [x|], e' as [y|]; try discriminate; [| reflexivity].
  f_equal. f_equal. apply IH, He.
Qed.

(** ** The type-safety reporter *)

Lemma indirect_not_ptr (t : rtype) :
  match indirect t with
  | reflect.mkType reflect.Ptr _ _ (Some _) => False
  | _ => True
  end.
Proof.
  induction t as [k p n e IH] using reflect.Type_ind'.
  destruct k; simpl; try exact I.
  destruct e as [x|]; [exact IH | exact I].
Qed.

Lemma indirect_PtrTo (t : rtype) : indirect (reflect.PtrTo t) = indirect t.
Proof. reflexivity. Qed.

Lemma jsonType_indirect (t : rtype) : jsonType (reflect.PtrTo t) = jsonType t.
Proof. reflexivity. Qed.

Lemma jsonType_sound (u : rtype) (s : string) :
  reportedName (indirect u) s -> jsonType u = s.
Proof.
  unfold jsonType. generalize (indirect u) as t. intros t H.
  destruct H as [Hp Hk|Hp Hk|Hp Hk|Hp Hk|Ht|Ht|Hn Hk|Hk|Hprim Hn1 Hn2 Hk1 Hk2].
  1-4: destruct t as [k p n e]; simpl in *; subst p; simpl;
       destruct k; simpl in *; try discriminate; reflexivity.
  - subst t. reflexivity.
  - subst t. reflexivity.
  - destruct (reflect.Type_eqb t typeTimeTime) eqn:E1;
      [apply Type_eqb_eq in E1; contradiction|].
    destruct (reflect.Type_eqb t typeTimeDuration) eqn:E2;
      [apply Type_eqb_eq in E2; subst t; discriminate Hk|].
    destruct t as [k p n e]; simpl in *.
    destruct (String.eqb p ""); destruct k; simpl in *; try discriminate; reflexivity.
  - destruct (reflect.Type_eqb t typeTimeTime) eqn:E1;
      [apply Type_eqb_eq in E1; subst t; discriminate Hk|].
    destruct (reflect.Type_eqb t typeTimeDuration) eqn:E2;
      [apply Type_eqb_eq in E2; subst t; discriminate Hk|].
    destruct t as [k p n e]; simpl in *.
    destruct (String.eqb p ""); destruct k; simpl in *; try discriminate; reflexivity.
  - destruct (reflect.Type_eqb t typeTimeTime) eqn:E1;
      [apply Type_eqb_eq in E1; contradiction|].
    destruct (reflect.Type_eqb t typeTimeDuration) eqn:E2;
      [apply Type_eqb_eq in E2; contradiction|].
    destruct t as [k p n e]. unfold isPrimitive in Hprim. simpl in *.
    destruct (String.eqb p ""); destruct k; simpl in *; try discriminate; reflexivity.
Qed.

Lemma jsonType_complete (u : rtype) : reportedName (indirect u) (jsonType u).
Proof.
  unfold jsonType. generalize (indirect u) as t. intros t.
  destruct (String.eqb (reflect.PkgPath t) "") eqn:Ep.
  - apply String.eqb_eq in Ep.
    destruct (reflect.Kind_ t) eqn:Ek;
      try (constructor; solve [assumption | rewrite Ek; reflexivity]).
    all: destruct (reflect.Type_eqb t typeTimeTime) eqn:E1;
      [apply Type_eqb_eq in E1; subst t; discriminate|].
    all: destruct (reflect.Type_eqb t typeTimeDuration) eqn:E2;
      [apply Type_eqb_eq in E2; subst t; discriminate|].
    all: assert (N1 : t <> typeTimeTime)
      by (intros ->; rewrite Type_eqb_refl in E1; discriminate).
    all: assert (N2 : t <> typeTimeDuration)
      by (intros ->; rewrite Type_eqb_refl in E2; discriminate).
    all: try (apply reported_object; [assumption | rewrite Ek; reflexivity]).
    all: try (apply reported_array; rewrite Ek; reflexivity).
    all: apply reported_nothing; try assumption; unfold isPrimitive;
      rewrite ?Ek; simpl; rewrite ?andb_false_r; reflexivity.
  - destruct (reflect.Type_eqb t typeTimeTime) eqn:E1;
      [apply Type_eqb_eq in E1; apply reported_time; assumption|].
    destruct (reflect.Type_eqb t typeTimeDuration) eqn:E2;
      [apply Type_eqb_eq in E2; apply reported_duration; assumption|].
    assert (N1 : t <> typeTimeTime)
      by (intros ->; rewrite Type_eqb_refl in E1; discriminate).
    assert (N2 : t <> typeTimeDuration)
      by (intros ->; rewrite Type_eqb_refl in E2; discriminate).
    assert (Hprim : isPrimitive t = false)
      by (unfold isPrimitive; rewrite Ep; reflexivity).
    destruct (reflect.Kind_ t) eqn:Ek;
      try (apply reported_object; [assumption | rewrite Ek; reflexivity]);
      try (apply reported_array; rewrite Ek; reflexivity);
      apply reported_nothing; try assumption; rewrite Ek; reflexivity.
Qed.

(** C8, as amended.  The reporter strips every indirection and names the
    shape that is left: "boolean", "integer", "number" and "string" for
    the predeclared booleans, integers (all widths), floating-point and
    complex numbers and strings; "time" and "duration" for the calendar
    time and the duration; "object" for structs and maps, "array" for
    arrays and slices, defined or not; and no name for anything else,
    which includes the defined types over a primitive. *)
Theorem jsonType_table (t : rtype) (s : string) :
  (jsonType t = s <-> reportedName (indirect t) s)
  /\ jsonType (reflect.PtrTo t) = jsonType t.
Proof.
  split; [| reflexivity]. split.
  - intros <-. apply jsonType_complete.
  - apply jsonType_sound.
Qed.

(** ** Dispatch of one record *)

Section Dispatch.
Context {World : Type}.
Context `{codec : Codec}.
Implicit Types (h : @Handler World) (m : @method World) (w : World).

Lemma invokeMethod_dispatched h ctx req m p w :
  dispatched h req m p ->
  invokeMethod h ctx req w
  = callRecovered (call m) (WithMethod ctx (request.Method req)) p w.
Proof.
  intros D. unfold invokeMethod, invokeMethodBody, callRecovered.
  destruct D as [m Hid Hm Hp | m t ptr ptr' p Hid Hm Hp Hn Hu He];
    rewrite Hid, Hm, Hp; simpl.
  - destruct (call m _ None w) as [w' [r|v]]; reflexivity.
  - rewrite Hn, Hu, He.
    destruct (call m _ p w) as [w' [r|v]]; reflexivity.
Qed.

Lemma invokeMethod_bad_id h ctx req w :
  isNumberOrString (request.ID req) = false ->
  invokeMethod h ctx req w
  = (w, (None, Some (ErrRPC (InvalidRequest "id must be number or string")))).
Proof.
  intros Hid. unfold invokeMethod, invokeMethodBody. rewrite Hid. reflexivity.
Qed.

Lemma invokeMethod_not_found h ctx req w :
  isNumberOrString (request.ID req) = true ->
  methods h !! request.Method req = None ->
  invokeMethod h ctx req w
  = (w, (None, Some (ErrRPC (MethodNotFound (request.Method req))))).
Proof.
  intros Hid Hm. unfold invokeMethod, invokeMethodBody. rewrite Hid, Hm. reflexivity.
Qed.

(** Whatever happens, [invokeMethod] returns a result or an error that
    holds an [*RPCError], never both. *)
Lemma afterCall_shape r :
  (exists result, afterCall r = (result, None))
  \/ (exists p, afterCall r = (None, Some (asError p))).
Proof. destruct r as [result [err|]]; simpl; eauto. Qed.

Lemma recovered_shape v :
  recovered v = (None, None)
  \/ (exists p, recovered v = (None, Some (asError p))).
Proof.
  destruct v; simpl; [left; reflexivity | right | right];
    eexists (Some _); reflexivity.
Qed.

Lemma invokeMethod_shape h ctx req w :
  (exists result, snd (invokeMethod h ctx req w) = (result, None))
  \/ (exists p, snd (invokeMethod h ctx req w) = (None, Some (asError p))).
Proof.
  unfold invokeMethod, invokeMethodBody.
  destruct (isNumberOrString (request.ID req)); simpl;
    [| right; eexists (Some _); reflexivity].
  destruct (methods h !! request.Method req) as [m|]; simpl;
    [| right; eexists (Some _); reflexivity].
  match goal with
  | |- context [match ?prep with Done _ => _ | Panicked _ => _ end] =>
      destruct prep as [[err|p]|v]
  end; simpl.
  - right; eexists (Some _); reflexivity.
  - destruct (call m _ p w) as [w' [r|v]]; simpl.
    + apply afterCall_shape.
    + destruct (recovered_shape v) as [->|[e ->]]; eauto.
  - destruct (recovered_shape v) as [->|[e ->]]; eauto.
Qed.

End Dispatch.

(** ** The registry: middleware and parameters *)

Section Registry.
Context {World : Type}.
Context `{codec : Codec}.
Implicit Types (h : @Handler World) (m : @method World) (w : World)
  (g : @Group World) (c : @Next World).

Lemma applyOwn_cons (mw : Middleware) mws c :
  applyOwn (mw :: mws) c = mw (applyOwn mws c).
Proof. unfold applyOwn. simpl. rewrite fold_left_app. reflexivity. Qed.

Lemma applyOwn_wrap mws c : applyOwn mws c = wrap mws c.
Proof.
  induction mws as [|mw mws IH]; [reflexivity|].
  rewrite applyOwn_cons, IH. reflexivity.
Qed.

Lemma wrap_app (l1 l2 : list Middleware) c :
  wrap (l1 ++ l2) c = wrap l1 (wrap l2 c).
Proof. unfold wrap. apply fold_right_app. Qed.

Lemma applyMiddleware_wrap g c :
  applyMiddleware g c = wrap (effectiveChain g) c.
Proof.
  revert c. induction g as [mws | p mws IH] using Group_ind'; intros c; simpl.
  - apply applyOwn_wrap.
  - rewrite IH, wrap_app, applyOwn_wrap. reflexivity.
Qed.

Lemma validSignature_NotFunc (t : rtype) :
  validSignature (inputs (@NotFunc World t)) (outputs (@NotFunc World t)) = false.
Proof. reflexivity. Qed.

Lemma resolveMethod_valid g name (f : @MethodFunc World) :
  validSignature (inputs f) (outputs f) = true ->
  resolveMethod g name f
  = Done (mkMethod name f
            (if Nat.eqb (length (inputs f)) 2 then inputs f !! 1%nat else None)
            (applyMiddleware g
               (rawCall f
                  (if Nat.eqb (length (inputs f)) 2
                   then inputs f !! 1%nat else None)))).
Proof.
  intros V. destruct f; try discriminate;
    unfold resolveMethod; rewrite V; reflexivity.
Qed.

(** A value that fails the signature test is never registered. *)
Lemma resolveMethod_invalid g name (f : @MethodFunc World) :
  validSignature (inputs f) (outputs f) = false ->
  exists v, resolveMethod g name f = Panicked v.
Proof.
  intros V. destruct f; try (simpl; eauto; fail);
    unfold resolveMethod; rewrite V; eauto.
Qed.

Lemma validSignature_inputs In Out :
  validSignature In Out = true ->
  In = [typeContextContext]
  \/ exists t, In = [typeContextContext; t].
Proof.
  unfold validSignature. rewrite !andb_true_iff.
  intros [[[[Hn H0] _] _] _].
  destruct In as [|a [|b [|x l]]]; simpl in *; try discriminate.
  - left. apply Type_eqb_eq in H0. subst. reflexivity.
  - right. apply Type_eqb_eq in H0. subst. eauto.
Qed.

(** *** Parameters *)

Lemma newParamsLoop_base (result : value) (t : rtype) :
  reflect.ptrDepth t = 0%nat -> newParamsLoop result t = Done result.
Proof.
  destruct t as [k p n [e|]]; destruct k; simpl; intros H;
    try reflexivity; discriminate.
Qed.

Lemma newParamsLoop_shallow (t : rtype) :
  (reflect.ptrDepth t <= 1)%nat -> newParamsLoop (reflect_New t) t = Done (reflect_New t).
Proof.
  intros Hd.
  destruct (reflect.ptrDepth t) as [|d] eqn:E.
  - apply newParamsLoop_base, E.
  - destruct t as [k p n [e|]]; destruct k; simpl in E; try discriminate.
    assert (He : reflect.ptrDepth e = 0%nat) by lia.
    simpl. unfold assignableTo. simpl typeOf.
    rewrite Type_eqb_refl. simpl.
    apply newParamsLoop_base, He.
Qed.

Lemma Elem_neq (e : rtype) k p n : e <> reflect.mkType k p n (Some e).
Proof.
  revert k p n. induction e as [k' p' n' e' IH] using reflect.Type_ind'.
  intros k p n E. injection E as -> -> -> E.
  destruct e' as [x|]; [| discriminate].
  injection E as E. exact (IH _ _ _ E).
Qed.

(** With two or more levels of indirection the second store is refused. *)
Lemma newParamsLoop_deep (t : rtype) :
  (2 <= reflect.ptrDepth t)%nat ->
  exists text, newParamsLoop (reflect_New t) t = Panicked (PanicOther text).
Proof.
  intros Hd.
  destruct t as [k p n [e|]]; destruct k; simpl in Hd; try lia.
  destruct e as [k' p' n' [e'|]]; destruct k'; simpl in Hd; try lia.
  set (e := reflect.mkType reflect.Ptr p' n' (Some e')).
  set (t := reflect.mkType reflect.Ptr p n (Some e)).
  assert (N : reflect.Type_eqb e t = false).
  { destruct (reflect.Type_eqb e t) eqn:E; [| reflexivity].
    apply Type_eqb_eq in E. destruct (Elem_neq e reflect.Ptr p n E). }
  change (newParamsLoop (reflect_New t) t)
    with (match SetElem (reflect_New t) (Zero t) with
          | Done result => newParamsLoop result e
          | Panicked v => Panicked v
          end).
  unfold reflect_New at 1. unfold SetElem, assignableTo. simpl typeOf.
  rewrite Type_eqb_refl. cbn [orb].
  change (newParamsLoop (Pointer (reflect.PtrTo t) (Zero t)) e)
    with (match SetElem (Pointer (reflect.PtrTo t) (Zero t)) (Zero e) with
          | Done result => newParamsLoop result e'
          | Panicked v => Panicked v
          end).
  unfold SetElem, assignableTo. simpl typeOf. rewrite N. simpl. eauto.
Qed.

Lemma newParams_shallow m t :
  paramsType m = Some t -> (reflect.ptrDepth t <= 1)%nat ->
  newParams m = Done (reflect_New t).
Proof.
  intros Hp Hd. unfold newParams. rewrite Hp. apply newParamsLoop_shallow, Hd.
Qed.

(** The handler behind the pipeline, called with a value of its declared
    parameter type, receives that value. *)
Lemma rawCall_typed In Out impl t ctx (v : value) w :
  In = [typeContextContext; t] ->
  assignableTo (typeOf v) t = true ->
  rawCall (Func In Out impl) (Some t) ctx (Some v) w = impl ctx [v] w.
Proof.
  intros -> A. unfold rawCall, Call. simpl. rewrite A. reflexivity.
Qed.

(** Given the nil interface as params, the call of a handler with a
    parameter panics before the handler runs: [reflect.ValueOf(nil)] is
    the zero Value. *)
Lemma rawCall_nil In Out impl t ctx w :
  In = [typeContextContext; t] ->
  rawCall (Func In Out impl) (Some t) ctx None w
  = (w, Panicked (PanicOther "reflect: Call using zero Value argument")).
Proof. intros ->. reflexivity. Qed.

(** The handler of a context-only method is called with no parameter,
    whatever the pipeline is given. *)
Lemma rawCall_context_only Out impl ctx (p : iface) w :
  rawCall (Func [typeContextContext] Out impl) None ctx p w = impl ctx [] w.
Proof. reflexivity. Qed.



(** The values that pass the signature test: the functions, variadic or
    not, nil or not, of a context or of a context and one parameter, that
    return an [interface{}] and an [error]. *)
Lemma validSignature_shape (f : @MethodFunc World) :
  validSignature (inputs f) (outputs f) = true ->
  (exists In impl,
      f = Func In [typeEmptyInterface; typeError] impl
      /\ (In = [typeContextContext] \/ exists t, In = [typeContextContext; t]))
  \/ (exists elem impl,
        f = VariadicFunc [typeContextContext] elem
              [typeEmptyInterface; typeError] impl)
  \/ (exists In,
        f = NilFunc In [typeEmptyInterface; typeError]
        /\ (In = [typeContextContext] \/ exists t, In = [typeContextContext; t])).
Proof.
  intros V.
  assert (O : outputs f = [typeEmptyInterface; typeError]).
  { revert V. unfold validSignature. rewrite !andb_true_iff.
    intros [[[[_ _] Hn] H0] H1].
    destruct (outputs f) as [|a [|b [|x l]]]; simpl in *; try discriminate.
    apply Type_eqb_eq in H0, H1. subst. reflexivity. }
  pose proof (validSignature_inputs _ _ V) as I.
  destruct f as [u|In Out impl|fixed elem Out impl|In Out|]; simpl in *;
    try (destruct I as [I|[t I]]; discriminate); subst.
  - left. eauto.
  - right. left. destruct I as [I|[t I]].
    + destruct fixed as [|a [|b l]]; simpl in I; discriminate.
    + destruct fixed as [|a [|b l]]; simpl in I; try discriminate.
      * injection I as -> _. eauto.
      * destruct l; discriminate.
  - right. right. eauto.
Qed.

End Registry.

(** ** The envelope *)

Section Envelope.
Context {World : Type}.
Context `{codec : Codec}.
Implicit Types (h : @Handler World) (m : @method World) (w : World).



Lemma setDumpErrors_ID (r : response.t) :
  response.ID (setDumpErrors r) = response.ID r.
Proof. unfold setDumpErrors. destruct (response.Error r); reflexivity. Qed.

Lemma dumped_ID h (r : response.t) : response.ID (dumped h r) = response.ID r.
Proof. unfold dumped. destruct (DumpErrors h); [apply setDumpErrors_ID | reflexivity]. Qed.


(** The loop treats the records one after the other: the responses of a
    batch are those of its first part, then those of the rest from the
    world the first part leaves. *)
Lemma respondAll_app h ctx (pre post : list request.t) w :
  respondAll h ctx (pre ++ post) w
  = let '(w1, rs1) := respondAll h ctx pre w in
    let '(w2, rs2) := respondAll h ctx post w1 in
    (w2, (rs1 ++ rs2)%list).
Proof.
  revert w. induction pre as [|req pre IH]; intros w; simpl.
  - destruct (respondAll h ctx post w); reflexivity.
  - destruct (respond h ctx req w) as [w1 resp]. rewrite IH.
    destruct (respondAll h ctx pre w1) as [w2 rs1].
    destruct (respondAll h ctx post w2) as [w3 rs2]. reflexivity.
Qed.

Lemma map_dumped h (rs : list response.t) :
  (if DumpErrors h then map setDumpErrors rs else rs) = map (dumped h) rs.
Proof.
  unfold dumped. destruct (DumpErrors h); [reflexivity|].
  symmetry. apply map_id.
Qed.

(** *** The encoder *)

Lemma responseError_accepted (r : response.t) :
  responseError r = None <-> accepted r.
Proof.
  unfold responseError, errorFieldError, accepted.
  destruct r as [result e id]. simpl. split.
  - intros H. split.
    + intros v ->. destruct (marshalError v); [discriminate | reflexivity].
    + intros e0 d -> Hd. rewrite Hd in H.
      destruct result as [v|]; [destruct (marshalError v); [discriminate|] |];
        destruct (marshalError d); [discriminate | reflexivity | discriminate
                                   | reflexivity].
  - intros [Hr He].
    assert (E : match e with
                | Some e0 =>
                    match data e0 with
                    | Some d => option_map marshalerError (marshalError d)
                    | None => None
                    end
                | None => None
                end = None).
    { destruct e as [e0|]; [| reflexivity].
      destruct (data e0) as [d|] eqn:D; [| reflexivity].
      rewrite (He e0 d eq_refl D). reflexivity. }
    destruct result as [v|]; [rewrite (Hr v eq_refl)|]; exact E.
Qed.


(** [sendJSON] writes the value with the status when the encoder accepts
    it, and panics with the encoder's error otherwise. *)
Lemma sendJSON_Object (status : Z) (r : response.t) :
  (accepted r -> sendJSON status (Object r) = Done (mkHTTPResponse status (Object r)))
  /\ (~ accepted r ->
      exists text,
        sendJSON status (Object r) = Panicked (PanicError (ErrOther text text))).
Proof.
  unfold sendJSON, encodeError. destruct (responseError r) eqn:E.
  - split; [| eauto]. intros A. apply responseError_accepted in A. congruence.
  - split; [reflexivity|]. intros N. destruct N. apply responseError_accepted, E.
Qed.


(** A response with no result and an error without data is accepted. *)
Lemma accepted_plain (e : option RPCError) (id : jsonValue) :
  match e with Some e => data e = None | None => True end ->
  accepted (response.mk None e id).
Proof.
  intros H. split; simpl; [discriminate|].
  intros e0 d -> D. rewrite D in H. discriminate.
Qed.

Lemma sendJSON_plain (status : Z) (e : option RPCError) (id : jsonValue) :
  match e with Some e => data e = None | None => True end ->
  sendJSON status (Object (response.mk None e id))
  = Done (mkHTTPResponse status (Object (response.mk None e id))).
Proof. intros H. apply sendJSON_Object, accepted_plain, H. Qed.

Lemma sendJSON_Done (status : Z) (v : payload) (resp : HTTPResponse) :
  sendJSON status v = Done resp -> resp = mkHTTPResponse status v.
Proof.
  unfold sendJSON. destruct (encodeError v); [discriminate|].
  intros E. injection E as <-. reflexivity.
Qed.

Lemma accepted_setDumpErrors (r : response.t) :
  accepted (setDumpErrors r) <-> accepted r.
Proof.
  unfold setDumpErrors, accepted. destruct r as [result [e|] id]; simpl; [| tauto].
  split; intros [Hr He]; (split; [exact Hr|]); intros e0 d E D.
  - injection E as <-. apply (He _ d eq_refl). exact D.
  - injection E as <-. simpl in D. apply (He _ d eq_refl). exact D.
Qed.

Lemma accepted_dumped h (r : response.t) : accepted (dumped h r) <-> accepted r.
Proof.
  unfold dumped. destruct (DumpErrors h); [apply accepted_setDumpErrors | tauto].
Qed.

Lemma sendJSON_dumped_plain h (status : Z) (e : RPCError) (id : jsonValue) :
  data e = None ->
  sendJSON status (Object (dumped h (response.mk None (Some e) id)))
  = Done (mkHTTPResponse status
            (Object (dumped h (response.mk None (Some e) id)))).
Proof.
  intros D. apply sendJSON_Object, accepted_dumped, accepted_plain. exact D.
Qed.

Lemma ServeHTTP_parsed h r w requests :
  parseRequests r = Done (inr requests) ->
  ServeHTTP h r w
  = let '(w', responses) := respondAll h (WithRequest Background r) requests w in
    let responses := map (dumped h) responses in
    if Nat.eqb (length requests) 1 then
      match responses with
      | first :: _ => (w', sendJSON 200 (Object first))
      | [] => (w', Panicked (runtimeError "index out of range [0] with length 0"))
      end
    else (w', sendJSON 200 (Array responses)).
Proof.
  intros P. unfold ServeHTTP. rewrite P.
  destruct (respondAll h _ requests w) as [w' responses].
  rewrite map_dumped. reflexivity.
Qed.

Lemma ServeHTTP_rejected h r w err :
  parseRequests r = Done (inl err) ->
  ServeHTTP h r w
  = (w, sendJSON 400 (Object (response.mk None (translateError (Some err)) Nil))).
Proof. intros P. unfold ServeHTTP. rewrite P. reflexivity. Qed.

Lemma ServeHTTP_crashed h r w v :
  parseRequests r = Panicked v -> ServeHTTP h r w = (w, Panicked v).
Proof. intros P. unfold ServeHTTP. rewrite P. reflexivity. Qed.

(** *** Encoded errors *)

Lemma split_nonempty sep s : split sep s <> [].
Proof.
  destruct s as [|c r]; simpl; [discriminate|].
  destruct (split sep r); [discriminate|].
  destruct (Ascii.eqb c sep); discriminate.
Qed.

(** The encoded [details] are written exactly when the error's
    [dumpErrors] flag is set and it wraps a cause, and are then the lines
    of the cause's text, tabs replaced by two spaces. *)
Lemma MarshalJSON_details (e : RPCError) :
  jDetails (MarshalJSON e)
  = match dumpErrors e, wrapped e with
    | true, Some cause =>
        Some (split newline (replaceAll tab "  " (formatPlusV cause)))
    | _, _ => None
    end.
Proof.
  unfold MarshalJSON. simpl.
  destruct (dumpErrors e); [| reflexivity].
  destruct (wrapped e) as [cause|]; [| reflexivity].
  unfold omitemptySlice.
  destruct (split newline _) eqn:E; [| reflexivity].
  destruct (split_nonempty _ _ E).
Qed.

(** The flag touches no other field of the encoded error. *)
Lemma MarshalJSON_flag (e : RPCError) (flag : bool) :
  let e' := mkRPCError (Name e) (Message e) (data e) flag (wrapped e) in
  jName (MarshalJSON e') = Name e
  /\ jMessage (MarshalJSON e') = Message e
  /\ jData (MarshalJSON e') = data e.
Proof. simpl. auto. Qed.

(** *** Unique ids *)

(** When every id is hashable and one occurs twice, the loop reports it. *)
Lemma assertUnique_duplicate (uniq : list jsonValue) (result : list request.t) :
  Forall (fun req => hashable (request.ID req) = true) result ->
  (exists pre req post,
      result = (pre ++ req :: post)%list
      /\ (existsb (ifaceEq (request.ID req)) uniq = true
          \/ existsb (ifaceEq (request.ID req)) (map request.ID pre) = true)) ->
  assertUnique uniq (map Some result)
  = Done (Some (InvalidRequest "ids must be unique")).
Proof.
  revert uniq. induction result as [|r rest IH]; intros uniq Hh (pre & req & post & E & D).
  - destruct pre; discriminate.
  - inversion Hh as [|? ? Hr Hrest]; subst. simpl. rewrite Hr. simpl.
    destruct (existsb (ifaceEq (request.ID r)) uniq) eqn:Ex; [reflexivity|].
    apply IH; [exact Hrest|].
    destruct pre as [|p pre]; simpl in E; injection E as -> ->.
    + destruct D as [D|D]; [congruence | discriminate].
    + exists pre, req, post. split; [reflexivity|].
      simpl in D. simpl. rewrite orb_true_iff.
      destruct D as [D|D]; [left; right; exact D|].
      rewrite orb_true_iff in D. destruct D as [D|D]; auto.
Qed.

End Envelope.

(** ** The claims about the registry *)

Section RegistryClaims.
Context {World : Type}.
Context `{codec : Codec}.
Implicit Types (h : @Handler World) (m : @method World) (w : World)
  (g : @Group World).

Lemma resolveMethod_inv g name (f : @MethodFunc World) m :
  resolveMethod g name f = Done m ->
  validSignature (inputs f) (outputs f) = true
  /\ paramsType m
     = (if Nat.eqb (length (inputs f)) 2 then inputs f !! 1%nat else None)
  /\ call m = applyMiddleware g (rawCall f (paramsType m)).
Proof.
  destruct (validSignature (inputs f) (outputs f)) eqn:V.
  - rewrite (resolveMethod_valid g name f V).
    intros E. injection E as <-. simpl. auto.
  - destruct (resolveMethod_invalid g name f V) as [v ->]. discriminate.
Qed.

(** C5, as amended.  The pipeline of a method registered on a group is the
    raw call wrapped in the group's own layers, the first-added layer
    outermost among them, and these wrapped in the layers of each
    ancestor up to the root: the layers of the parent groups surround the
    layers of the child group. *)
Theorem resolveMethod_pipeline g name (f : @MethodFunc World) :
  validSignature (inputs f) (outputs f) = true ->
  exists m,
    resolveMethod g name f = Done m
    /\ call m = wrap (effectiveChain g) (rawCall f (paramsType m))
    /\ (forall p own, g = mkGroup (Some p) own ->
          call m
          = wrap (effectiveChain p) (wrap own (rawCall f (paramsType m))))
    /\ (forall first rest, middleware g = first :: rest ->
          forall c, wrap (middleware g) c = first (wrap rest c)).
Proof.
  intros V. rewrite (resolveMethod_valid g name f V).
  eexists. split; [reflexivity|]. simpl.
  split; [apply applyMiddleware_wrap|]. split.
  - intros p own ->. rewrite applyMiddleware_wrap. simpl. apply wrap_app.
  - intros first rest -> c. reflexivity.
Qed.

(** What the dispatch of parameters delivers.  For a method whose handler
    declares a second parameter of type [t], with at most one level of
    indirection: [newParams] makes a pointer to a fresh zero value of
    [t]; the raw params are decoded into that variable; when decoding
    succeeds the variable still has type [t] and the pipeline is called
    with its dereferenced contents; the handler at the end of the
    pipeline receives them as its parameter when they are not the nil
    interface. *)
Lemma invokeMethod_decodes_params h ctx req w m t v :
  CodecTyped codec ->
  isNumberOrString (request.ID req) = true ->
  methods h !! request.Method req = Some m ->
  paramsType m = Some t ->
  (reflect.ptrDepth t <= 1)%nat ->
  decodeInto (request.Params req) (Zero t) = inr v ->
  newParams m = Done (reflect_New t)
  /\ typeOf v = t
  /\ invokeMethod h ctx req w
     = callRecovered (call m) (WithMethod ctx (request.Method req))
         (Interface v) w
  /\ (forall g name In Out impl,
        resolveMethod g name (Func In Out impl) = Done m ->
        call m = wrap (effectiveChain g) (rawCall (Func In Out impl) (Some t))
        /\ forall a, Interface v = Some a -> typeOf a = t ->
           forall c w0,
             rawCall (Func In Out impl) (Some t) c (Interface v) w0
             = impl c [a] w0).
Proof.
  intros Typed Hid Hm Hp Hd Hv.
  pose proof (newParams_shallow m t Hp Hd) as Hn.
  split; [exact Hn|]. split; [exact (Typed _ _ _ Hv)|]. split.
  - apply invokeMethod_dispatched.
    eapply dispatched_params; eauto.
    + unfold Unmarshal, reflect_New. rewrite Hv. reflexivity.
    + reflexivity.
  - intros g name In Out impl R.
    destruct (resolveMethod_inv _ _ _ _ R) as (V & P & C).
    rewrite Hp in C, P. split; [rewrite C; apply applyMiddleware_wrap|].
    intros a Ha Ta c0 w0. rewrite Ha.
    apply rawCall_typed.
    + simpl in V, P.
      destruct (validSignature_inputs _ _ V) as [->|[t' ->]]; simpl in P;
        [discriminate | congruence].
    + unfold assignableTo. rewrite Ta, Type_eqb_refl. reflexivity.
Qed.

(** With two or more levels of indirection [newParams] panics, and the
    record is answered with an internal error. *)
Lemma invokeMethod_deep_indirection h ctx req w m t :
  isNumberOrString (request.ID req) = true ->
  methods h !! request.Method req = Some m ->
  paramsType m = Some t ->
  (2 <= reflect.ptrDepth t)%nat ->
  exists text,
    invokeMethod h ctx req w
    = (w, (None, Some (ErrRPC (InternalError (Some (ErrOther text text)))))).
Proof.
  intros Hid Hm Hp Hd.
  destruct (newParamsLoop_deep t Hd) as [text Hn].
  exists text. unfold invokeMethod, invokeMethodBody.
  rewrite Hid, Hm, Hp. simpl. unfold newParams. rewrite Hp, Hn. reflexivity.
Qed.

(** C10.  For a registered method whose handler takes only a context, a
    request with any params payload, under any decoder, is dispatched
    without decoding: the pipeline is called with no params, the handler
    with no parameter (a handler that is a nil function cannot be called:
    its call panics), and what the call gives is returned as it is for
    every method: the result when there is no error, the error when it
    holds an [*RPCError], an internal error wrapping it otherwise, and an
    internal error wrapping the value of a panic that is not nil. *)
Theorem invokeMethod_context_only h ctx req w m g name (f : @MethodFunc World) :
  resolveMethod g name f = Done m ->
  length (inputs f) = 1%nat ->
  isNumberOrString (request.ID req) = true ->
  methods h !! request.Method req = Some m ->
  paramsType m = None
  /\ (forall (decoder : Codec) (params : string),
        @invokeMethod World decoder h ctx
          (request.mk (request.Method req) params (request.ID req)) w
        = match call m (WithMethod ctx (request.Method req)) None w with
          | (w', Done (result, None)) => (w', (result, None))
          | (w', Done (_, Some (ErrRPC e))) => (w', (None, Some (ErrRPC e)))
          | (w', Done (_, Some ErrNilRPC)) => (w', (None, Some ErrNilRPC))
          | (w', Done (_, Some err)) =>
              (w', (None,
                    Some (ErrRPC (mkRPCError "internal_error" "internal error"
                                    None false (Some err)))))
          | (w', Panicked PanicNil) => (w', (None, None))
          | (w', Panicked (PanicError cause)) =>
              (w', (None,
                    Some (ErrRPC (mkRPCError "internal_error" "internal error"
                                    None false (Some cause)))))
          | (w', Panicked (PanicOther text)) =>
              (w', (None,
                    Some (ErrRPC (mkRPCError "internal_error" "internal error"
                                    None false (Some (ErrOther text text))))))
          end)
  /\ call m = wrap (effectiveChain g) (rawCall f None)
  /\ ((exists impl,
         f = Func [typeContextContext] [typeEmptyInterface; typeError] impl
         /\ forall c p w0, rawCall f None c p w0 = impl c [] w0)
      \/ (f = NilFunc [typeContextContext] [typeEmptyInterface; typeError]
          /\ forall c p w0,
               rawCall f None c p w0
               = (w0, Panicked (PanicOther
                                  "reflect.Value.Call: call of nil function")))).
Proof.
  intros R L Hid Hm.
  destruct (resolveMethod_inv _ _ _ _ R) as (V & P & C).
  rewrite L in P. simpl in P. rewrite P in C.
  split; [exact P|]. split; [| split].
  - intros decoder params.
    rewrite (@invokeMethod_dispatched World decoder h ctx
               (request.mk (request.Method req) params (request.ID req)) m None w)
      by (apply dispatched_context_only; assumption).
    unfold callRecovered. cbn [request.Method].
    destruct (call m (WithMethod ctx (request.Method req)) None w)
      as [w' [[result [err|]]|v]]; [| reflexivity |].
    + destruct err; reflexivity.
    + destruct v; reflexivity.
  - rewrite C. apply applyMiddleware_wrap.
  - destruct (validSignature_shape f V)
      as [(In & impl & -> & [->|[t ->]])
         |[(elem & impl & ->)|(In & -> & [->|[t ->]])]];
      try discriminate L.
    + left. exists impl. split; [reflexivity|]. intros c p w0. reflexivity.
    + right. split; [reflexivity|]. intros c p w0. reflexivity.
Qed.

End RegistryClaims.

(** ** The claims about the engine *)

Section EngineClaims.
Context {World : Type}.
Context `{codec : Codec}.
Implicit Types (h : @Handler World) (m : @method World) (w : World).


(** The parse of a single object whose id has a hash. *)
Lemma parseRequests_single r req :
  http.BodyErr r = None ->
  startsObject (TrimSpace (http.Body r)) = true ->
  decodeRequest (TrimSpace (http.Body r)) = inr req ->
  hashable (request.ID req) = true ->
  parseRequests r = Done (inr [req]).
Proof.
  intros Hb Ht Hd Hh. unfold parseRequests. rewrite Hb, Ht, Hd. simpl.
  rewrite Hh. reflexivity.
Qed.

(** C3, as amended.  For every single-object request whose id is absent,
    null or a boolean, the engine answers with status 200 and one object
    whose error is invalid_request, "id must be number or string",
    without data or details, and whose id is the id of the request: null
    when it was absent or null. *)
Theorem ServeHTTP_id_not_number_or_string h r w req :
  http.BodyErr r = None ->
  startsObject (TrimSpace (http.Body r)) = true ->
  decodeRequest (TrimSpace (http.Body r)) = inr req ->
  (request.ID req = Nil \/ exists b, request.ID req = OfBool b) ->
  exists resp,
    ServeHTTP h r w = (w, Done (mkHTTPResponse 200 (Object resp)))
    /\ encodeResponse resp
       = mkResponseJSON None
           (Some (mkErrorJSON "invalid_request" "id must be number or string"
                    None None))
           (request.ID req)
    /\ (request.ID req = Nil -> jID (encodeResponse resp) = Nil).
Proof.
  intros Hb Ht Hd Hid.
  assert (Hh : hashable (request.ID req) = true)
    by (destruct Hid as [->|[b ->]]; reflexivity).
  assert (Hn : isNumberOrString (request.ID req) = false)
    by (destruct Hid as [->|[b ->]]; reflexivity).
  rewrite (ServeHTTP_parsed h r w [req]
             (parseRequests_single r req Hb Ht Hd Hh)).
  simpl. unfold respond. rewrite (invokeMethod_bad_id h _ req w Hn). simpl.
  rewrite sendJSON_dumped_plain by reflexivity.
  eexists. split; [reflexivity|]. split.
  - unfold dumped. destruct (DumpErrors h); reflexivity.
  - intros E. rewrite dumped_ID. exact E.
Qed.

(** A panic with a value that is not nil is recovered as an internal
    error wrapping the value. *)
Lemma invokeMethod_recovers h ctx req m p w w' v :
  dispatched h req m p ->
  call m (WithMethod ctx (request.Method req)) p w = (w', Panicked v) ->
  v <> PanicNil ->
  invokeMethod h ctx req w
  = (w', (None, Some (ErrRPC (InternalError (panicCause v)))))
  /\ Name (InternalError (panicCause v)) = "internal_error"
  /\ Message (InternalError (panicCause v)) = "internal error"
  /\ wrapped (InternalError (panicCause v)) = panicCause v.
Proof.
  intros D C N. rewrite (invokeMethod_dispatched h ctx req m p w D).
  unfold callRecovered. rewrite C.
  destruct v; [destruct (N eq_refl) | |]; simpl; auto.
Qed.

(** A panic with nil is recovered as no error at all. *)
Lemma invokeMethod_panic_nil h ctx req m p w w' :
  dispatched h req m p ->
  call m (WithMethod ctx (request.Method req)) p w = (w', Panicked PanicNil) ->
  invokeMethod h ctx req w = (w', (None, None)).
Proof.
  intros D C. rewrite (invokeMethod_dispatched h ctx req m p w D).
  unfold callRecovered. rewrite C. reflexivity.
Qed.

(** A panicking record in a batch: the records before and after it are
    answered as the loop answers them on their own, the later ones from
    the world the panicking call leaves. *)
Lemma respondAll_panicking_record h ctx pre req post m p w v :
  let '(w1, before) := respondAll h ctx pre w in
  dispatched h req m p ->
  v <> PanicNil ->
  forall w2,
    call m (WithMethod ctx (request.Method req)) p w1 = (w2, Panicked v) ->
    let '(w3, after) := respondAll h ctx post w2 in
    respondAll h ctx (pre ++ req :: post) w
    = (w3, (before
            ++ response.mk None (Some (InternalError (panicCause v)))
                 (request.ID req)
            :: after)%list).
Proof.
  destruct (respondAll h ctx pre w) as [w1 before] eqn:E1.
  intros D N w2 C.
  destruct (respondAll h ctx post w2) as [w3 after] eqn:E3.
  rewrite respondAll_app, E1. simpl. unfold respond.
  destruct (invokeMethod_recovers h ctx req m p w1 w2 v D C N) as [-> _].
  simpl. rewrite E3. reflexivity.
Qed.

(** C9, as amended.  In the response of a record at most one of result
    and error is populated; when the record reaches its pipeline, and the
    pipeline returns or panics with a value other than nil, the error is
    populated exactly when the pipeline panicked or returned an error
    that is not a nil [*RPCError], and the result exactly when it
    returned a result that is not nil and no error. *)
Theorem respond_result_or_error h ctx req w :
  let resp := snd (respond h ctx req w) in
  ~ (resultPopulated resp /\ errorPopulated resp)
  /\ forall m p w' o,
       dispatched h req m p ->
       call m (WithMethod ctx (request.Method req)) p w = (w', o) ->
       o <> Panicked PanicNil ->
       (errorPopulated resp
        <-> (exists result e, o = Done (result, Some e) /\ e <> ErrNilRPC)
            \/ (exists v, o = Panicked v))
       /\ (resultPopulated resp <-> exists a, o = Done (Some a, None)).
Proof.
  unfold resultPopulated, errorPopulated, encodeResponse, respond. simpl.
  split.
  - destruct (invokeMethod_shape h ctx req w) as [[result E]|[e E]];
      destruct (invokeMethod h ctx req w) as [w' [res err]]; simpl in *;
      injection E as -> ->; simpl; intros [[a Ha] [b Hb]]; discriminate.
  - intros m p w' o D C N.
    rewrite (invokeMethod_dispatched h ctx req m p w D).
    unfold callRecovered. rewrite C.
    destruct o as [[result [e|]]|v]; simpl.
    + split; split.
      * intros [je J]. left. exists result, e. split; [reflexivity|].
        intros ->. discriminate J.
      * intros [(r0 & e0 & E & Ne)|[v E]]; [| discriminate].
        injection E as <- <-. destruct e; simpl; eauto. destruct (Ne eq_refl).
      * intros [a Ha]. discriminate.
      * intros [a Ha]. discriminate.
    + split; split.
      * intros [a Ha]. discriminate.
      * intros [(r0 & e & E & _)|[v E]]; discriminate.
      * intros [a ->]. eauto.
      * intros [a E]. injection E as ->. eauto.
    + destruct v; [destruct (N eq_refl) | |]; simpl; split; split;
        try (intros [a Ha]; discriminate); eauto.
Qed.

(** Batches whose ids all have a hash and of which one occurs twice are
    refused with status 400 and a single error object with a null id. *)
Lemma ServeHTTP_duplicate_ids h r w (result : list request.t) :
  http.BodyErr r = None ->
  startsObject (TrimSpace (http.Body r)) = false ->
  decodeRequests (TrimSpace (http.Body r)) = inr (map Some result) ->
  Forall (fun req => hashable (request.ID req) = true) result ->
  (exists pre req post,
      result = (pre ++ req :: post)%list
      /\ existsb (ifaceEq (request.ID req)) (map request.ID pre) = true) ->
  ServeHTTP h r w
  = (w, Done (mkHTTPResponse 400
                (Object (response.mk None
                           (Some (InvalidRequest "ids must be unique")) Nil)))).
Proof.
  intros Hb Ht Hd Hh (pre & req & post & E & D).
  apply ServeHTTP_rejected with (err := ErrRPC (InvalidRequest "ids must be unique")).
  unfold parseRequests. rewrite Hb, Ht, Hd.
  rewrite length_map.
  destruct result as [|r0 rs]; [destruct pre; discriminate|]. simpl length.
  cbn [Nat.eqb].
  rewrite (assertUnique_duplicate [] (r0 :: rs) Hh); [reflexivity|].
  exists pre, req, post. auto.
Qed.

(** An id without a hash, met before any duplicate, stops the loop with a
    panic. *)
Lemma assertUnique_unhashable (uniq : list jsonValue) req rest :
  hashable (request.ID req) = false ->
  assertUnique uniq (Some req :: rest) = Panicked (unhashableKey (request.ID req)).
Proof. intros H. simpl. rewrite H. reflexivity. Qed.

(** A single object whose id is an array or an object is not answered:
    the panic of the loop on ids leaves [ServeHTTP]. *)
Lemma ServeHTTP_unhashable_id h r w req :
  http.BodyErr r = None ->
  startsObject (TrimSpace (http.Body r)) = true ->
  decodeRequest (TrimSpace (http.Body r)) = inr req ->
  hashable (request.ID req) = false ->
  ServeHTTP h r w = (w, Panicked (unhashableKey (request.ID req))).
Proof.
  intros Hb Ht Hd Hh. apply ServeHTTP_crashed.
  unfold parseRequests. rewrite Hb, Ht, Hd. simpl. rewrite Hh. reflexivity.
Qed.

(** The errors [parseRequests] returns are RPC errors named
    invalid_request or parse_error, that are not marked for dumping and
    carry no data. *)
Lemma parseRequests_error r err :
  parseRequests r = Done (inl err) ->
  exists e, err = ErrRPC e /\ dumpErrors e = false /\ data e = None
            /\ (Name e = "invalid_request" \/ Name e = "parse_error").
Proof.
  unfold parseRequests.
  destruct (http.BodyErr r) as [e|].
  { intros E. injection E as <-. eexists. repeat split. left. reflexivity. }
  match goal with
  | |- context [match ?parsed with inl _ => _ | inr _ => _ end] =>
      assert (P : forall e0, parsed = inl e0 ->
                  exists e, e0 = ErrRPC e /\ dumpErrors e = false /\ data e = None
                            /\ (Name e = "invalid_request" \/ Name e = "parse_error"));
      [| destruct parsed as [e0|result]]
  end.
  - intros e0. destruct (startsObject _).
    + destruct (decodeRequest _); intros E; [| discriminate].
      injection E as <-. eexists. repeat split. right. reflexivity.
    + destruct (decodeRequests _); intros E; [| discriminate].
      injection E as <-. eexists. repeat split. right. reflexivity.
  - intros E. injection E as <-. apply P. reflexivity.
  - destruct (Nat.eqb (length result) 0).
    + intros E. injection E as <-. eexists. repeat split. left. reflexivity.
    + destruct (assertUnique [] result) as [[e|]|v] eqn:A; intros E;
        try discriminate.
      injection E as <-. exists e. split; [reflexivity|].
      clear -A. revert A. generalize (@nil jsonValue) as uniq.
      induction result as [|[req|] rest IH]; intros uniq; simpl; try discriminate.
      destruct (hashable (request.ID req)); simpl; [| discriminate].
      destruct (existsb _ uniq); [| apply IH].
      intros E. injection E as <-. repeat split. left. reflexivity.
Qed.

(** An answer of status 400 never carries details, whatever [DumpErrors]
    is and whatever its error wraps. *)
Lemma ServeHTTP_rejected_no_details h r w err :
  parseRequests r = Done (inl err) ->
  exists e,
    ServeHTTP h r w
    = (w, Done (mkHTTPResponse 400 (Object (response.mk None (Some e) Nil))))
    /\ jDetails (MarshalJSON e) = None.
Proof.
  intros P. destruct (parseRequests_error r err P) as (e & -> & F & D & _).
  exists e. split.
  - rewrite (ServeHTTP_rejected h r w _ P). cbn [translateError].
    rewrite (sendJSON_plain 400 (Some e) Nil D). reflexivity.
  - rewrite MarshalJSON_details, F. reflexivity.
Qed.

(** In an answer of status 200 the details of an error that was not
    already marked follow the handler's [DumpErrors]; name, message and
    data do not depend on it. *)
Lemma dumped_error h (resp : response.t) (e : RPCError) :
  response.Error resp = Some e ->
  dumpErrors e = false ->
  exists je,
    jError (encodeResponse (dumped h resp)) = Some je
    /\ jName je = Name e /\ jMessage je = Message e /\ jData je = data e
    /\ jDetails je
       = match DumpErrors h, wrapped e with
         | true, Some cause =>
             Some (split newline (replaceAll tab "  " (formatPlusV cause)))
         | _, _ => None
         end.
Proof.
  intros He Hf. unfold dumped, setDumpErrors, encodeResponse.
  destruct (DumpErrors h); rewrite He; simpl; eexists; (split; [reflexivity|]);
    rewrite MarshalJSON_details; simpl; rewrite ?Hf; auto.
Qed.

End EngineClaims.

(** ** Runs of the example server *)

Section ExampleRuns.
Import Examples Runs MoreRuns.

Lemma decodeValue_typed : CodecTyped codec.
Proof.
  intros data v v'. simpl. unfold decodeValue.
  destruct (String.eqb data ""); [discriminate|].
  destruct (String.eqb data "null"); [intros E; injection E as <-; reflexivity|].
  destruct (_ && _); [discriminate|].
  destruct (typeOf v) as [k p n e] eqn:T.
  destruct k; try (intros E; injection E as <-; reflexivity).
  destruct e; intros E; injection E as <-; reflexivity.
Qed.

(** Layers that log: every call is logged from the outermost layer
    inwards before the rest of the pipeline runs, every return from the
    innermost outwards after it. *)
Lemma wrap_tracers (names : list string) (c : @Next Log) ctx p w :
  wrap (map tracer names) c ctx p w
  = let '(w', r) := c ctx p (app w (map (fun n => n ++ ":call") names)) in
    (app w' (map (fun n => n ++ ":return") (rev names)), r).
Proof.
  revert w. induction names as [|n names IH]; intros w; simpl.
  - rewrite app_nil_r. destruct (c ctx p w) as [w' r]. rewrite app_nil_r. reflexivity.
  - unfold tracer at 1. fold (wrap (map tracer names) c). rewrite IH.
    rewrite <- app_assoc. simpl.
    destruct (c ctx p _) as [w' r].
    rewrite map_app, <- app_assoc. reflexivity.
Qed.

(** C1.  A handler that panics with nil: [recover] returns nil, the
    deferred function does nothing, and the record is answered with
    neither a result nor an error. *)
Theorem panic_nil_is_not_reported :
  exists m,
    methods server !! "PanicNil" = Some m
    /\ call m (WithMethod (WithRequest Background (post bodyPanicNil)) "PanicNil")
         None []
       = ([], Panicked PanicNil)
    /\ ServeHTTP server (post bodyPanicNil) []
       = ([], Done (mkHTTPResponse 200
                      (Object (response.mk None None (OfFloat64 one))))).
Proof. eexists. repeat split; vm_compute; reflexivity. Qed.

(** C2.  A batch of two records with the same array as id: hashing the
    first id panics in [parseRequests], and no response is sent. *)
Theorem array_ids_crash_the_parse :
  decodeRequests bodyArrayIDs
  = inr [ Some (request.mk "Now" "" (OfSlice [OfFloat64 one]));
          Some (request.mk "Now" "" (OfSlice [OfFloat64 one])) ]
  /\ ServeHTTP server (post bodyArrayIDs) []
     = ([], Panicked (unhashableKey (OfSlice [OfFloat64 one]))).
Proof. split; vm_compute; reflexivity. Qed.

(** C3, as first stated, fails on a boolean id: the response carries the
    id of the request, [true], not null. *)
Lemma boolean_id_is_not_nulled :
  decodeRequest bodyBoolID = inr (request.mk "Now" "" (OfBool true))
  /\ ServeHTTP server (post bodyBoolID) []
     = ([], Done (mkHTTPResponse 200
                    (Object (response.mk None
                               (Some (InvalidRequest "id must be number or string"))
                               (OfBool true)))))
  /\ OfBool true <> Nil.
Proof. repeat split; try (vm_compute; reflexivity). discriminate. Qed.


(** C5, as first stated, fails on a group with two layers: B, added after
    A, is the inner one. *)
Lemma most_recent_layer_is_innermost :
  middleware rootAB = [tracer "A"; tracer "B"]
  /\ traceOf rootAB
     = ["A:call"; "B:call"; "handler"; "B:return"; "A:return"]%list.
Proof. split; vm_compute; reflexivity. Qed.

(** C7.  With [DumpErrors] set, a body that does not parse is answered
    with a parse error that wraps its cause and has no details. *)
Theorem parse_error_is_never_dumped :
  exists e,
    DumpErrors (serverWith true) = true
    /\ ServeHTTP (serverWith true) (post bodyTruncated) []
       = ([], Done (mkHTTPResponse 400 (Object (response.mk None (Some e) Nil))))
    /\ Name e = "parse_error"
    /\ wrapped e = Some (ErrSyntax "unexpected end of JSON input" 8)
    /\ jDetails (MarshalJSON e) = None.
Proof. eexists. repeat split; vm_compute; reflexivity. Qed.

(** The sibling path: the parse error of params, in an answer of status
    200, is dumped. *)
Lemma params_parse_error_is_dumped :
  exists resp je,
    ServeHTTP (serverWith true) (post bodyUpperNumber) []
    = ([], Done (mkHTTPResponse 200 (Object resp)))
    /\ jError (encodeResponse resp) = Some je
    /\ jName je = "parse_error"
    /\ jMessage je
       = "cannot parse params: offset 1: cannot unmarshal number as string"
    /\ jDetails je
       = Some ["json: cannot unmarshal number into Go value of type string"]%list.
Proof. eexists. eexists. repeat split; vm_compute; reflexivity. Qed.

(** C8, as first stated, fails on defined types: a defined type over a
    fixed-width integer, and the [Enum] of the package's test, get no
    name. *)
Lemma jsonType_defined_integer :
  isIntegerKind (reflect.Kind_ (indirect typeCount)) = true
  /\ jsonType typeCount = ""
  /\ isIntegerKind (reflect.Kind_ (indirect typeEnum)) = true
  /\ jsonType typeEnum = "".
Proof. repeat split. Qed.

(** C9, as first stated, fails on a handler that returns nil and no
    error: neither field is populated. *)
Lemma nil_result_populates_neither :
  exists m,
    methods server !! "Noop" = Some m
    /\ call m (WithMethod Background "Noop") None [] = ([], Done (None, None))
    /\ snd (respond server Background (request.mk "Noop" "" (OfFloat64 one)) [])
       = response.mk None None (OfFloat64 one)
    /\ encodeResponse (response.mk None None (OfFloat64 one))
       = mkResponseJSON None None (OfFloat64 one).
Proof. eexists. repeat split; vm_compute; reflexivity. Qed.

(** A handler that returns a nil [*RPCError] as its error: the response
    has neither a result nor an error. *)
Example nil_rpc_error_populates_neither :
  call mTypedNil (WithMethod Background "TypedNil") None []
  = (["TypedNil called"]%list, Done (None, Some ErrNilRPC))
  /\ snd (respond moreServer Background reqTypedNil [])
     = response.mk None None (OfFloat64 one).
Proof. split; vm_compute; reflexivity. Qed.

(** C6.  A method whose handler declares an [interface{}] parameter,
    sent [null] as params: decoding succeeds and leaves the nil
    interface, of which [reflect.ValueOf] is the zero Value; [fn.Call]
    panics, the handler is not called (the log stays empty) and the
    record is answered with an internal error. *)
Theorem null_params_do_not_reach_the_handler :
  registered server "Echo"
  = Done (mkMethod "Echo" echo (Some typeEmptyInterface)
            (applyMiddleware (mkGroup None [])
               (rawCall echo (Some typeEmptyInterface))))
  /\ decodeRequest bodyEchoNull = inr (request.mk "Echo" "null" (OfFloat64 one))
  /\ decodeInto "null" (Zero typeEmptyInterface) = inr (Zero typeEmptyInterface)
  /\ ServeHTTP server (post bodyEchoNull) []
     = ([], Done (mkHTTPResponse 200
                    (Object (response.mk None
                               (Some (InternalError
                                        (Some (ErrOther
                                                 "reflect: Call using zero Value argument"
                                                 "reflect: Call using zero Value argument"))))
                               (OfFloat64 one))))).
Proof. repeat split; vm_compute; reflexivity. Qed.

(** The same method sent a string is called with it. *)
Example echo_hello :
  ServeHTTP server (post bodyEcho) []
  = (["Echo called"]%list,
     Done (mkHTTPResponse 200
             (Object (response.mk (Some (Lit tString (q "hello"))) None
                        (OfFloat64 one))))).
Proof. vm_compute. reflexivity. Qed.

(** *** The package's tests *)

(** TestRPC, "no params". *)
Example test_no_params :
  ServeHTTP server (post bodyNow) []
  = ([], Done (mkHTTPResponse 200
                 (Object (response.mk
                            (Some (Lit typeTimeTime "2000-01-01T01:00:00Z"))
                            None (OfFloat64 one))))).
Proof. vm_compute. reflexivity. Qed.

(** TestRPC, "panic". *)
Example test_panic :
  exists resp,
    ServeHTTP server (post bodyPanic) [] = ([], Done (mkHTTPResponse 200 (Object resp)))
    /\ encodeResponse resp
       = mkResponseJSON None
           (Some (mkErrorJSON "internal_error" "internal error" None None))
           (OfFloat64 one).
Proof. eexists. split; vm_compute; reflexivity. Qed.

(** TestRPC, "missing id". *)
Example test_missing_id :
  exists resp,
    ServeHTTP server (post bodyMissingID) [] = ([], Done (mkHTTPResponse 200 (Object resp)))
    /\ encodeResponse resp
       = mkResponseJSON None
           (Some (mkErrorJSON "invalid_request" "id must be number or string"
                    None None))
           Nil.
Proof. eexists. split; vm_compute; reflexivity. Qed.

(** TestRPC, "dupe id". *)
Example test_dupe_id :
  exists resp,
    ServeHTTP server (post bodyDupe) [] = ([], Done (mkHTTPResponse 400 (Object resp)))
    /\ encodeResponse resp
       = mkResponseJSON None
           (Some (mkErrorJSON "invalid_request" "ids must be unique" None None))
           Nil.
Proof. eexists. split; vm_compute; reflexivity. Qed.

(** TestRPC, "invalid method". *)
Example test_invalid_method :
  exists resp,
    ServeHTTP server (post bodyInvalid) [] = ([], Done (mkHTTPResponse 200 (Object resp)))
    /\ encodeResponse resp
       = mkResponseJSON None
           (Some (mkErrorJSON "method_not_found" "method not found: Invalid"
                    None None))
           (OfFloat64 one).
Proof. eexists. split; vm_compute; reflexivity. Qed.

(** TestRPC, "invalid json". *)
Example test_invalid_json :
  exists resp,
    ServeHTTP server (post bodyTruncated) [] = ([], Done (mkHTTPResponse 400 (Object resp)))
    /\ encodeResponse resp
       = mkResponseJSON None
           (Some (mkErrorJSON "parse_error"
                    "cannot parse request: offset 8: unexpected end of JSON input"
                    None None))
           Nil.
Proof. eexists. split; vm_compute; reflexivity. Qed.

(** TestRPC, "empty batch". *)
Example test_empty_batch :
  exists resp,
    ServeHTTP server (post "[]") [] = ([], Done (mkHTTPResponse 400 (Object resp)))
    /\ encodeResponse resp
       = mkResponseJSON None
           (Some (mkErrorJSON "invalid_request" "empty batch" None None))
           Nil.
Proof. eexists. split; vm_compute; reflexivity. Qed.

(** TestErrorHiding, with and without [DumpErrors]. *)
Example test_error_hiding :
  (exists resp,
      ServeHTTP (serverWith false) (post bodyDo) []
      = ([], Done (mkHTTPResponse 200 (Object resp)))
      /\ encodeResponse resp
         = mkResponseJSON None
             (Some (mkErrorJSON "internal_error" "internal error" None None))
             (OfFloat64 one))
  /\ (exists resp,
        ServeHTTP (serverWith true) (post bodyDo) []
        = ([], Done (mkHTTPResponse 200 (Object resp)))
        /\ encodeResponse resp
           = mkResponseJSON None
               (Some (mkErrorJSON "internal_error" "internal error" None
                        (Some ["an internal error occurred"]%list)))
               (OfFloat64 one)).
Proof. split; eexists; split; vm_compute; reflexivity. Qed.

(** TestJSONType. *)
Example test_json_type :
  jsonType tInt = "integer"
  /\ jsonType tFloat64 = "number"
  /\ jsonType (reflect.SliceOf tString) = "array"
  /\ jsonType (reflect.ArrayOf 0 tString) = "array"
  /\ jsonType typeTimeTime = "time"
  /\ jsonType typeTimeDuration = "duration"
  /\ jsonType typeEnum = ""
  /\ jsonType (reflect.MapOf tString tString) = "object"
  /\ jsonType typePerson = "object"
  /\ jsonType (reflect.PtrTo typePerson) = "object".
Proof. repeat split. Qed.

(** TestJSONErrorDetails, on the errors the decoder reports there. *)
Example test_json_error_details :
  jsonErrorDetails (ErrSyntax "unexpected end of JSON input" 1)
  = "offset 1: unexpected end of JSON input"
  /\ jsonErrorDetails (ErrUnmarshalType "string" tInt 15 "count" "")
     = "offset 15: cannot unmarshal string to " ++ q "count" ++ " as integer"
  /\ jsonErrorDetails (ErrUnmarshalType "number" tString 10 "name" "")
     = "offset 10: cannot unmarshal number to " ++ q "name" ++ " as string"
  /\ jsonErrorDetails (ErrUnmarshalType "bool" tString 14 "name" "")
     = "offset 14: cannot unmarshal bool to " ++ q "name" ++ " as string"
  /\ jsonErrorDetails (ErrUnmarshalType "string" tInt 26 "nested.count" "")
     = "offset 26: cannot unmarshal string to " ++ q "nested.count" ++ " as integer".
Proof. repeat split. Qed.

(** TestMiddlewareGroups: the layers of the root and of the group of the
    method run, those of the other group do not. *)
Example test_middleware_groups :
  traceOf (mkGroup (Some (mkGroup None [tracer "root"])) [tracer "g1"])
  = ["root:call"; "g1:call"; "handler"; "g1:return"; "root:return"]%list.
Proof. vm_compute. reflexivity. Qed.

(** *** The theorems at work on the example server *)

(** C3 on the request without id of the package's test. *)
Lemma ServeHTTP_id_not_number_or_string_witness :
  exists resp,
    ServeHTTP server (post bodyMissingID) [] = ([], Done (mkHTTPResponse 200 (Object resp)))
    /\ encodeResponse resp
       = mkResponseJSON None
           (Some (mkErrorJSON "invalid_request" "id must be number or string"
                    None None))
           Nil
    /\ (request.ID reqMissingID = Nil -> jID (encodeResponse resp) = Nil).
Proof.
  refine (ServeHTTP_id_not_number_or_string server (post bodyMissingID) []
            reqMissingID _ _ _ _).
  - reflexivity.
  - vm_compute. reflexivity.
  - vm_compute. reflexivity.
  - left. reflexivity.
Defined.


(** C5 on the subgroup [childCD] of [rootAB]. *)
Lemma resolveMethod_pipeline_witness :
  exists m,
    resolveMethod childCD "M" (logged "handler") = Done m
    /\ call m
       = wrap (effectiveChain childCD) (rawCall (logged "handler") (paramsType m))
    /\ (forall p own, childCD = mkGroup (Some p) own ->
          call m
          = wrap (effectiveChain p)
              (wrap own (rawCall (logged "handler") (paramsType m))))
    /\ (forall first rest, middleware childCD = first :: rest ->
          forall c, wrap (middleware childCD) c = first (wrap rest c)).
Proof.
  refine (resolveMethod_pipeline childCD "M" (logged "handler") _).
  reflexivity.
Defined.

(** The dispatch of parameters on the method of the test that takes a
    pointer. *)
Lemma invokeMethod_decodes_params_GetUser2 :
  methods server !! "GetUser2" = Some mGetUser2
  /\ decodeInto (request.Params reqGetUser2)
       (Zero (reflect.PtrTo typeGetUserParams)) = inr vAlice
  /\ newParams mGetUser2 = Done (reflect_New (reflect.PtrTo typeGetUserParams))
  /\ typeOf vAlice = reflect.PtrTo typeGetUserParams
  /\ invokeMethod server Background reqGetUser2 []
     = callRecovered (call mGetUser2) (WithMethod Background "GetUser2")
         (Interface vAlice) [].
Proof.
  assert (L : methods server !! request.Method reqGetUser2 = Some mGetUser2)
    by (vm_compute; reflexivity).
  assert (D : decodeInto (request.Params reqGetUser2)
                (Zero (reflect.PtrTo typeGetUserParams)) = inr vAlice)
    by (vm_compute; reflexivity).
  assert (P : (reflect.ptrDepth (reflect.PtrTo typeGetUserParams) <= 1)%nat)
    by (simpl; lia).
  destruct (invokeMethod_decodes_params server Background reqGetUser2 []
              mGetUser2 (reflect.PtrTo typeGetUserParams) vAlice
              decodeValue_typed eq_refl L eq_refl P D) as (T1 & T2 & T3 & _).
  exact (conj L (conj D (conj T1 (conj T2 T3)))).
Defined.

(** C9 on the method of the test that returns a time. *)
Lemma respond_result_or_error_witness :
  dispatched server reqNow mNow None
  /\ (errorPopulated (snd (respond server Background reqNow []))
      <-> (exists result e, nowOutcome = Done (result, Some e) /\ e <> ErrNilRPC)
          \/ (exists v, nowOutcome = Panicked v))
  /\ (resultPopulated (snd (respond server Background reqNow []))
      <-> exists a, nowOutcome = Done (Some a, None)).
Proof.
  assert (L : methods server !! request.Method reqNow = Some mNow)
    by (vm_compute; reflexivity).
  assert (D : dispatched server reqNow mNow None)
    by (apply dispatched_context_only; [reflexivity | exact L | reflexivity]).
  assert (N : nowOutcome <> Panicked PanicNil) by discriminate.
  exact (conj D (proj2 (respond_result_or_error server Background reqNow [])
                   mNow None [] nowOutcome D eq_refl N)).
Defined.

(** C10 on the context-only method of the test, given params. *)
Lemma invokeMethod_context_only_witness :
  methods server !! "Now" = Some mNow
  /\ paramsType mNow = None
  /\ (forall (decoder : Codec) (params : string),
        @invokeMethod Log decoder server Background
          (request.mk "Now" params (OfFloat64 one)) []
        = ([], (Some (Lit typeTimeTime "2000-01-01T01:00:00Z"), None)))
  /\ call mNow = wrap (effectiveChain (mkGroup None [])) (rawCall now None)
  /\ exists impl,
       now = Func [typeContextContext] [typeEmptyInterface; typeError] impl
       /\ forall c p w0, rawCall now None c p w0 = impl c [] w0.
Proof.
  assert (L : methods server !! request.Method reqNowParams = Some mNow)
    by (vm_compute; reflexivity).
  destruct (invokeMethod_context_only server Background reqNowParams []
              mNow (mkGroup None []) "Now" now eq_refl eq_refl eq_refl L)
    as (P & I & C & [H|[E _]]).
  - exact (conj L (conj P (conj I (conj C H)))).
  - discriminate E.
Defined.

End ExampleRuns.

(** * More of the package

    ** Strings *)

Section StringFacts.

Lemma hasByte_app c (a b : string) :
  hasByte c (a ++ b) = hasByte c a || hasByte c b.
Proof.
  induction a as [|x a IH]; simpl; [reflexivity|].
  rewrite IH. apply orb_assoc.
Qed.

Lemma replaceAll_hasByte old (new s : string) :
  hasByte old new = false -> hasByte old (replaceAll old new s) = false.
Proof.
  intros Hn. induction s as [|c r IH]; simpl; [reflexivity|].
  destruct (Ascii.eqb c old) eqn:E.
  - rewrite hasByte_app, Hn, IH. reflexivity.
  - simpl. rewrite E, IH. reflexivity.
Qed.

Lemma replaceAll_keeps_absent c old (new s : string) :
  hasByte c new = false -> hasByte c s = false ->
  hasByte c (replaceAll old new s) = false.
Proof.
  intros Hn. induction s as [|x r IH]; simpl; [reflexivity|].
  intros H. apply orb_false_iff in H as [Hx Hr].
  destruct (Ascii.eqb x old).
  - rewrite hasByte_app, Hn, (IH Hr). reflexivity.
  - simpl. rewrite Hx, (IH Hr). reflexivity.
Qed.

(** No piece of a split holds the separator, and a byte absent from the
    text is absent from every piece. *)
Lemma split_pieces sep c (s : string) :
  Forall (fun piece => hasByte sep piece = false
                       /\ (hasByte c s = false -> hasByte c piece = false))
    (split sep s).
Proof.
  induction s as [|x r IH]; simpl.
  - constructor; [split; reflexivity | constructor].
  - destruct (split sep r) as [|piece pieces] eqn:E.
    + destruct (split_nonempty _ _ E).
    + inversion IH as [|? ? [Hp Hc] Hrest]; subst.
      destruct (Ascii.eqb x sep) eqn:Ex.
      * constructor; [split; reflexivity|].
        constructor.
        -- split; [exact Hp|]. intros H. apply orb_false_iff in H as [_ H]. auto.
        -- eapply Forall_impl; [exact Hrest|].
           intros a [Ha Hca]. split; [exact Ha|].
           intros H. apply orb_false_iff in H as [_ H]. auto.
      * constructor.
        -- simpl. rewrite Ex, Hp. split; [reflexivity|].
           intros H. apply orb_false_iff in H as [Hx H]. rewrite Hx. simpl. auto.
        -- eapply Forall_impl; [exact Hrest|].
           intros a [Ha Hca]. split; [exact Ha|].
           intros H. apply orb_false_iff in H as [_ H]. auto.
Qed.

(** Joining the pieces with the separator gives the text back. *)
Lemma join_split sep (s : string) :
  join (String sep EmptyString) (split sep s) = s.
Proof.
  induction s as [|x r IH]; simpl; [reflexivity|].
  destruct (split sep r) as [|piece pieces] eqn:E.
  - destruct (split_nonempty _ _ E).
  - destruct (Ascii.eqb x sep) eqn:Ex.
    + apply Ascii.eqb_eq in Ex. subst x.
      change (join (String sep EmptyString) (EmptyString :: piece :: pieces))
        with (String sep (join (String sep EmptyString) (piece :: pieces))).
      rewrite IH. reflexivity.
    + destruct pieces as [|p2 ps].
      * simpl in IH |- *. rewrite IH. reflexivity.
      * change (join (String sep EmptyString) (String x piece :: p2 :: ps))
          with (String x (join (String sep EmptyString) (piece :: p2 :: ps))).
        rewrite IH. reflexivity.
Qed.

Lemma append_assoc (a b c : string) : (a ++ b) ++ c = a ++ (b ++ c).
Proof.
  induction a as [|x a IH]; [reflexivity|].
  change (String x ((a ++ b) ++ c) = String x (a ++ (b ++ c))). f_equal. exact IH.
Qed.

Lemma reverseOnto_app (s acc : string) :
  reverseOnto s acc = reverse s ++ acc.
Proof.
  unfold reverse. revert acc. induction s as [|c r IH]; intros acc; [reflexivity|].
  simpl. rewrite IH, (IH (String c EmptyString)).
  rewrite append_assoc. reflexivity.
Qed.

Lemma reverse_cons c (s : string) :
  reverse (String c s) = reverse s ++ String c EmptyString.
Proof. unfold reverse at 1. simpl. apply reverseOnto_app. Qed.

Lemma append_empty (a : string) : a ++ EmptyString = a.
Proof.
  induction a as [|c a IH]; [reflexivity|].
  change (String c (a ++ EmptyString) = String c a). f_equal. exact IH.
Qed.

Lemma reverse_app (a b : string) : reverse (a ++ b) = reverse b ++ reverse a.
Proof.
  induction a as [|c a IH].
  - change (EmptyString ++ b) with b. symmetry. apply append_empty.
  - change (String c a ++ b) with (String c (a ++ b)).
    rewrite !reverse_cons, IH, append_assoc. reflexivity.
Qed.

Lemma allSpace_app (a b : string) :
  allSpace (a ++ b) = allSpace a && allSpace b.
Proof.
  induction a as [|c a IH]; [reflexivity|].
  change (String c a ++ b) with (String c (a ++ b)). simpl.
  rewrite IH. apply andb_assoc.
Qed.

Lemma allSpace_reverse (s : string) : allSpace (reverse s) = allSpace s.
Proof.
  induction s as [|c r IH]; [reflexivity|].
  rewrite reverse_cons, allSpace_app, IH. simpl.
  rewrite andb_true_r. apply andb_comm.
Qed.

(** No byte of a rune of two or three bytes is an ASCII space. *)
Lemma isSpace_isByte n c : (128 <= n)%nat -> isByte n c = true -> isSpace c = false.
Proof.
  unfold isByte, isSpace. intros Hn E. apply Nat.eqb_eq in E. rewrite E.
  repeat (destruct n as [|n]; [lia|]).
  reflexivity.
Qed.

Section Runes.

Variable two : ascii -> ascii -> bool.
Variable three : ascii -> ascii -> ascii -> bool.
Hypothesis two_high :
  forall c d, two c d = true -> isSpace c = false /\ isSpace d = false.
Hypothesis three_high :
  forall c d e, three c d e = true ->
    isSpace c = false /\ isSpace d = false /\ isSpace e = false.

Lemma trimRunes_spaces (pre s : string) :
  allSpace pre = true -> trimRunes two three (pre ++ s) = trimRunes two three s.
Proof.
  induction pre as [|c r IH]; [reflexivity|].
  change (String c r ++ s) with (String c (r ++ s)). simpl.
  intros H. apply andb_true_iff in H as [Hc Hr]. rewrite Hc. auto.
Qed.

Lemma trimRunes_allSpace (s : string) :
  allSpace s = true -> trimRunes two three s = EmptyString.
Proof.
  intros H. rewrite <- (append_empty s). rewrite (trimRunes_spaces _ _ H).
  reflexivity.
Qed.

(** ASCII white space after a text is not read as part of a rune: it is
    left where it is, unless the text is white space to its end. *)
Lemma trimRunes_before_spaces (post : string) :
  allSpace post = true ->
  forall n (s : string), (String.length s <= n)%nat ->
    trimRunes two three (s ++ post) = trimRunes two three s ++ post
    \/ (trimRunes two three (s ++ post) = EmptyString
        /\ trimRunes two three s = EmptyString).
Proof.
  intros Hpost.
  assert (Two : forall c d, isSpace d = true -> two c d = false).
  { intros c d Hd. destruct (two c d) eqn:E; [| reflexivity].
    destruct (two_high _ _ E) as [_ H]. congruence. }
  assert (Three2 : forall c d e, isSpace d = true -> three c d e = false).
  { intros c d e Hd. destruct (three c d e) eqn:E; [| reflexivity].
    destruct (three_high _ _ _ E) as (_ & H & _). congruence. }
  assert (Three3 : forall c d e, isSpace e = true -> three c d e = false).
  { intros c d e He. destruct (three c d e) eqn:E; [| reflexivity].
    destruct (three_high _ _ _ E) as (_ & _ & H). congruence. }
  induction n as [|n IH]; intros s Hs.
  - destruct s; [| simpl in Hs; lia].
    right. split; [apply trimRunes_allSpace, Hpost | reflexivity].
  - destruct s as [|c r].
    { right. split; [apply trimRunes_allSpace, Hpost | reflexivity]. }
    simpl in Hs.
    change (String c r ++ post) with (String c (r ++ post)).
    cbn [trimRunes]. destruct (isSpace c) eqn:Sc; [apply IH; lia|].
    destruct r as [|d r2].
    { left. change (EmptyString ++ post) with post.
      destruct post as [|x post']; [reflexivity|].
      simpl in Hpost. apply andb_true_iff in Hpost as [Hx Hp'].
      cbv iota. rewrite (Two c x Hx).
      destruct post' as [|y post'']; [reflexivity|].
      simpl in Hp'. apply andb_true_iff in Hp' as [Hy _].
      cbv iota. rewrite (Three2 c x y Hx). reflexivity. }
    simpl in Hs.
    change (String d r2 ++ post) with (String d (r2 ++ post)). cbv iota.
    destruct (two c d) eqn:T2; [apply IH; lia|].
    destruct r2 as [|e r3].
    { left. change (EmptyString ++ post) with post.
      destruct post as [|x post']; [reflexivity|].
      simpl in Hpost. apply andb_true_iff in Hpost as [Hx _].
      cbv iota. rewrite (Three3 c d x Hx). reflexivity. }
    simpl in Hs.
    change (String e r3 ++ post) with (String e (r3 ++ post)). cbv iota.
    destruct (three c d e) eqn:T3; [apply IH; lia|].
    left. reflexivity.
Qed.

End Runes.

Lemma isSpace2_high c d :
  isSpace2 c d = true -> isSpace c = false /\ isSpace d = false.
Proof.
  unfold isSpace2. intros H. apply andb_true_iff in H as [Hc Hd].
  split; [apply (isSpace_isByte 194 c); [lia | exact Hc]|].
  apply orb_true_iff in Hd as [Hd|Hd];
    [apply (isSpace_isByte 133 d) | apply (isSpace_isByte 160 d)];
    first [lia | exact Hd].
Qed.

Lemma isSpace_high (c : ascii) :
  (128 <= nat_of_ascii c)%nat -> isSpace c = false.
Proof.
  intros H. apply (isSpace_isByte (nat_of_ascii c) c H).
  unfold isByte. apply Nat.eqb_refl.
Qed.

Lemma isByte_high n c : (128 <= n)%nat -> isByte n c = true -> (128 <= nat_of_ascii c)%nat.
Proof. unfold isByte. intros Hn E. apply Nat.eqb_eq in E. lia. Qed.

Lemma isSpace3_high c d e :
  isSpace3 c d e = true ->
  isSpace c = false /\ isSpace d = false /\ isSpace e = false.
Proof.
  unfold isSpace3. rewrite !orb_true_iff, !andb_true_iff, !orb_true_iff.
  rewrite !andb_true_iff, !Nat.leb_le.
  intros H.
  repeat split; apply isSpace_high;
    repeat match goal with
           | H : _ \/ _ |- _ => destruct H
           | H : _ /\ _ |- _ => destruct H
           | H : isByte ?n ?x = true |- _ =>
               apply (isByte_high n x) in H; [| lia]
           end; lia.
Qed.

Lemma trimLeft_spaces (pre s : string) :
  allSpace pre = true -> trimLeft (pre ++ s) = trimLeft s.
Proof. apply trimRunes_spaces. Qed.

Lemma trimRight_spaces (s post : string) :
  allSpace post = true -> trimRight (s ++ post) = trimRight s.
Proof.
  intros Hp. unfold trimRight. rewrite reverse_app, trimRunes_spaces; [reflexivity|].
  rewrite allSpace_reverse. exact Hp.
Qed.

Lemma trimRight_allSpace (s : string) :
  allSpace s = true -> trimRight s = EmptyString.
Proof.
  intros H. unfold trimRight. rewrite trimRunes_allSpace; [reflexivity|].
  rewrite allSpace_reverse. exact H.
Qed.

Lemma trimLeft_allSpace (s : string) :
  allSpace s = true -> trimLeft s = EmptyString.
Proof. apply trimRunes_allSpace. Qed.

Lemma TrimSpace_spaces (pre s post : string) :
  allSpace pre = true -> allSpace post = true ->
  TrimSpace (pre ++ s ++ post) = TrimSpace s.
Proof.
  intros Hpre Hpost. unfold TrimSpace. rewrite (trimLeft_spaces _ _ Hpre).
  destruct (trimRunes_before_spaces isSpace2 isSpace3 isSpace2_high isSpace3_high
              post Hpost (String.length s) s (Nat.le_refl _)) as [E|[E1 E2]].
  - unfold trimLeft. rewrite E. apply trimRight_spaces, Hpost.
  - unfold trimLeft. rewrite E1, E2. reflexivity.
Qed.

(** White space of more than one byte is trimmed on both sides: here a
    no-break space (C2 A0) before, and a line separator (E2 80 A8) and a
    newline after; a lone continuation byte (85) is not white space and
    stays. *)
Example TrimSpace_runes :
  TrimSpace (String "194" (String "160" ("{}"
               ++ String "226" (String "128" (String "168" (String newline "")))))) = "{}"
  /\ TrimSpace (String "133" (String " " "[]")) = String "133" (String " " "[]")
  /\ TrimSpace (String "227" (String "128" (String "128" ""))) = "".
Proof. repeat split. Qed.

End StringFacts.

(** ** The error model *)

Section ErrorModel.

Variable Sprintf : string -> list arg -> string.

Lemma valuesBefore_option (a : list arg) opt (b : list arg) :
  valuesBefore (a ++ ArgOption opt :: b) = valuesBefore a.
Proof.
  induction a as [|[o|v] a IH]; simpl; [reflexivity | reflexivity |].
  rewrite IH. reflexivity.
Qed.

Lemma valuesBefore_values (a : list arg) :
  optionsOf a = [] -> valuesBefore a = a.
Proof.
  induction a as [|[o|v] a IH]; simpl; [reflexivity | discriminate |].
  intros H. rewrite (IH H). reflexivity.
Qed.

Lemma optionsOf_app (a b : list arg) :
  optionsOf (a ++ b) = (optionsOf a ++ optionsOf b)%list.
Proof.
  induction a as [|[o|v] a IH]; simpl; [reflexivity | |]; rewrite IH; reflexivity.
Qed.

Lemma optionsOf_values (vs : list iface) : optionsOf (map ArgValue vs) = [].
Proof. induction vs; simpl; auto. Qed.

(** The loop of [Error2]: once the arguments from index [n] on are
    values, [n] turns leave the values before the first option, and have
    applied the options from the last to the first. *)
Lemma Error2Loop_spec (n : nat) (args : list arg) (result : RPCError) :
  (n <= length args)%nat ->
  optionsOf (drop n args) = [] ->
  Error2Loop n args result
  = (valuesBefore args,
     fold_right (fun opt r => opt r) result (optionsOf args)).
Proof.
  revert args result. induction n as [|i IH]; intros args result Hn Hd.
  - rewrite drop_0 in Hd. simpl. rewrite Hd, (valuesBefore_values _ Hd). reflexivity.
  - simpl. destruct (args !! i) as [a|] eqn:E.
    2: { apply lookup_ge_None in E. lia. }
    pose proof (take_drop_middle args i a E) as M.
    destruct a as [opt|v].
    + rewrite IH.
      * rewrite <- M at 3 4. rewrite valuesBefore_option, optionsOf_app. simpl.
        rewrite Hd, fold_right_app. reflexivity.
      * rewrite length_take. lia.
      * rewrite drop_ge; [reflexivity | rewrite length_take; lia].
    + apply IH; [lia|].
      rewrite (drop_S args (ArgValue v) i E). simpl. exact Hd.
Qed.

Lemma append_same (a b : string) : a ++ b = a -> b = EmptyString.
Proof.
  induction a as [|c a IH]; [auto|].
  change (String c (a ++ b) = String c a -> b = EmptyString).
  intros E. injection E as E. auto.
Qed.

(** X1.  [Error2] applies every option among its arguments, the last one
    first, to the error of the given name and message; then, when values
    come before the first option, the message becomes the format applied
    to exactly those values.  Values that follow an option are never
    formatted. *)
Theorem Error2_options_and_values (name message : string) (args : list arg) :
  Error2 Sprintf name message args
  = let result :=
      fold_right (fun opt r => opt r) (Error name message) (optionsOf args) in
    match valuesBefore args with
    | [] => result
    | values => withMessage result (Sprintf message values)
    end.
Proof.
  unfold Error2. rewrite Error2Loop_spec; [| lia | rewrite drop_all; reflexivity].
  unfold Error. destruct (valuesBefore args); reflexivity.
Qed.

(** X2.  The two styles of construction agree: [Error2] given values and
    then the options [Wrap(err)] and [Data(d)] builds the error that
    [Error] given the values builds, with [Wrap] and [Data] called on it. *)
Theorem Error2_agrees_with_Error (name message : string) (values : list iface)
  (err : error) (d : iface) :
  Error2 Sprintf name message (map ArgValue values)
  = ErrorArgs Sprintf name message (map ArgValue values)
  /\ Error2 Sprintf name message
       (map ArgValue values ++ [WrapOption err; DataOption d])
     = Data (Wrap (ErrorArgs Sprintf name message (map ArgValue values)) err) d.
Proof.
  unfold Error2. split.
  - rewrite Error2Loop_spec; [| lia | rewrite drop_all; reflexivity].
    rewrite optionsOf_values, (valuesBefore_values _ (optionsOf_values values)).
    unfold ErrorArgs. simpl. destruct (map ArgValue values); reflexivity.
  - rewrite Error2Loop_spec; [| lia | rewrite drop_all; reflexivity].
    unfold WrapOption, DataOption. rewrite !valuesBefore_option.
    rewrite optionsOf_app, optionsOf_values.
    rewrite (valuesBefore_values _ (optionsOf_values values)).
    unfold ErrorArgs, Data, Wrap. simpl.
    destruct (map ArgValue values); reflexivity.
Qed.

(** X3.  A parse error is named parse_error and wraps its cause; its
    message is the given message alone exactly when the cause is neither
    a syntax error nor a type error of the decoder, and begins with the
    given message in every case. *)
Theorem ParseError_message (err : goerror) (msg : string) :
  Name (ParseError err msg) = "parse_error"
  /\ wrapped (ParseError err msg) = Some err
  /\ (Message (ParseError err msg) = msg <-> isDescribed err = false)
  /\ exists rest, Message (ParseError err msg) = msg ++ rest.
Proof.
  split; [reflexivity|]. split; [reflexivity|].
  unfold ParseError. simpl.
  destruct err as [e| |m o|v t o f text|text verbose]; simpl.
  - split; [split; reflexivity | exists EmptyString].
    symmetry. apply append_empty.
  - split; [split; reflexivity | exists EmptyString].
    symmetry. apply append_empty.
  - split; [| eexists; reflexivity].
    split; [| discriminate]. intros E. apply append_same in E. discriminate.
  - split; [| eexists; reflexivity].
    split; [| discriminate]. intros E. apply append_same in E. discriminate.
  - split; [split; reflexivity | exists EmptyString].
    symmetry. apply append_empty.
Qed.

(** X4.  When an encoded error has details, the error was marked for
    dumping and wraps a cause; the details are at least one line, no
    line holds a tab or a newline, and the lines joined by newlines are
    the cause's text with every tab replaced by two spaces. *)
Theorem MarshalJSON_lines (e : RPCError) (lines : list string) :
  jDetails (MarshalJSON e) = Some lines ->
  dumpErrors e = true
  /\ lines <> []
  /\ Forall cleanLine lines
  /\ exists cause,
       wrapped e = Some cause
       /\ join (String newline EmptyString) lines
          = replaceAll tab "  " (formatPlusV cause).
Proof.
  rewrite MarshalJSON_details.
  destruct (dumpErrors e); [| discriminate].
  destruct (wrapped e) as [cause|]; [| discriminate].
  intros E. injection E as <-.
  split; [reflexivity|]. split; [apply split_nonempty|]. split.
  - pose proof (split_pieces newline tab (replaceAll tab "  " (formatPlusV cause))) as P.
    eapply Forall_impl; [exact P|]. intros line [Hn Ht]. split; [| exact Hn].
    apply Ht, replaceAll_hasByte. reflexivity.
  - exists cause. split; [reflexivity | apply join_split].
Qed.

End ErrorModel.

(** ** The parse of the body *)

Section Parse.
Context {World : Type}.
Context `{codec : Codec}.
Implicit Types (h : @Handler World) (w : World).

Lemma distinctIDs_cons (a : request.t) (l : list request.t) :
  distinctIDs (a :: l)
  <-> Forall (fun b => ifaceEq (request.ID b) (request.ID a) = false) l
      /\ distinctIDs l.
Proof.
  unfold distinctIDs. split.
  - intros H. split.
    + apply Forall_lookup. intros j b Hb.
      apply (H 0%nat (S j) a b); [lia | reflexivity | exact Hb].
    + intros i j x y Hij Hx Hy. apply (H (S i) (S j) x y); [lia | exact Hx | exact Hy].
  - intros [Ha Hl] i j x y Hij Hx Hy.
    destruct j as [|j]; [lia|]. simpl in Hy.
    destruct i as [|i]; simpl in Hx.
    + injection Hx as <-. rewrite Forall_lookup in Ha. exact (Ha j y Hy).
    + apply (Hl i j x y); [lia | exact Hx | exact Hy].
Qed.

Lemma omap_Some (l : list request.t) : omap id (map Some l) = l.
Proof. induction l as [|a l IH]; [reflexivity | cbn; f_equal; exact IH]. Qed.

(** The loop on ids passes exactly the lists of records, none nil, whose
    ids all have a hash, differ from the keys already seen and differ
    from one another. *)
Lemma assertUnique_passes (uniq : list jsonValue) (result : list (option request.t)) :
  assertUnique uniq result = Done None ->
  exists requests,
    result = map Some requests
    /\ Forall (fun a => hashable (request.ID a) = true) requests
    /\ Forall (fun a => existsb (ifaceEq (request.ID a)) uniq = false) requests
    /\ distinctIDs requests.
Proof.
  revert uniq. induction result as [|[a|] rest IH]; intros uniq; simpl.
  - intros _. exists []. repeat split; try constructor.
    intros i j x y _ Hx. discriminate.
  - destruct (hashable (request.ID a)) eqn:Hh; simpl; [| discriminate].
    destruct (existsb (ifaceEq (request.ID a)) uniq) eqn:Hu; [discriminate|].
    intros A. destruct (IH _ A) as (requests & -> & H1 & H2 & H3).
    exists (a :: requests). split; [reflexivity|].
    split; [constructor; assumption|].
    split.
    + constructor; [exact Hu|].
      eapply Forall_impl; [exact H2|]. intros b Hb. simpl in Hb.
      apply orb_false_iff in Hb as [_ Hb]. exact Hb.
    + apply distinctIDs_cons. split; [| exact H3].
      eapply Forall_impl; [exact H2|]. intros b Hb. simpl in Hb.
      apply orb_false_iff in Hb as [Hb _]. exact Hb.
  - discriminate.
Qed.

Lemma assertUnique_prefix (uniq : list jsonValue) (pre : list request.t)
  (rest : list (option request.t)) :
  Forall (fun a => hashable (request.ID a) = true) pre ->
  Forall (fun a => existsb (ifaceEq (request.ID a)) uniq = false) pre ->
  distinctIDs pre ->
  assertUnique uniq (map Some pre ++ rest)%list
  = assertUnique (rev (map request.ID pre) ++ uniq)%list rest.
Proof.
  revert uniq. induction pre as [|a pre IH]; intros uniq Hh Hu Hd; [reflexivity|].
  inversion Hh as [|? ? Ha Hh']; subst. inversion Hu as [|? ? Hua Hu']; subst.
  apply distinctIDs_cons in Hd as [Hda Hd'].
  simpl. rewrite Ha, Hua. simpl. rewrite IH; try assumption.
  - rewrite <- app_assoc. reflexivity.
  - apply Forall_forall. intros b Hb.
    rewrite Forall_forall in Hu', Hda. simpl.
    rewrite (Hda b Hb), (Hu' b Hb). reflexivity.
Qed.

(** X5.  What [parseRequests] hands to the dispatch: the body was read,
    there is at least one record, every id has a hash and no two ids are
    equal; the records are the single object the decoder read when the
    trimmed body starts with a brace, the elements of the array
    otherwise. *)
Theorem parseRequests_returns (r : http.Request) (requests : list request.t) :
  parseRequests r = Done (inr requests) ->
  http.BodyErr r = None
  /\ requests <> []
  /\ Forall (fun a => hashable (request.ID a) = true) requests
  /\ distinctIDs requests
  /\ (if startsObject (TrimSpace (http.Body r))
      then exists req, requests = [req]
             /\ decodeRequest (TrimSpace (http.Body r)) = inr req
      else decodeRequests (TrimSpace (http.Body r)) = inr (map Some requests)).
Proof.
  unfold parseRequests. destruct (http.BodyErr r); [discriminate|].
  intros P. split; [reflexivity|].
  set (body := TrimSpace (http.Body r)) in *.
  assert (K : forall result,
    (if Nat.eqb (length result) 0
     then Done (inl (ErrRPC (InvalidRequest "empty batch")))
     else match assertUnique [] result with
          | Done (Some err) => Done (inl (ErrRPC err))
          | Done None => Done (inr (omap id result))
          | Panicked v => Panicked v
          end) = Done (inr requests) ->
    result = map Some requests /\ requests <> []
    /\ Forall (fun a => hashable (request.ID a) = true) requests
    /\ distinctIDs requests).
  { intros result. destruct (Nat.eqb (length result) 0) eqn:L; [discriminate|].
    destruct (assertUnique [] result) as [[e|]|v] eqn:A; try discriminate.
    intros E. injection E as <-.
    destruct (assertUnique_passes _ _ A) as (reqs & -> & H1 & _ & H3).
    rewrite omap_Some. repeat split; try assumption.
    intros ->. discriminate. }
  destruct (startsObject body).
  - destruct (decodeRequest body) as [err|req]; [discriminate|].
    destruct (K [Some req] P) as (E & N & H1 & H3).
    destruct requests as [|q [|q2 qs]]; try discriminate.
    injection E as ->. repeat split; try assumption. eauto.
  - destruct (decodeRequests body) as [err|result]; [discriminate|].
    destruct (K result P) as (-> & N & H1 & H3). repeat split; assumption.
Qed.

(** X6.  White space around the body changes nothing of the parse. *)
Theorem parseRequests_trims (pre body post : string) (e : error) :
  allSpace pre = true -> allSpace post = true ->
  parseRequests (http.mkRequest (pre ++ body ++ post) e)
  = parseRequests (http.mkRequest body e).
Proof.
  intros Hpre Hpost. unfold parseRequests. simpl.
  rewrite (TrimSpace_spaces pre body post Hpre Hpost). reflexivity.
Qed.

(** X7.  The answers of [ServeHTTP] have status 200 or 400.  An answer of
    status 400 is a single object with a null id, no result and an
    invalid_request or parse_error error, sent without any handler having
    run: the world is untouched.  An answer of status 200 follows a
    successful parse. *)
Theorem ServeHTTP_status h r w w' (resp : HTTPResponse) :
  ServeHTTP h r w = (w', Done resp) ->
  (StatusCode resp = 200%Z
   /\ exists requests, parseRequests r = Done (inr requests))
  \/ (StatusCode resp = 400%Z
      /\ w' = w
      /\ exists e,
           Payload resp = Object (response.mk None (Some e) Nil)
           /\ (Name e = "invalid_request" \/ Name e = "parse_error")).
Proof.
  unfold ServeHTTP.
  destruct (parseRequests r) as [[err|requests]|v] eqn:P; [| | discriminate].
  - intros E. injection E as <- E. apply sendJSON_Done in E. subst resp.
    destruct (parseRequests_error r err P) as (e & -> & _ & _ & N).
    right. split; [reflexivity|]. split; [reflexivity|].
    exists e. split; [reflexivity | exact N].
  - destruct (respondAll h _ requests w) as [w1 responses].
    destruct (Nat.eqb (length requests) 1).
    + destruct (if DumpErrors h then map setDumpErrors responses else responses);
        [discriminate|].
      intros E. injection E as <- E. apply sendJSON_Done in E. subst resp.
      left. split; [reflexivity | eauto].
    + intros E. injection E as <- E. apply sendJSON_Done in E. subst resp.
      left. split; [reflexivity | eauto].
Qed.

(** X8.  An empty array, and any body the decoder reads as no record at
    all, is refused with status 400, invalid_request and "empty batch",
    whatever the handler holds. *)
Theorem ServeHTTP_empty_batch h r w :
  http.BodyErr r = None ->
  startsObject (TrimSpace (http.Body r)) = false ->
  decodeRequests (TrimSpace (http.Body r)) = inr [] ->
  ServeHTTP h r w
  = (w, Done (mkHTTPResponse 400
                (Object (response.mk None (Some (InvalidRequest "empty batch"))
                           Nil)))).
Proof.
  intros Hb Hs Hd. apply ServeHTTP_rejected with (err := ErrRPC (InvalidRequest "empty batch")).
  unfold parseRequests. rewrite Hb, Hs, Hd. reflexivity.
Qed.

(** X9.  A [null] among the elements of a batch, after records whose ids
    have a hash and differ, is a nil pointer the loop on ids reads
    through: [ServeHTTP] panics and sends nothing. *)
Theorem ServeHTTP_null_element h r w (pre : list request.t)
  (post : list (option request.t)) :
  http.BodyErr r = None ->
  startsObject (TrimSpace (http.Body r)) = false ->
  decodeRequests (TrimSpace (http.Body r))
  = inr (map Some pre ++ None :: post)%list ->
  Forall (fun a => hashable (request.ID a) = true) pre ->
  distinctIDs pre ->
  ServeHTTP h r w = (w, Panicked nilDereference).
Proof.
  intros Hb Hs Hd Hh Hdist. apply ServeHTTP_crashed.
  unfold parseRequests. rewrite Hb, Hs, Hd.
  rewrite length_app, length_map. simpl length.
  replace (Nat.eqb (length pre + S (length post)) 0) with false
    by (symmetry; apply Nat.eqb_neq; lia).
  rewrite (assertUnique_prefix [] pre (None :: post) Hh); [reflexivity | | exact Hdist].
  apply Forall_forall. intros; reflexivity.
Qed.

End Parse.

(** ** The dispatch of a record *)

Section DispatchMore.
Context {World : Type}.
Context `{codec : Codec}.
Implicit Types (h : @Handler World) (m : @method World) (w : World).

Lemma isNumberOrString_hashable (id : jsonValue) :
  isNumberOrString id = true -> hashable id = true.
Proof. destruct id; simpl; congruence. Qed.

(** The response to a dispatched record, from what its pipeline did. *)
Lemma respond_dispatched h ctx req m p w w' (o : exec (iface * error)) :
  dispatched h req m p ->
  call m (WithMethod ctx (request.Method req)) p w = (w', o) ->
  respond h ctx req w = (w', responseTo (request.ID req) o).
Proof.
  intros D C. unfold respond.
  rewrite (invokeMethod_dispatched h ctx req m p w D).
  unfold callRecovered. rewrite C.
  destruct o as [[result [err|]]|v]; simpl; [| reflexivity |].
  - destruct err; reflexivity.
  - destruct v; reflexivity.
Qed.

(** X10.  An RPC error the pipeline returns reaches the response as it
    is, name, message, data and cause; the result returned along with it
    is dropped, and the id is the request's. *)
Theorem respond_rpc_error h ctx req m p w w' (result : iface) (e : RPCError) :
  dispatched h req m p ->
  call m (WithMethod ctx (request.Method req)) p w
  = (w', Done (result, Some (ErrRPC e))) ->
  respond h ctx req w = (w', response.mk None (Some e) (request.ID req)).
Proof.
  intros D C. unfold respond.
  rewrite (invokeMethod_dispatched h ctx req m p w D).
  unfold callRecovered. rewrite C. reflexivity.
Qed.

(** X11.  An error the pipeline returns that does not hold an
    [*RPCError] is sent as internal_error, "internal error", without
    data: nothing of the error is shown unless [DumpErrors] is set, and
    then its text is, line by line, under details. *)
Theorem respond_foreign_error h ctx req m p w w' (result : iface) (err : goerror) :
  dispatched h req m p ->
  call m (WithMethod ctx (request.Method req)) p w
  = (w', Done (result, Some err)) ->
  holdsRPCError err = false ->
  encodeResponse (dumped h (snd (respond h ctx req w)))
  = mkResponseJSON None
      (Some (mkErrorJSON "internal_error" "internal error" None
               (if DumpErrors h
                then Some (split newline (replaceAll tab "  " (formatPlusV err)))
                else None)))
      (request.ID req).
Proof.
  intros D C N. unfold respond.
  rewrite (invokeMethod_dispatched h ctx req m p w D).
  unfold callRecovered. rewrite C.
  assert (T : afterCall (result, Some err)
              = (None, Some (ErrRPC (InternalError (Some err))))).
  { destruct err; try discriminate N; reflexivity. }
  rewrite T. cbn [snd translateError].
  unfold dumped, setDumpErrors, encodeResponse.
  destruct (DumpErrors h); cbn; [| reflexivity].
  f_equal. f_equal. unfold MarshalJSON. cbn. f_equal.
  unfold omitemptySlice.
  destruct (split newline _) eqn:E; [destruct (split_nonempty _ _ E) | reflexivity].
Qed.

(** X12.  A single object naming a method that is not registered is
    answered with status 200 and method_not_found, "method not found: "
    and the name, the id of the request, no details, and no handler
    runs. *)
Theorem ServeHTTP_method_not_found h r w req :
  http.BodyErr r = None ->
  startsObject (TrimSpace (http.Body r)) = true ->
  decodeRequest (TrimSpace (http.Body r)) = inr req ->
  isNumberOrString (request.ID req) = true ->
  methods h !! request.Method req = None ->
  exists resp,
    ServeHTTP h r w = (w, Done (mkHTTPResponse 200 (Object resp)))
    /\ encodeResponse resp
       = mkResponseJSON None
           (Some (mkErrorJSON "method_not_found"
                    ("method not found: " ++ request.Method req) None None))
           (request.ID req).
Proof.
  intros Hb Hs Hd Hid Hm.
  rewrite (ServeHTTP_parsed h r w [req]
             (parseRequests_single r req Hb Hs Hd
                (isNumberOrString_hashable _ Hid))).
  simpl. unfold respond.
  rewrite (invokeMethod_not_found h _ req w Hid Hm). simpl.
  rewrite sendJSON_dumped_plain by reflexivity.
  eexists. split; [reflexivity|].
  unfold dumped. destruct (DumpErrors h); reflexivity.
Qed.

(** X13.  When the params of a record do not decode into the declared
    type, the record is answered with the parse error "cannot parse
    params" wrapping the decoder's error, and the pipeline is not
    called. *)
Theorem invokeMethod_params_rejected h ctx req m t (err : goerror) w :
  isNumberOrString (request.ID req) = true ->
  methods h !! request.Method req = Some m ->
  paramsType m = Some t ->
  (reflect.ptrDepth t <= 1)%nat ->
  decodeInto (request.Params req) (Zero t) = inl err ->
  invokeMethod h ctx req w
  = (w, (None, Some (ErrRPC (ParseError err "cannot parse params")))).
Proof.
  intros Hid Hm Hp Hd He. unfold invokeMethod, invokeMethodBody.
  rewrite Hid, Hm, Hp. simpl. rewrite (newParams_shallow m t Hp Hd).
  unfold Unmarshal, reflect_New. rewrite He. reflexivity.
Qed.

(** X14.  A record whose pipeline panics with a value that is not nil is
    answered with internal_error wrapping the value, and the batch goes
    on: the records before it and after it are answered as they are on
    their own, the later ones from the world the panicking call left. *)
Theorem respondAll_isolates_panic h ctx (pre post : list request.t) req m p
  w w1 w2 w3 (before after : list response.t) (v : panicValue) :
  respondAll h ctx pre w = (w1, before) ->
  dispatched h req m p ->
  call m (WithMethod ctx (request.Method req)) p w1 = (w2, Panicked v) ->
  v <> PanicNil ->
  respondAll h ctx post w2 = (w3, after) ->
  respondAll h ctx (pre ++ req :: post)%list w
  = (w3,
     (before
      ++ response.mk None (Some (InternalError (panicCause v))) (request.ID req)
      :: after)%list).
Proof.
  intros E1 D C N E3. rewrite respondAll_app, E1. simpl. unfold respond.
  destruct (invokeMethod_recovers h ctx req m p w1 w2 v D C N) as [-> _].
  simpl. rewrite E3. reflexivity.
Qed.

(** The engine itself never touches the world: after a record the
    world is the one before it, or the one the record's pipeline left. *)
Lemma invokeMethod_world h ctx req w :
  fst (invokeMethod h ctx req w) = w
  \/ exists m p,
       dispatched h req m p
       /\ fst (invokeMethod h ctx req w)
          = fst (call m (WithMethod ctx (request.Method req)) p w).
Proof.
  unfold invokeMethod, invokeMethodBody.
  destruct (isNumberOrString (request.ID req)) eqn:Hid; simpl; [| left; reflexivity].
  destruct (methods h !! request.Method req) as [m|] eqn:Hm; simpl;
    [| left; reflexivity].
  destruct (paramsType m) as [t|] eqn:Hp.
  - destruct (newParams m) as [ptr|v] eqn:Hn; simpl; [| left; reflexivity].
    destruct (Unmarshal (request.Params req) ptr) as [err|ptr'] eqn:Hu; simpl;
      [left; reflexivity|].
    destruct (ElemInterface ptr') as [p|v] eqn:He; simpl; [| left; reflexivity].
    right. exists m, p. split; [eapply dispatched_params; eauto|].
    destruct (call m _ p w) as [w' [r0|v]]; reflexivity.
  - right. exists m, None. split; [apply dispatched_context_only; assumption|].
    destruct (call m _ None w) as [w' [r0|v]]; reflexivity.
Qed.



(** X26.  A nil [*RPCError] that the pipeline returns as its error is
    lost: the result returned with it is dropped as for any error, and
    the response carries no error either, so that the record is answered
    with its id alone. *)
Theorem respond_nil_rpc_error h ctx req m p w w' (result : iface) :
  dispatched h req m p ->
  call m (WithMethod ctx (request.Method req)) p w
  = (w', Done (result, Some ErrNilRPC)) ->
  respond h ctx req w = (w', response.mk None None (request.ID req))
  /\ encodeResponse (dumped h (response.mk None None (request.ID req)))
     = mkResponseJSON None None (request.ID req).
Proof.
  intros D C. split.
  - rewrite (respond_dispatched h ctx req m p w w' _ D C). reflexivity.
  - unfold dumped. destruct (DumpErrors h); reflexivity.
Qed.

End DispatchMore.

(** ** The registry *)

Section RegistryMore.
Context {World : Type}.
Implicit Types (h : @Handler World) (m : @method World) (s : @Server World).

Lemma validSignature_outputs (In Out : list rtype) :
  validSignature In Out = true -> Out = [typeEmptyInterface; typeError].
Proof.
  unfold validSignature. rewrite !andb_true_iff.
  intros [[[[_ _] Hn] H0] H1].
  destruct Out as [|a [|b [|x l]]]; simpl in *; try discriminate.
  apply Type_eqb_eq in H0, H1. subst. reflexivity.
Qed.

(** X17.  [resolveMethod] accepts exactly the functions, nil ones
    included, that take a context, or a context and one parameter, which
    may be variadic, and return an [interface{}] and an [error]; every
    other value makes it panic.  The method it returns has the given name
    and function, and a parameter type exactly when the function has a
    second input: that input's type, the slice type for a variadic one. *)
Theorem resolveMethod_accepts (g : @Group World) name (f : @MethodFunc World) :
  ((exists m, resolveMethod g name f = Done m)
   <-> (exists In impl,
          f = Func In [typeEmptyInterface; typeError] impl
          /\ (In = [typeContextContext]
              \/ exists t, In = [typeContextContext; t]))
       \/ (exists elem impl,
             f = VariadicFunc [typeContextContext] elem
                   [typeEmptyInterface; typeError] impl)
       \/ (exists In,
             f = NilFunc In [typeEmptyInterface; typeError]
             /\ (In = [typeContextContext]
                 \/ exists t, In = [typeContextContext; t])))
  /\ (forall m, resolveMethod g name f = Done m ->
        methodName m = name /\ fn m = f
        /\ paramsType m = inputs f !! 1%nat).
Proof.
  split; [split|].
  - intros [m R]. destruct (resolveMethod_inv _ _ _ _ R) as (V & _ & _).
    apply (validSignature_shape f V).
  - intros [(In & impl & -> & [->|[t ->]])
           |[(elem & impl & ->)|(In & -> & [->|[t ->]])]];
      eexists; reflexivity.
  - intros m R. destruct (resolveMethod_inv _ _ _ _ R) as (V & P & _).
    rewrite (resolveMethod_valid g name f V) in R. injection R as <-. simpl.
    split; [reflexivity|]. split; [reflexivity|].
    destruct (validSignature_shape f V)
      as [(In & impl & -> & [->|[t ->]])
         |[(elem & impl & ->)|(In & -> & [->|[t ->]])]]; reflexivity.
Qed.

(** X18.  [newParams] returns exactly when the parameter type has at most
    one level of indirection, and then gives a pointer to a new zero
    value of that type; with more levels it panics. *)
Theorem newParams_succeeds m (t : rtype) :
  paramsType m = Some t ->
  ((exists ptr, newParams m = Done ptr) <-> (reflect.ptrDepth t <= 1)%nat)
  /\ (forall ptr, newParams m = Done ptr ->
        ptr = reflect_New t /\ ElemInterface ptr = Done (Interface (Zero t))).
Proof.
  intros Hp.
  assert (A : forall ptr, newParams m = Done ptr -> (reflect.ptrDepth t <= 1)%nat).
  { intros ptr E.
    destruct (Nat.le_gt_cases (reflect.ptrDepth t) 1) as [L|G]; [exact L|].
    destruct (newParamsLoop_deep t G) as [text D].
    unfold newParams in E. rewrite Hp, D in E. discriminate. }
  split; [split|].
  - intros [ptr E]. exact (A ptr E).
  - intros L. exists (reflect_New t). apply newParams_shallow; assumption.
  - intros ptr E. rewrite (newParams_shallow m t Hp (A ptr E)) in E.
    injection E as <-. split; reflexivity.
Qed.

Lemma Register_keeps h (g : @Group World) (ms : list (string * MethodFunc)) h' name m :
  Register h g ms = Done h' ->
  methods h !! name = Some m -> methods h' !! name = Some m.
Proof.
  revert h. induction ms as [|[n f] rest IH]; intros h R Hm; simpl in R.
  - injection R as <-. exact Hm.
  - destruct (methods h !! n) eqn:Hn; [discriminate|].
    destruct (resolveMethod g n f) as [resolved|v]; [| discriminate].
    apply (IH _ R). simpl.
    rewrite lookup_insert_ne; [exact Hm|]. intros ->. congruence.
Qed.

Lemma Register_defines h (g : @Group World) (ms : list (string * MethodFunc)) h' name f :
  Register h g ms = Done h' ->
  In (name, f) ms -> is_Some (methods h' !! name).
Proof.
  revert h. induction ms as [|[n f0] rest IH]; intros h R Hin; simpl in R.
  - destruct Hin.
  - destruct (methods h !! n) eqn:Hn; [discriminate|].
    destruct (resolveMethod g n f0) as [resolved|v]; [| discriminate].
    destruct Hin as [E|Hin].
    + injection E as -> ->. exists resolved.
      apply (Register_keeps _ _ _ _ _ _ R). simpl. apply lookup_insert_eq.
    + exact (IH _ R Hin).
Qed.

(** X19.  When [Register] returns, the names it was given were all
    unregistered and all different; each is now registered as the method
    [resolveMethod] makes of its function on the group; the methods
    registered before are all still there, and nothing else of the
    handler has changed. *)
Theorem Register_registers h (g : @Group World) (ms : list (string * MethodFunc)) h' :
  Register h g ms = Done h' ->
  NoDup (map fst ms)
  /\ (forall name f, In (name, f) ms ->
        methods h !! name = None
        /\ exists m, resolveMethod g name f = Done m
                     /\ methods h' !! name = Some m)
  /\ (forall name, ~ In name (map fst ms) ->
        methods h' !! name = methods h !! name)
  /\ DumpErrors h' = DumpErrors h
  /\ root h' = root h.
Proof.
  revert h. induction ms as [|[n f] rest IH]; intros h R; simpl in R.
  - injection R as <-. split; [constructor|]. split; [intros ? ? []|]. auto.
  - destruct (methods h !! n) eqn:Hn; [discriminate|].
    destruct (resolveMethod g n f) as [resolved|v] eqn:Hr; [| discriminate].
    destruct (IH _ R) as (ND & Hin & Hout & HD & HR). simpl in *.
    assert (Fresh : ~ In n (map fst rest)).
    { intros I. apply in_map_iff in I as [[n' f'] [E I]]. simpl in E. subst n'.
      destruct (Hin n f' I) as [Hnone _].
      rewrite lookup_insert_eq in Hnone. discriminate. }
    split.
    { constructor; [| exact ND]. rewrite list_elem_of_In. exact Fresh. }
    split; [| split; [| split; assumption]].
    + intros name f0 [E|I].
      * injection E as -> ->. split; [exact Hn|].
        exists resolved. split; [exact Hr|].
        rewrite (Hout _ Fresh). apply lookup_insert_eq.
      * destruct (Hin name f0 I) as [Hnone Hm]. split; [| exact Hm].
        destruct (decide (n = name)) as [->|Ne].
        -- rewrite lookup_insert_eq in Hnone. discriminate.
        -- rewrite lookup_insert_ne in Hnone; assumption.
    + intros name Hnot.
      rewrite Hout by (intros I; apply Hnot; right; exact I).
      apply lookup_insert_ne. intros ->. apply Hnot. left. reflexivity.
Qed.

(** X20.  One registry for the whole tree: a name registered through a
    group cannot be registered again, through that group or any other;
    the second [Register] panics with "jsonrpc: method already
    registered: " and the name. *)
Theorem Register_twice h (g : @Group World)
  (ms : list (string * MethodFunc)) h' name f
  (g' : @Group World) (f' : MethodFunc) (rest : list (string * MethodFunc)) :
  Register h g ms = Done h' ->
  In (name, f) ms ->
  Register h' g' ((name, f') :: rest)
  = Panicked (PanicOther ("jsonrpc: method already registered: " ++ name)).
Proof.
  intros R I. destruct (Register_defines _ _ _ _ _ _ R I) as [m Hm].
  simpl. rewrite Hm. reflexivity.
Qed.

(** *** The heap of groups *)

Lemma groupAt_below (G G' : list (@groupObject World)) (a : nat) :
  wellFormed G ->
  (forall g, (g < a)%nat -> G' !! g = G !! g) ->
  forall fuel (g : nat), (g < a)%nat -> groupAt fuel G' g = groupAt fuel G g.
Proof.
  intros W Same. induction fuel as [|fuel IH]; intros g Hg; [reflexivity|].
  simpl. rewrite (Same g Hg).
  destruct (G !! g) as [o|] eqn:E; [| reflexivity].
  destruct (objParent o) as [q|] eqn:P; [| reflexivity].
  rewrite IH; [reflexivity|]. pose proof (W g o q E P). lia.
Qed.

Lemma effectiveChain_groupAt (fuel : nat) (G : list (@groupObject World))
  (g : nat) o :
  G !! g = Some o ->
  effectiveChain (groupAt (S fuel) G g)
  = (match objParent o with
     | Some q => effectiveChain (groupAt fuel G q)
     | None => []
     end ++ objMiddleware o)%list.
Proof. intros E. simpl. rewrite E. destruct (objParent o); reflexivity. Qed.

(** X21.  Groups are shared objects.  A subgroup starts with the chain
    of middleware of its parent; middleware given to the parent after
    the subgroup was made reaches the subgroup all the same, and a
    method then registered on the subgroup is wrapped in the parent's
    chain with the new layers innermost. *)
Theorem Use_reaches_subgroups s (p : nat) (mws : list Middleware) s1 c s2 :
  wellFormed (srvGroups s) ->
  (p < length (srvGroups s))%nat ->
  GroupOn s p = (s1, c) ->
  UseOn s1 p mws = Done s2 ->
  effectiveChain (groupOf s1 c) = effectiveChain (groupOf s p)
  /\ effectiveChain (groupOf s2 c) = (effectiveChain (groupOf s p) ++ mws)%list
  /\ forall name (f : MethodFunc) s3,
       RegisterOn s2 c [(name, f)] = Done s3 ->
       exists m,
         srvMethods s3 !! name = Some m
         /\ call m
            = wrap (effectiveChain (groupOf s p) ++ mws)%list
                (rawCall f (paramsType m)).
Proof.
  intros W Hp HG HU.
  unfold GroupOn in HG. injection HG as <- <-.
  unfold UseOn in HU. simpl in HU.
  destruct (negb (Nat.eqb (size (srvMethods s)) 0)) eqn:Z; [discriminate|].
  injection HU as <-.
  destruct (lookup_lt_is_Some_2 _ _ Hp) as [op Eop].
  set (G := srvGroups s) in *.
  set (oc := mkGroupObject (Some p) ([] : list (@Middleware World))).
  set (f := fun o : @groupObject World =>
              mkGroupObject (objParent o) (objMiddleware o ++ mws)%list).
  assert (Lc : (G ++ [oc])%list !! length G = Some oc).
  { rewrite lookup_app_r by lia. rewrite Nat.sub_diag. reflexivity. }
  assert (Below : forall g, (g < length G)%nat -> (G ++ [oc])%list !! g = G !! g).
  { intros g Hg. apply lookup_app_l. exact Hg. }
  destruct (length G) as [|n] eqn:LG; [lia|].
  assert (Chain_p : effectiveChain (groupAt (S n) G p)
                    = (match objParent op with
                       | Some q => effectiveChain (groupAt n G q)
                       | None => []
                       end ++ objMiddleware op)%list)
    by (apply effectiveChain_groupAt, Eop).
  assert (C1 : effectiveChain (groupAt (S (S n)) (G ++ [oc])%list (S n))
               = effectiveChain (groupAt (S n) G p)).
  { rewrite (effectiveChain_groupAt _ _ _ oc Lc). simpl objParent.
    rewrite app_nil_r.
    rewrite (groupAt_below G (G ++ [oc])%list (S n) W Below (S n) p Hp). reflexivity. }
  assert (C2 : effectiveChain (groupAt (S (S n)) (alter f p (G ++ [oc])%list) (S n))
               = (effectiveChain (groupAt (S n) G p) ++ mws)%list).
  { assert (L2 : alter f p (G ++ [oc])%list !! S n = Some oc).
    { rewrite list_lookup_alter_ne by lia. exact Lc. }
    rewrite (effectiveChain_groupAt _ _ _ oc L2). simpl objParent.
    rewrite app_nil_r.
    assert (Lp : alter f p (G ++ [oc])%list !! p = Some (f op)).
    { rewrite list_lookup_alter_eq, Below, Eop by lia. reflexivity. }
    rewrite (effectiveChain_groupAt _ _ _ (f op) Lp).
    change (objParent (f op)) with (objParent op).
    change (objMiddleware (f op)) with (objMiddleware op ++ mws)%list.
    rewrite Chain_p, app_assoc. f_equal. f_equal.
    destruct (objParent op) as [q|] eqn:Pq; [| reflexivity].
    pose proof (W p op q Eop Pq) as Hq.
    rewrite (groupAt_below G (alter f p (G ++ [oc])%list) p W); [reflexivity | | exact Hq].
    intros g Hg. rewrite list_lookup_alter_ne by lia. apply Below. lia. }
  assert (Len : length (alter f p (G ++ [oc])%list) = S (S n))
    by (rewrite length_alter, length_app, LG; simpl; lia).
  assert (Len1 : length (G ++ [oc])%list = S (S n))
    by (rewrite length_app, LG; simpl; lia).
  unfold groupOf. cbn [srvGroups]. fold G. fold oc. fold f.
  rewrite Len, Len1, LG.
  split; [exact C1|]. split; [exact C2|].
  intros name f0 s3 R. unfold RegisterOn, handlerOf, groupOf in R.
  cbn [srvGroups srvMethods srvDumpErrors] in R. fold G in R. fold oc in R.
  fold f in R. rewrite Len in R. cbn [Register methods] in R.
  destruct (srvMethods s !! name) eqn:Hn; [discriminate|].
  destruct (resolveMethod _ name f0) as [m|v] eqn:Hr; [| discriminate].
  injection R as <-. simpl. exists m. split; [apply lookup_insert_eq|].
  destruct (resolveMethod_inv _ _ _ _ Hr) as (_ & _ & Cm).
  rewrite Cm, applyMiddleware_wrap, C2. reflexivity.
Qed.

(** X22.  Middleware comes before methods: once [Register] has returned
    with at least one method, every [Use], on any group, panics with
    "jsonrpc: middleware must be registered before methods". *)
Theorem Use_after_Register s (g : nat) (ms : list (string * MethodFunc)) s'
  (g' : nat) (mws : list Middleware) :
  RegisterOn s g ms = Done s' ->
  ms <> [] ->
  UseOn s' g' mws
  = Panicked (PanicOther "jsonrpc: middleware must be registered before methods").
Proof.
  intros R N. unfold RegisterOn in R.
  destruct (Register (handlerOf s) (groupOf s g) ms) as [h'|v] eqn:E; [| discriminate].
  injection R as <-. unfold UseOn. simpl.
  destruct ms as [|[name f] rest]; [destruct (N eq_refl)|].
  destruct (Register_defines _ _ _ _ name f E (or_introl eq_refl)) as [m Hm].
  destruct (size (methods h')) eqn:Z; [| reflexivity].
  apply map_size_empty_iff in Z. rewrite Z, lookup_empty in Hm. discriminate.
Qed.

(** X23.  The heap stays well formed: every group's parent was made
    before it, from [New] on and through [Group], [Use] and [Register];
    so the walk from a group to its ancestors always ends. *)
Theorem wellFormed_kept :
  wellFormed (srvGroups (@NewServer World))
  /\ (forall s g, wellFormed (srvGroups s) -> (g < length (srvGroups s))%nat ->
        wellFormed (srvGroups (fst (GroupOn s g))))
  /\ (forall s g mws s', wellFormed (srvGroups s) ->
        UseOn s g mws = Done s' -> wellFormed (srvGroups s'))
  /\ (forall s g ms s', wellFormed (srvGroups s) ->
        RegisterOn s g ms = Done s' -> wellFormed (srvGroups s')).
Proof.
  split; [| split; [| split]].
  - intros g o p E P. destruct g as [|g]; simpl in E; [| discriminate].
    injection E as <-. discriminate.
  - intros s g W Hg i o p E P. simpl in E.
    destruct (decide (i < length (srvGroups s))%nat) as [Hi|Hi].
    + rewrite lookup_app_l in E by exact Hi. exact (W i o p E P).
    + rewrite lookup_app_r in E by lia.
      destruct (i - length (srvGroups s))%nat as [|k] eqn:K; simpl in E;
        [| discriminate].
      injection E as <-. simpl in P. injection P as <-. lia.
  - intros s g mws s' W U. unfold UseOn in U.
    destruct (negb _); [discriminate|]. injection U as <-. simpl.
    intros i o p E P.
    destruct (decide (g = i)) as [->|Ne].
    + rewrite list_lookup_alter_eq in E.
      destruct (srvGroups s !! i) as [o0|] eqn:E0; [| discriminate].
      simpl in E. injection E as <-. simpl in P. exact (W i o0 p E0 P).
    + rewrite list_lookup_alter_ne in E by exact Ne. exact (W i o p E P).
  - intros s g ms s' W R. unfold RegisterOn in R.
    destruct (Register _ _ ms); [| discriminate]. injection R as <-. exact W.
Qed.

End RegistryMore.

(** ** Batches and parameters, the other way round *)

Section BatchMore.
Context {World : Type}.
Context `{codec : Codec}.
Implicit Types (h : @Handler World) (m : @method World) (w : World).

(** X24.  For a batch of records, none nil, whose ids all have a hash:
    when the ids are pairwise different the parse returns the records as
    they are, in their order; when two ids are equal the batch is refused
    with status 400, invalid_request and "ids must be unique", and no
    handler runs. *)
Theorem parseRequests_unique_ids h (r : http.Request) (result : list request.t) w :
  http.BodyErr r = None ->
  startsObject (TrimSpace (http.Body r)) = false ->
  decodeRequests (TrimSpace (http.Body r)) = inr (map Some result) ->
  result <> [] ->
  Forall (fun a => hashable (request.ID a) = true) result ->
  (distinctIDs result -> parseRequests r = Done (inr result))
  /\ (forall i j a b,
        (i < j)%nat -> result !! i = Some a -> result !! j = Some b ->
        ifaceEq (request.ID b) (request.ID a) = true ->
        ServeHTTP h r w
        = (w, Done (mkHTTPResponse 400
                      (Object (response.mk None
                                 (Some (InvalidRequest "ids must be unique"))
                                 Nil))))).
Proof.
  intros Hb Hs Hd Hne Hh. split.
  - intros Hdist. unfold parseRequests. rewrite Hb, Hs, Hd.
    rewrite length_map.
    destruct result as [|r0 rs]; [destruct (Hne eq_refl)|]. cbn [length Nat.eqb].
    pose proof (assertUnique_prefix [] (r0 :: rs) [] Hh) as A.
    rewrite app_nil_r in A. rewrite A; [| | exact Hdist].
    + cbn [assertUnique]. rewrite omap_Some. reflexivity.
    + apply Forall_forall. intros; reflexivity.
  - intros i j a b Hij Ha Hb' He.
    apply ServeHTTP_rejected with (err := ErrRPC (InvalidRequest "ids must be unique")).
    unfold parseRequests. rewrite Hb, Hs, Hd. rewrite length_map.
    destruct result as [|r0 rs]; [destruct (Hne eq_refl)|]. cbn [length Nat.eqb].
    rewrite (assertUnique_duplicate [] (r0 :: rs) Hh); [reflexivity|].
    exists (take j (r0 :: rs)), b, (drop (S j) (r0 :: rs)).
    split; [symmetry; apply take_drop_middle; exact Hb'|]. right.
    apply existsb_exists. exists (request.ID a). split; [| exact He].
    apply in_map. apply list_elem_of_In. apply list_elem_of_lookup. exists i.
    rewrite lookup_take_lt by exact Hij. exact Ha.
Qed.

(** X25.  A method whose parameter type has two or more levels of
    indirection cannot be served: every record for it that has a valid id
    is answered with internal_error, whatever its params, without the
    decoder or the pipeline being used; the world is untouched. *)
Theorem respond_deep_indirection h ctx req m (t : rtype) w :
  isNumberOrString (request.ID req) = true ->
  methods h !! request.Method req = Some m ->
  paramsType m = Some t ->
  (2 <= reflect.ptrDepth t)%nat ->
  exists text,
    forall (decoder : Codec) (params : string),
      @respond World decoder h ctx
        (request.mk (request.Method req) params (request.ID req)) w
      = (w, response.mk None
              (Some (InternalError (Some (ErrOther text text))))
              (request.ID req)).
Proof.
  intros Hid Hm Hp Hd.
  destruct (newParamsLoop_deep t Hd) as [text Hn].
  exists text. intros decoder params.
  unfold respond, invokeMethod, invokeMethodBody. simpl.
  rewrite Hid, Hm, Hp. simpl. unfold newParams. rewrite Hp, Hn. reflexivity.
Qed.

End BatchMore.

(** ** The properties at work on the example server *)

Section MoreExampleRuns.
Import Examples Runs MoreRuns.

Lemma heapRoot_wellFormed : wellFormed (srvGroups heapRoot).
Proof.
  intros g o p E P. destruct g as [|g]; simpl in E; [| discriminate].
  injection E as <-. discriminate.
Qed.

Lemma distinct_pair (a b : request.t) :
  ifaceEq (request.ID b) (request.ID a) = false -> distinctIDs [a; b].
Proof.
  intros H i j x y Hij Hx Hy.
  destruct i as [|[|i]], j as [|[|j]]; simpl in Hx, Hy; try lia; try discriminate.
  injection Hx as <-. injection Hy as <-. exact H.
Qed.

Lemma distinct_one (a : request.t) : distinctIDs [a].
Proof.
  intros i j x y Hij Hx Hy.
  destruct i as [|i], j as [|j]; simpl in Hx, Hy; try lia; discriminate.
Qed.

(** X4 on an error marked for dumping. *)
Lemma MarshalJSON_lines_witness :
  dumpErrors dumpedError = true
  /\ ["boom"; "  main.go:10"]%list <> []
  /\ Forall cleanLine ["boom"; "  main.go:10"]%list
  /\ exists cause,
       wrapped dumpedError = Some cause
       /\ join (String newline EmptyString) ["boom"; "  main.go:10"]%list
          = replaceAll tab "  " (formatPlusV cause).
Proof.
  refine (MarshalJSON_lines dumpedError ["boom"; "  main.go:10"]%list _).
  vm_compute. reflexivity.
Defined.

(** X5 on the batch of the package's test. *)
Lemma parseRequests_returns_witness :
  http.BodyErr (post bodyBatch) = None
  /\ [reqUpperA; reqUpperB]%list <> []
  /\ Forall (fun a => hashable (request.ID a) = true) [reqUpperA; reqUpperB]
  /\ distinctIDs [reqUpperA; reqUpperB]
  /\ (if startsObject (TrimSpace (http.Body (post bodyBatch)))
      then exists req, [reqUpperA; reqUpperB]%list = [req]
             /\ decodeRequest (TrimSpace (http.Body (post bodyBatch))) = inr req
      else decodeRequests (TrimSpace (http.Body (post bodyBatch)))
           = inr (map Some [reqUpperA; reqUpperB])).
Proof.
  refine (parseRequests_returns (post bodyBatch) [reqUpperA; reqUpperB] _).
  vm_compute. reflexivity.
Defined.

(** X6 on a body between blanks and a newline. *)
Lemma parseRequests_trims_witness :
  parseRequests (http.mkRequest ("  " ++ bodyNow ++ String newline EmptyString) None)
  = parseRequests (http.mkRequest bodyNow None).
Proof.
  refine (parseRequests_trims "  " bodyNow (String newline EmptyString) None _ _);
    reflexivity.
Defined.

(** X7 on the batch with a repeated id. *)
Lemma ServeHTTP_status_witness :
  (StatusCode (mkHTTPResponse 400
                 (Object (response.mk None
                            (Some (InvalidRequest "ids must be unique")) Nil)))
   = 200%Z
   /\ exists requests, parseRequests (post bodyDupe) = Done (inr requests))
  \/ (StatusCode (mkHTTPResponse 400
                    (Object (response.mk None
                               (Some (InvalidRequest "ids must be unique")) Nil)))
      = 400%Z
      /\ ([] : Log) = []
      /\ exists e,
           Payload (mkHTTPResponse 400
                      (Object (response.mk None
                                 (Some (InvalidRequest "ids must be unique")) Nil)))
           = Object (response.mk None (Some e) Nil)
           /\ (Name e = "invalid_request" \/ Name e = "parse_error")).
Proof.
  refine (ServeHTTP_status server (post bodyDupe) [] [] _ _).
  vm_compute. reflexivity.
Defined.

(** X8 on the empty array. *)
Lemma ServeHTTP_empty_batch_witness :
  ServeHTTP server (post "[]") []
  = ([], Done (mkHTTPResponse 400
                 (Object (response.mk None (Some (InvalidRequest "empty batch"))
                            Nil)))).
Proof.
  refine (ServeHTTP_empty_batch server (post "[]") [] _ _ _);
    vm_compute; reflexivity.
Defined.

(** X9 on a batch whose second element is [null]. *)
Lemma ServeHTTP_null_element_witness :
  @ServeHTTP Log codecWithNull server (post bodyNullElement) []
  = ([], Panicked nilDereference).
Proof.
  refine (@ServeHTTP_null_element Log codecWithNull server (post bodyNullElement)
            [] [reqNow] [] _ _ _ _ _).
  - reflexivity.
  - vm_compute. reflexivity.
  - vm_compute. reflexivity.
  - repeat constructor.
  - apply distinct_one.
Defined.

Lemma server_dispatches (req : request.t) (m : @method Log) :
  isNumberOrString (request.ID req) = true ->
  methods server !! request.Method req = Some m ->
  paramsType m = None ->
  dispatched server req m None.
Proof. intros. apply dispatched_context_only; assumption. Qed.

(** X10 on the method of the test that returns an RPC error. *)
Lemma respond_rpc_error_witness :
  respond server Background reqReturnError []
  = ([], response.mk None (Some (NotFound "customer not found")) (OfFloat64 one)).
Proof.
  refine (respond_rpc_error server Background reqReturnError mReturnError None
            [] [] None (NotFound "customer not found") _ _).
  - apply server_dispatches; [reflexivity | vm_compute; reflexivity | reflexivity].
  - vm_compute. reflexivity.
Defined.

(** X11 on the method of the test that returns another error. *)
Lemma respond_foreign_error_witness :
  encodeResponse (dumped server (snd (respond server Background reqDo [])))
  = mkResponseJSON None
      (Some (mkErrorJSON "internal_error" "internal error" None
               (if DumpErrors server
                then Some (split newline
                             (replaceAll tab "  "
                                (formatPlusV
                                   (ErrOther "an internal error occurred"
                                      "an internal error occurred"))))
                else None)))
      (request.ID reqDo).
Proof.
  refine (respond_foreign_error server Background reqDo mDo None [] [] None
            (ErrOther "an internal error occurred" "an internal error occurred")
            _ _ _).
  - apply server_dispatches; [reflexivity | vm_compute; reflexivity | reflexivity].
  - vm_compute. reflexivity.
  - reflexivity.
Defined.

(** X12 on the request of the test for a method that is not there. *)
Lemma ServeHTTP_method_not_found_witness :
  exists resp,
    ServeHTTP server (post bodyInvalid) [] = ([], Done (mkHTTPResponse 200 (Object resp)))
    /\ encodeResponse resp
       = mkResponseJSON None
           (Some (mkErrorJSON "method_not_found"
                    ("method not found: " ++ request.Method reqInvalid) None None))
           (request.ID reqInvalid).
Proof.
  refine (ServeHTTP_method_not_found server (post bodyInvalid) [] reqInvalid
            _ _ _ _ _).
  - reflexivity.
  - vm_compute. reflexivity.
  - vm_compute. reflexivity.
  - reflexivity.
  - vm_compute. reflexivity.
Defined.

(** X13 on the request of the test with a number for a string. *)
Lemma invokeMethod_params_rejected_witness :
  invokeMethod server Background reqUpperNumber []
  = ([], (None,
          Some (ErrRPC (ParseError
                          (ErrUnmarshalType "number" tString 1 ""
                             "json: cannot unmarshal number into Go value of type string")
                          "cannot parse params")))).
Proof.
  refine (invokeMethod_params_rejected server Background reqUpperNumber mUpper
            tString _ [] _ _ _ _ _).
  - reflexivity.
  - vm_compute. reflexivity.
  - reflexivity.
  - simpl. lia.
  - vm_compute. reflexivity.
Defined.

(** X14 on a batch whose second record panics. *)
Lemma respondAll_isolates_panic_witness :
  respondAll server Background ([reqNowA] ++ reqPanic :: [reqNowB])%list []
  = ([],
     ([response.mk (Some (Lit typeTimeTime "2000-01-01T01:00:00Z")) None
         (OfString "a")]
      ++ response.mk None
           (Some (InternalError (panicCause (PanicOther "panic error"))))
           (request.ID reqPanic)
      :: [response.mk (Some (Lit typeTimeTime "2000-01-01T01:00:00Z")) None
            (OfString "b")])%list).
Proof.
  refine (respondAll_isolates_panic server Background [reqNowA] [reqNowB]
            reqPanic mPanic None [] [] [] [] _ _ (PanicOther "panic error")
            _ _ _ _ _).
  - vm_compute. reflexivity.
  - apply server_dispatches; [reflexivity | vm_compute; reflexivity | reflexivity].
  - vm_compute. reflexivity.
  - discriminate.
  - vm_compute. reflexivity.
Defined.



(** X18 on the method of the test that takes a pointer. *)
Lemma newParams_succeeds_witness :
  ((exists ptr, newParams mGetUser2 = Done ptr)
   <-> (reflect.ptrDepth (reflect.PtrTo typeGetUserParams) <= 1)%nat)
  /\ (forall ptr, newParams mGetUser2 = Done ptr ->
        ptr = reflect_New (reflect.PtrTo typeGetUserParams)
        /\ ElemInterface ptr
           = Done (Interface (Zero (reflect.PtrTo typeGetUserParams)))).
Proof.
  exact (newParams_succeeds mGetUser2 (reflect.PtrTo typeGetUserParams) eq_refl).
Defined.

(** X19 on the registration of the methods of the tests. *)
Lemma Register_registers_witness :
  NoDup (map fst methodsOfTests)
  /\ (forall name f, In (name, f) methodsOfTests ->
        methods emptyHandler !! name = None
        /\ exists m, resolveMethod (mkGroup None []) name f = Done m
                     /\ methods server !! name = Some m)
  /\ (forall name, ~ In name (map fst methodsOfTests) ->
        methods server !! name = methods emptyHandler !! name)
  /\ DumpErrors server = DumpErrors emptyHandler
  /\ root server = root emptyHandler.
Proof.
  refine (Register_registers emptyHandler (mkGroup None []) methodsOfTests server _).
  vm_compute. reflexivity.
Defined.

(** X20 on a second registration of [Now], through a subgroup. *)
Lemma Register_twice_witness :
  Register server (Group_ (mkGroup None [])) [("Now", noop)]
  = Panicked (PanicOther ("jsonrpc: method already registered: " ++ "Now")).
Proof.
  refine (Register_twice emptyHandler (mkGroup None []) methodsOfTests server
            "Now" now (Group_ (mkGroup None [])) noop [] _ _).
  - vm_compute. reflexivity.
  - left. reflexivity.
Defined.

(** X21 on a root given layer B after its subgroup was made. *)
Lemma Use_reaches_subgroups_witness :
  effectiveChain (groupOf heapChild 1) = effectiveChain (groupOf heapRoot 0)
  /\ effectiveChain (groupOf heapUsed 1)
     = (effectiveChain (groupOf heapRoot 0) ++ [tracer "B"])%list
  /\ forall name (f : MethodFunc) s3,
       RegisterOn heapUsed 1 [(name, f)] = Done s3 ->
       exists m,
         srvMethods s3 !! name = Some m
         /\ call m
            = wrap (effectiveChain (groupOf heapRoot 0) ++ [tracer "B"])%list
                (rawCall f (paramsType m)).
Proof.
  refine (Use_reaches_subgroups heapRoot 0 [tracer "B"] heapChild 1 heapUsed
            heapRoot_wellFormed _ _ _).
  - simpl. lia.
  - reflexivity.
  - reflexivity.
Defined.

(** X22 on the heap with a method registered. *)
Lemma Use_after_Register_witness :
  UseOn heapRegistered 0 [tracer "B"]
  = Panicked (PanicOther "jsonrpc: middleware must be registered before methods").
Proof.
  refine (Use_after_Register heapRoot 0 [("Now", now)] heapRegistered 0
            [tracer "B"] _ _).
  - vm_compute. reflexivity.
  - discriminate.
Defined.

(** X24 on the batch of the package's test. *)
Lemma parseRequests_unique_ids_witness :
  (distinctIDs [reqUpperA; reqUpperB] ->
   parseRequests (post bodyBatch) = Done (inr [reqUpperA; reqUpperB]))
  /\ (forall i j a b,
        (i < j)%nat -> [reqUpperA; reqUpperB]%list !! i = Some a ->
        [reqUpperA; reqUpperB]%list !! j = Some b ->
        ifaceEq (request.ID b) (request.ID a) = true ->
        ServeHTTP server (post bodyBatch) []
        = ([], Done (mkHTTPResponse 400
                       (Object (response.mk None
                                  (Some (InvalidRequest "ids must be unique"))
                                  Nil))))).
Proof.
  refine (parseRequests_unique_ids server (post bodyBatch) [reqUpperA; reqUpperB]
            [] _ _ _ _ _).
  - reflexivity.
  - vm_compute. reflexivity.
  - vm_compute. reflexivity.
  - discriminate.
  - repeat constructor.
Defined.

(** X25 on a method whose parameter is a pointer to a pointer. *)
Lemma respond_deep_indirection_witness :
  exists text,
    forall (decoder : Codec) (params : string),
      @respond Log decoder deepServer Background
        (request.mk "GetUser3" params (OfFloat64 one)) []
      = ([], response.mk None
               (Some (InternalError (Some (ErrOther text text))))
               (OfFloat64 one)).
Proof.
  refine (@respond_deep_indirection Log deepServer Background reqGetUser3
            mGetUser3 typeDeep [] _ _ _ _).
  - reflexivity.
  - vm_compute. reflexivity.
  - reflexivity.
  - simpl. lia.
Defined.

(** X26 on the handler that returns a nil [*RPCError]. *)
Lemma respond_nil_rpc_error_witness :
  respond moreServer Background reqTypedNil []
  = (["TypedNil called"]%list, response.mk None None (OfFloat64 one))
  /\ encodeResponse (dumped moreServer (response.mk None None (OfFloat64 one)))
     = mkResponseJSON None None (OfFloat64 one).
Proof.
  refine (respond_nil_rpc_error moreServer Background reqTypedNil mTypedNil None
            [] ["TypedNil called"]%list None _ _).
  - apply dispatched_context_only; [reflexivity | vm_compute; reflexivity | reflexivity].
  - vm_compute. reflexivity.
Defined.

End MoreExampleRuns.
